(** * Spirit online schema change: a shallow embedding of the online-copy engine

    The development follows the packages of the repository:
    - [GoStrings]  the fragments of Go's [strings] package the code relies on;
    - [Utils]      [pkg/utils]: [HashKey], [UnhashKey];
    - [Dbconn]     [pkg/dbconn]: [RetryableTransaction], [TableLock];
    - [Repl]       [pkg/repl]: subscriptions, delta map and delta queue, flushes;
    - [BufferedMap] [pkg/repl]: the subscription that buffers row images;
    - [Migration]  [pkg/migration]: runner, checkpoints, cutover.

    Part I holds the definitions, Part II the lemmas and theorems. *)

From Stdlib Require Import ZArith List String Ascii Lia Bool Sorted.
From stdpp Require Import base gmap strings list.
Import ListNotations.
Open Scope Z_scope.

(** stdpp blocks the unfolding of string concatenation; the statements
    built by the code are concrete strings, so unfolding is wanted here. *)
#[local] Arguments String.append !_ _ / : simpl nomatch.
#[local] Set Warnings "-notation-for-abbreviation".

(* ===================================================================== *)
(** * Part I: the embedding                                               *)
(* ===================================================================== *)

(** ** Go's [strings] package *)
Module GoStrings.

(** [strings.Join(elems, sep)]. *)
Fixpoint Join (elems : list string) (sep : string) : string :=
  match elems with
  | [] => EmptyString
  | [a] => a
  | a :: rest => a +:+ sep +:+ Join rest sep
  end.

(** The scan of [strings.Split] for a non-empty separator: [cur] is the
    piece being accumulated, [skip] counts the bytes of a separator that
    was just matched and still have to be consumed.  Separators are found
    leftmost first and do not overlap. *)
Fixpoint Split_aux (sep : string) (skip : nat) (cur s : string) : list string :=
  match s with
  | EmptyString => [cur]
  | String c s' =>
      match skip with
      | S k => Split_aux sep k cur s'
      | O =>
          if String.prefix sep s
          then cur :: Split_aux sep (Nat.pred (String.length sep)) EmptyString s'
          else Split_aux sep O (cur +:+ String c EmptyString) s'
      end
  end.

(** [strings.Split(s, sep)]: with an empty separator Go explodes the
    string into its bytes. *)
Definition Split (s sep : string) : list string :=
  match sep with
  | EmptyString => List.map (fun c => String c EmptyString) (list_ascii_of_string s)
  | _ => Split_aux sep O EmptyString s
  end.

(** A value that can be told apart from the separator ["-#-"] when it is
    joined with others: the separator starts at none of its positions and,
    unless it is the last value, it does not end in ["-#"] (which, followed
    by a separator, would read as a separator one byte early). *)
Fixpoint separable (last : bool) (v : string) : bool :=
  match v with
  | EmptyString => true
  | String _ v' =>
      negb (String.prefix "-#-" v)
      && (last || negb (String.eqb v "-#"))
      && separable last v'
  end.

Fixpoint allSeparable (vs : list string) : bool :=
  match vs with
  | [] => true
  | [v] => separable true v
  | v :: rest => separable false v && allSeparable rest
  end.

(** [strings.Contains(s, substr)]. *)
Fixpoint Contains (s substr : string) : bool :=
  String.prefix substr s
  || match s with
     | EmptyString => false
     | String _ s' => Contains s' substr
     end.

End GoStrings.

(** ** [pkg/utils] *)
Module Utils.
Import GoStrings.

(** [PrimaryKeySeparator], used to hash a composite primary key. *)
Definition PrimaryKeySeparator : string := "-#-".

Section WithFmt.
(** [any] stands for Go's [any]; [Sprintf_v] is [fmt.Sprintf("%v", v)];
    [EscapeString] is [sqlescape.EscapeString], which is not part of the
    sources at hand and therefore a parameter. *)
Context {any : Type}.
Variable Sprintf_v : any -> string.
Variable EscapeString : string -> string.

(** [HashKey] converts a composite key into a string so that it can be
    placed in a map. *)
Definition HashKey (key : list any) : string :=
  Join (List.map Sprintf_v key) PrimaryKeySeparator.

Definition quoteLiteral (v : string) : string :=
  "'" +:+ EscapeString v +:+ "'".

(** [UnhashKey] converts a hashed key to a string that can be used in a
    query. *)
Definition UnhashKey (key : string) : string :=
  let str := Split key PrimaryKeySeparator in
  match str with
  | [s0] => quoteLiteral s0
  | _ => "(" +:+ Join (List.map quoteLiteral str) "," +:+ ")"
  end.

(** The literal the specification expects for a key: ['v'] for a single
    column, [('v1',...,'vN')] for a composite key. *)
Definition keyLiteral (key : list any) : string :=
  match key with
  | [v] => quoteLiteral (Sprintf_v v)
  | _ => "(" +:+ Join (List.map (fun v => quoteLiteral (Sprintf_v v)) key) "," +:+ ")"
  end.
End WithFmt.


(** [StripPort]: the host name without its port.  Taking element 0 of an
    empty slice would be a run-time panic, rendered as [None]. *)
Definition StripPort (hostname : string) : option string :=
  if Contains hostname ":"
  then match Split hostname ":" with
       | first :: _ => Some first
       | [] => None
       end
  else Some hostname.

End Utils.

(** ** [pkg/table]: the part of [TableInfo] the engine reads *)
Module Table.

Record TableInfo := {
  SchemaName : string;
  TableName : string;
  QuotedName : string;
  KeyColumns : list string;
  NonGeneratedColumns : list string;
}.

End Table.

(** ** [pkg/dbconn] *)
Module Dbconn.
Import Table.

Definition errLockWaitTimeout : Z := 1205.
Definition errDeadlock : Z := 1213.
Definition errCannotConnect : Z := 2003.
Definition errConnLost : Z := 2013.
Definition errReadOnly : Z := 1290.
Definition errQueryKilled : Z := 1836.

Record DBConfig := {
  LockWaitTimeout : Z;
  InnodbLockWaitTimeout : Z;
  MaxRetries : Z;
}.

Definition NewDBConfig : DBConfig :=
  {| LockWaitTimeout := 30; InnodbLockWaitTimeout := 3; MaxRetries := 5 |}.

(** Go [error] values: a [*mysql.MySQLError] carries a number, anything
    else is told apart by its message. *)
Inductive error :=
| MySQLError (Number : Z)
| ErrorString (msg : string).

(** *** The server

    The database is outside the program.  It is modelled as an arbitrary
    deterministic responder: what it answers to a request may depend on
    every request it has seen.  The list of requests doubles as the trace
    of what the program did.  A transaction is named by the position of
    its [BeginTx] in the trace; it holds one connection for its lifetime. *)
Inductive request :=
| BeginTx
| TxExec (tx : nat) (query : string) (args : list Z)
| TxQuery (tx : nat) (query : string)
| TxCommit (tx : nat)
| TxRollback (tx : nat).

(** One row of [SHOW WARNINGS]. *)
Record warning := { level : string; code : string; message : string }.

Record response := {
  resp_err : option error;          (* the call's error, if any *)
  resp_rowsAffected : option Z;     (* [None]: RowsAffected is not supported *)
  resp_rows : list (option warning) (* result rows; [None]: Scan fails *)
}.

Record World := {
  server : list request -> request -> response;
  history : list request;
}.

Definition call (req : request) (w : World) : World * response :=
  ({| server := server w; history := history w ++ [req] |},
   server w (history w) req).

(** [utils.ErrInErr(trx.Rollback())]: the rollback's own error is dropped. *)
Definition rollback (tx : nat) (w : World) : World :=
  fst (call (TxRollback tx) w).

(** [db.BeginTx]. *)
Definition beginTx (w : World) : World * (nat + error) :=
  let tx := List.length (history w) in
  let '(w1, r) := call BeginTx w in
  match resp_err r with
  | Some e => (w1, inr e)
  | None => (w1, inl tx)
  end.

(** [trx.ExecContext] for a sequence of statements, stopping at the first
    error. *)
Fixpoint execAll (tx : nat) (stmts : list (string * list Z)) (w : World)
  : World * option error :=
  match stmts with
  | [] => (w, None)
  | (q, a) :: rest =>
      let '(w1, r) := call (TxExec tx q a) w in
      match resp_err r with
      | Some e => (w1, Some e)
      | None => execAll tx rest w1
      end
  end.

Definition standardizeStmts (config : DBConfig) : list (string * list Z) :=
  [ ("SET time_zone='+00:00'", []);
    ("SET sql_mode=''", []);
    ("SET NAMES 'binary'", []);
    ("SET innodb_lock_wait_timeout=?", [InnodbLockWaitTimeout config]);
    ("SET lock_wait_timeout=?", [LockWaitTimeout config]) ].

Definition standardizeTrx (tx : nat) (config : DBConfig) (w : World)
  : World * option error :=
  execAll tx (standardizeStmts config) w.

(** [canRetryError] looks at the MySQL error and decides if it is
    considered a permanent failure or not. *)
Definition canRetryError (err : error) : bool :=
  let errNumber := match err with MySQLError n => n | ErrorString _ => 0 end in
  (errNumber =? errLockWaitTimeout) || (errNumber =? errDeadlock)
  || (errNumber =? errCannotConnect) || (errNumber =? errConnLost)
  || (errNumber =? errReadOnly) || (errNumber =? errQueryKilled).

(** The error made by [fmt.Errorf("unsafe warning migrating chunk: %s, query: %s", ...)]. *)
Definition unsafeWarning (message stmt : string) : error :=
  ErrorString ("unsafe warning migrating chunk: " +:+ message +:+ ", query: " +:+ stmt).

(** The scan of the rows of [SHOW WARNINGS] after one statement: [None]
    when every row is tolerated, otherwise the error to return. *)
Fixpoint checkWarnings (ignoreDupKeyWarnings : bool) (stmt : string)
    (rows : list (option warning)) : option error :=
  match rows with
  | [] => None
  | None :: _ => Some (ErrorString "sql: Scan error")
  | Some wn :: rest =>
      if String.eqb (code wn) "1062" && ignoreDupKeyWarnings
      then checkWarnings ignoreDupKeyWarnings stmt rest
      else if String.eqb (code wn) "3170"
      then checkWarnings ignoreDupKeyWarnings stmt rest
      else Some (unsafeWarning (message wn) stmt)
  end.

(** How the statement loop of one attempt ends. *)
Inductive attempt :=
| Done                 (* every statement went through *)
| Retry (err : error)  (* rolled back, to be retried *)
| Fatal (err : error). (* rolled back, returned to the caller *)

(** The statement loop in the body of [RetryableTransaction]. *)
Fixpoint execStmts (tx : nat) (ignoreDupKeyWarnings : bool) (stmts : list string)
    (rowsAffected : Z) (w : World) : World * Z * attempt :=
  match stmts with
  | [] => (w, rowsAffected, Done)
  | stmt :: rest =>
      if String.eqb stmt ""
      then execStmts tx ignoreDupKeyWarnings rest rowsAffected w
      else
        let '(w1, res) := call (TxExec tx stmt []) w in
        match resp_err res with
        | Some err =>
            if canRetryError err
            then (rollback tx w1, rowsAffected, Retry err)
            else (rollback tx w1, rowsAffected, Fatal err)
        | None =>
            let '(w2, warningRes) := call (TxQuery tx "SHOW WARNINGS") w1 in
            match resp_err warningRes with
            | Some err => (rollback tx w2, rowsAffected, Fatal err)
            | None =>
                match checkWarnings ignoreDupKeyWarnings stmt (resp_rows warningRes) with
                | Some err => (rollback tx w2, rowsAffected, Fatal err)
                | None =>
                    let rowsAffected' :=
                      match resp_rowsAffected res with
                      | Some count => rowsAffected + count
                      | None => rowsAffected
                      end in
                    execStmts tx ignoreDupKeyWarnings rest rowsAffected' w2
                end
            end
        end
  end.

(** The retry loop of [RetryableTransaction]; [n] counts the attempts that
    are left and [err] is the last error seen.  The pauses of [backoff]
    between attempts are not modelled. *)
Fixpoint retryLoop (n : nat) (ignoreDupKeyWarnings : bool) (config : DBConfig)
    (stmts : list string) (rowsAffected : Z) (err : option error) (w : World)
  : World * Z * option error :=
  match n with
  | O => (w, rowsAffected, err)
  | S n' =>
      match beginTx w with
      | (w1, inr e) =>
          retryLoop n' ignoreDupKeyWarnings config stmts rowsAffected (Some e) w1
      | (w1, inl tx) =>
          match standardizeTrx tx config w1 with
          | (w2, Some e) =>
              retryLoop n' ignoreDupKeyWarnings config stmts rowsAffected (Some e)
                (rollback tx w2)
          | (w2, None) =>
              match execStmts tx ignoreDupKeyWarnings stmts rowsAffected w2 with
              | (w3, rows, Retry e) =>
                  retryLoop n' ignoreDupKeyWarnings config stmts rows (Some e) w3
              | (w3, rows, Fatal e) => (w3, rows, Some e)
              | (w3, rows, Done) =>
                  let '(w4, r) := call (TxCommit tx) w3 in
                  match resp_err r with
                  | Some e =>
                      retryLoop n' ignoreDupKeyWarnings config stmts rows (Some e)
                        (rollback tx w4)
                  | None => (w4, rows, None)
                  end
              end
          end
      end
  end.

(** [RetryableTransaction] retries all statements in a transaction,
    retrying if a statement errors, or there is a deadlock.  It will
    retry up to [MaxRetries] times. *)
Definition RetryableTransaction (ignoreDupKeyWarnings : bool) (config : DBConfig)
    (stmts : list string) (w : World) : World * Z * option error :=
  retryLoop (Z.to_nat (MaxRetries config)) ignoreDupKeyWarnings config stmts 0 None w.

(** [BeginStandardTrx] is like [db.BeginTx] but it does the lock setting
    changes in advance, and returns the connection id. *)
Definition BeginStandardTrx (config : DBConfig) (w : World) : World * (nat + error) :=
  match beginTx w with
  | (w1, inr e) => (w1, inr e)
  | (w1, inl tx) =>
      match standardizeTrx tx config w1 with
      | (w2, Some e) => (w2, inr e)
      | (w2, None) =>
          let '(w3, r) := call (TxQuery tx "SELECT CONNECTION_ID()") w2 in
          match resp_err r with
          | Some e => (w3, inr e)
          | None => (w3, inl tx)
          end
      end
  end.

(** *** [tablelock.go] *)
Record TableLock := {
  tables : list TableInfo;
  lockTxn : nat;
}.

(** The text built by the loop at the top of [NewTableLock]. *)
Fixpoint lockTables (idx : nat) (tbls : list TableInfo) : string :=
  match tbls with
  | [] => ""
  | tbl :: rest =>
      (if Nat.eqb idx 0 then "" else ", ") +:+ QuotedName tbl +:+ " WRITE"
      +:+ lockTables (S idx) rest
  end.

Definition lockStmt (tbls : list TableInfo) : string :=
  "LOCK TABLES " +:+ lockTables 0 tbls.

(** [NewTableLock] creates a new server wide lock on multiple tables, i.e.
    LOCK TABLES .. WRITE, with no retries.  The timer that kills blocking
    transactions under [ForceKill] runs beside the statement and is not
    modelled. *)
Definition NewTableLock (tbls : list TableInfo) (config : DBConfig) (w : World)
  : World * (TableLock + error) :=
  match BeginStandardTrx config w with
  | (w1, inr e) => (w1, inr e)
  | (w1, inl tx) =>
      let '(w2, r) := call (TxExec tx (lockStmt tbls) []) w1 in
      match resp_err r with
      | Some e => (rollback tx w2, inr e)
      | None => (w2, inl {| tables := tbls; lockTxn := tx |})
      end
  end.

(** [ExecUnderLock] executes a set of statements under a table lock. *)
Fixpoint ExecUnderLock (s : TableLock) (stmts : list string) (w : World)
  : World * option error :=
  match stmts with
  | [] => (w, None)
  | stmt :: rest =>
      if String.eqb stmt ""
      then ExecUnderLock s rest w
      else
        let '(w1, r) := call (TxExec (lockTxn s) stmt []) w in
        match resp_err r with
        | Some e => (w1, Some e)
        | None => ExecUnderLock s rest w1
        end
  end.

(** [Close] closes the table lock. *)
Definition Close (s : TableLock) (w : World) : World * option error :=
  let '(w1, r) := call (TxExec (lockTxn s) "UNLOCK TABLES" []) w in
  match resp_err r with
  | Some e => (w1, Some e)
  | None =>
      let '(w2, r2) := call (TxRollback (lockTxn s)) w1 in
      (w2, resp_err r2)
  end.

(** [DBExec] is like [db.Exec] but sets the lock timeout to low in
    advance.  It does not retry, and returns no result. *)
Definition DBExec (config : DBConfig) (query : string) (w : World) : World * option error :=
  match beginTx w with
  | (w1, inr e) => (w1, Some e)
  | (w1, inl tx) =>
      match standardizeTrx tx config w1 with
      | (w2, Some e) => (w2, Some e)
      | (w2, None) =>
          let '(w3, r) := call (TxExec tx query []) w2 in
          (w3, resp_err r)
      end
  end.

(** *** Vocabulary for statements about traces *)

(** A row of [SHOW WARNINGS] that the statement loop lets pass. *)
Definition tolerated (ignoreDupKeyWarnings : bool) (row : option warning) : Prop :=
  match row with
  | None => False
  | Some wn => code wn = "3170" \/ (code wn = "1062" /\ ignoreDupKeyWarnings = true)
  end.

(** Every request of [seg], sent after the history [h], was answered
    without an error. *)
Fixpoint allOk (srv : list request -> request -> response) (h seg : list request)
  : Prop :=
  match seg with
  | [] => True
  | r :: seg' => resp_err (srv h r) = None /\ allOk srv (h ++ [r]) seg'
  end.

Definition nonEmpty (stmts : list string) : list string :=
  List.filter (fun q => negb (String.eqb q "")) stmts.

(** The requests of one attempt of [RetryableTransaction] in which every
    statement went through and the commit was sent. *)
Definition committedAttempt (tx : nat) (config : DBConfig) (stmts : list string)
  : list request :=
  BeginTx
  :: List.map (fun qa => TxExec tx (fst qa) (snd qa)) (standardizeStmts config)
  ++ List.flat_map (fun q => [TxExec tx q []; TxQuery tx "SHOW WARNINGS"]) (nonEmpty stmts)
  ++ [TxCommit tx].

(** [w'] is [w] after some more requests to the same server. *)
Definition extends (w w' : World) : Prop :=
  server w' = server w /\ exists seg, history w' = history w ++ seg.

(** The statements [stmts] were all executed, in order and each without
    error, on the connection of the table lock, taking the history from
    [h] to [h']. *)
Definition ranUnderLock (srv : list request -> request -> response)
    (lock : TableLock) (stmts : list string) (h h' : list request) : Prop :=
  let seg := List.map (fun q => TxExec (lockTxn lock) q []) (nonEmpty stmts) in
  h' = h ++ seg /\ allOk srv h seg.

(** The history went from [h] to [h'] and ends with one transaction in
    which [stmts] were all executed, in order and without error, and which
    was committed. *)
Definition ranInTransaction (srv : list request -> request -> response)
    (config : DBConfig) (stmts : list string) (h h' : list request) : Prop :=
  exists pre,
    let h0 := h ++ pre in
    h' = h0 ++ committedAttempt (List.length h0) config stmts
    /\ allOk srv h0 (committedAttempt (List.length h0) config stmts).

(** Every statement of [stmts] ran in a committed transaction of its own,
    one after the other. *)
Fixpoint ranEach (srv : list request -> request -> response)
    (stmts : list string) (h h' : list request) : Prop :=
  match stmts with
  | [] => h' = h
  | q :: rest =>
      exists h1, ranInTransaction srv NewDBConfig [q] h h1 /\ ranEach srv rest h1 h'
  end.

(** A request that runs on the transaction [tx]. *)
Definition onTx (tx : nat) (r : request) : Prop :=
  match r with
  | TxExec t _ _ | TxQuery t _ => t = tx
  | _ => False
  end.

(** The requests of one attempt of [RetryableTransaction], sent after the
    history [h]: either the transaction could not be begun, or it was
    begun, only statements and queries of its own were sent on it, and it
    was ended by a rollback, by a commit, or by a commit that failed and a
    rollback. *)
Definition attemptOf (srv : list request -> request -> response) (h seg : list request)
  : Prop :=
  let tx := List.length h in
  (seg = [BeginTx] /\ resp_err (srv h BeginTx) <> None)
  \/ exists body ending,
       seg = BeginTx :: body ++ ending
       /\ resp_err (srv h BeginTx) = None
       /\ Forall (onTx tx) body
       /\ (ending = [TxRollback tx] \/ ending = [TxCommit tx]
           \/ ending = [TxCommit tx; TxRollback tx]).

(** Attempts that follow each other. *)
Fixpoint attemptsOf (srv : list request -> request -> response) (h : list request)
    (segs : list (list request)) : Prop :=
  match segs with
  | [] => True
  | seg :: rest => attemptOf srv h seg /\ attemptsOf srv (h ++ seg) rest
  end.

(** Every request of [seg], sent after the history [h], was answered
    without an error, and every row that a query returned is one the
    statement loop lets pass. *)
Fixpoint quiet (srv : list request -> request -> response) (ig : bool)
    (h seg : list request) : Prop :=
  match seg with
  | [] => True
  | r :: seg' =>
      resp_err (srv h r) = None
      /\ match r with
         | TxQuery _ _ => Forall (tolerated ig) (resp_rows (srv h r))
         | _ => True
         end
      /\ quiet srv ig (h ++ [r]) seg'
  end.

(** The transactions that the requests of [seg] end. *)
Definition ended (seg : list request) : list nat :=
  List.flat_map (fun r => match r with
                          | TxCommit tx | TxRollback tx => [tx]
                          | _ => []
                          end) seg.

(** The rows affected that the server reports for the statements
    [stmts], run one after the other on the transaction [tx] from the
    history [h] on, each followed by [SHOW WARNINGS]; a statement for which
    the driver has no count adds nothing. *)
Fixpoint reportedRows (srv : list request -> request -> response) (tx : nat)
    (h : list request) (stmts : list string) : Z :=
  match stmts with
  | [] => 0
  | q :: rest =>
      if String.eqb q "" then reportedRows srv tx h rest
      else
        match resp_rowsAffected (srv h (TxExec tx q [])) with
        | Some count => count
        | None => 0
        end
        + reportedRows srv tx (h ++ [TxExec tx q []; TxQuery tx "SHOW WARNINGS"]) rest
  end.

End Dbconn.

(** ** [pkg/repl] *)
Module Repl.
Import GoStrings Table Dbconn.

Record queuedChange := { key : string; isDelete : bool }.

Record statement := { numKeys : Z; stmt : string }.

(** [mysql.Position]. *)
Record Position := { Name : string; Pos : Z }.

(** [IntersectNonGeneratedColumns] returns a string of columns that are in
    both tables. *)
Definition IntersectNonGeneratedColumns (t1 t2 : TableInfo) : string :=
  Join
    (List.flat_map
       (fun col =>
          List.flat_map
            (fun col2 => if String.eqb col col2 then ["`" +:+ col +:+ "`"] else [])
            (NonGeneratedColumns t2))
       (NonGeneratedColumns t1))
    ", ".

Section WithExternals.
(** [any] is Go's [any] and [Sprintf_v] is [fmt.Sprintf("%v", v)].
    [table.QuoteColumns] and [pksToRowValueConstructor] are used by the
    statement builders but are not among the sources; they are
    parameters of the model. *)
Context {any : Type}.
Variable Sprintf_v : any -> string.
Variable QuoteColumns : list string -> string.
Variable pksToRowValueConstructor : list string -> string.

Record subscription := {
  table : TableInfo;
  newTable : TableInfo;
  disableDeltaMap : bool;               (* use queue instead *)
  deltaMap : gmap string bool;          (* delta map, for memory comparable PKs *)
  deltaQueue : list queuedChange;       (* used when disableDeltaMap is true *)
  enableKeyAboveWatermark : bool;
  keyAboveCopierCallback : option (any -> bool);
}.

Definition getDeltaLen (s : subscription) : Z :=
  if disableDeltaMap s
  then Z.of_nat (List.length (deltaQueue s))
  else Z.of_nat (size (deltaMap s)).

(** [keyAboveWatermarkEnabled] returns true if the KeyAboveWatermark
    optimization is enabled. *)
Definition keyAboveWatermarkEnabled (s : subscription) : bool :=
  enableKeyAboveWatermark s
  && match keyAboveCopierCallback s with Some _ => true | None => false end.

Definition setKeyAboveWatermarkOptimization (enabled : bool) (s : subscription)
  : subscription :=
  {| table := table s; newTable := newTable s;
     disableDeltaMap := disableDeltaMap s;
     deltaMap := deltaMap s; deltaQueue := deltaQueue s;
     enableKeyAboveWatermark := enabled;
     keyAboveCopierCallback := keyAboveCopierCallback s |}.

Definition setDeltaQueue (q : list queuedChange) (s : subscription) : subscription :=
  {| table := table s; newTable := newTable s;
     disableDeltaMap := disableDeltaMap s;
     deltaMap := deltaMap s; deltaQueue := q;
     enableKeyAboveWatermark := enableKeyAboveWatermark s;
     keyAboveCopierCallback := keyAboveCopierCallback s |}.

Definition setDeltaMap (m : gmap string bool) (s : subscription) : subscription :=
  {| table := table s; newTable := newTable s;
     disableDeltaMap := disableDeltaMap s;
     deltaMap := m; deltaQueue := deltaQueue s;
     enableKeyAboveWatermark := enableKeyAboveWatermark s;
     keyAboveCopierCallback := keyAboveCopierCallback s |}.

(** The guard of [keyHasChanged]:
    [s.keyAboveWatermarkEnabled() && s.keyAboveCopierCallback(key[0])].
    The right operand is only evaluated when the left one holds; [key[0]]
    on an empty key is a run-time panic, rendered as [None]. *)
Definition keyIsAboveWatermark (s : subscription) (k : list any) : option bool :=
  if keyAboveWatermarkEnabled s
  then match keyAboveCopierCallback s, k with
       | Some callback, k0 :: _ => Some (callback k0)
       | Some _, [] => None
       | None, _ => Some false
       end
  else Some false.

(** [keyHasChanged] records one row event of the binary log: [deleted]
    tells a DELETE from an INSERT or UPDATE. *)
Definition keyHasChanged (s : subscription) (k : list any) (deleted : bool)
  : option subscription :=
  match keyIsAboveWatermark s k with
  | None => None
  | Some true => Some s
  | Some false =>
      if disableDeltaMap s
      then Some (setDeltaQueue
                   (deltaQueue s ++ [{| key := Utils.HashKey Sprintf_v k; isDelete := deleted |}])
                   s)
      else Some (setDeltaMap (<[Utils.HashKey Sprintf_v k := deleted]> (deltaMap s)) s)
  end.

Definition createDeleteStmt (s : subscription) (deleteKeys : list string) : statement :=
  {| numKeys := Z.of_nat (List.length deleteKeys);
     stmt :=
       match deleteKeys with
       | [] => ""
       | _ => "DELETE FROM " +:+ QuotedName (newTable s)
              +:+ " WHERE (" +:+ QuoteColumns (KeyColumns (table s))
              +:+ ") IN (" +:+ pksToRowValueConstructor deleteKeys +:+ ")"
       end |}.

Definition createReplaceStmt (s : subscription) (replaceKeys : list string) : statement :=
  {| numKeys := Z.of_nat (List.length replaceKeys);
     stmt :=
       match replaceKeys with
       | [] => ""
       | _ => "REPLACE INTO " +:+ QuotedName (newTable s)
              +:+ " (" +:+ IntersectNonGeneratedColumns (table s) (newTable s)
              +:+ ") SELECT " +:+ IntersectNonGeneratedColumns (table s) (newTable s)
              +:+ " FROM " +:+ QuotedName (table s)
              +:+ " FORCE INDEX (PRIMARY) WHERE (" +:+ QuoteColumns (KeyColumns (table s))
              +:+ ") IN (" +:+ pksToRowValueConstructor replaceKeys +:+ ")"
       end |}.

(** [extractStmt] is not among the sources; it hands the texts of the
    statements to the executor.  Both executors skip empty texts, so
    whether it drops them makes no difference. *)
Definition extractStmt (stmts : list statement) : list string :=
  List.map stmt stmts.

(** The merging loop of [flushDeltaQueue].  A run is the kind of its
    changes ([true] for DELETE) and the keys buffered for it.  [prev] is
    [prevKey.isDelete], [buffer] the keys gathered since the last
    statement; the last equation is "flush the buffer once more". *)
Fixpoint mergeQueue (target : Z) (prev : bool) (buffer : list string)
    (queue : list queuedChange) : list (bool * list string) :=
  match queue with
  | [] => [(prev, buffer)]
  | change :: rest =>
      if negb (Bool.eqb (isDelete change) prev)
         || (Z.of_nat (List.length buffer) >? target)
      then (prev, buffer) :: mergeQueue target (isDelete change) [key change] rest
      else mergeQueue target (isDelete change) (buffer ++ [key change]) rest
  end.

Definition stmtOfRun (s : subscription) (run : bool * list string) : statement :=
  if fst run then createDeleteStmt s (snd run) else createReplaceStmt s (snd run).

(** The statements [flushDeltaQueue] builds for a non-empty queue. *)
Definition queueRuns (target : Z) (queue : list queuedChange)
  : list (bool * list string) :=
  match queue with
  | [] => []
  | first :: _ => mergeQueue target (isDelete first) [] queue
  end.

(** [flushDeltaQueue] flushes the FIFO queue that is used when the
    PRIMARY KEY is not memory comparable.  [targetBatchSize] and
    [dbConfig] are read through the reference back to the client. *)
Definition flushDeltaQueue (targetBatchSize : Z) (dbConfig : DBConfig)
    (s : subscription) (underLock : bool) (lock : TableLock) (w : World)
  : World * subscription * option error :=
  match deltaQueue s with
  | [] => (w, s, None)
  | _ =>
      let stmts := List.map (stmtOfRun s) (queueRuns targetBatchSize (deltaQueue s)) in
      let '(w1, err) :=
        if underLock
        then ExecUnderLock lock (extractStmt stmts) w
        else
          let '(w1, _, err) := RetryableTransaction true dbConfig (extractStmt stmts) w in
          (w1, err) in
      match err with
      | Some e => (w1, s, Some e)
      | None => (w1, setDeltaQueue [] s, None)
      end
  end.

(** The batching loop of [flushDeltaMap] over the entries of the map in
    the order the iteration yields them.  [i % target] with a zero
    [target] is a run-time panic, rendered as [None]. *)
Fixpoint batchMap (s : subscription) (target : Z) (entries : list (string * bool))
    (i : Z) (deleteKeys replaceKeys : list string) : option (list statement) :=
  match entries with
  | [] => Some [createDeleteStmt s deleteKeys; createReplaceStmt s replaceKeys]
  | (k, isDel) :: rest =>
      let i := i + 1 in
      let deleteKeys := if isDel then deleteKeys ++ [k] else deleteKeys in
      let replaceKeys := if isDel then replaceKeys else replaceKeys ++ [k] in
      if target =? 0 then None
      else if Z.rem i target =? 0
      then option_map
             (fun tl => createDeleteStmt s deleteKeys :: createReplaceStmt s replaceKeys :: tl)
             (batchMap s target rest i [] [])
      else batchMap s target rest i deleteKeys replaceKeys
  end.

(** The error group of [flushDeltaMap]: one [RetryableTransaction] per
    statement.  The group runs them side by side; the model runs them one
    after the other, which is one of the schedules, and reports the
    first error.  The feedback that retunes the batch size from the
    elapsed time is not modelled. *)
Fixpoint execGroup (stmts : list statement) (w : World) : World * option error :=
  match stmts with
  | [] => (w, None)
  | st :: rest =>
      let '(w1, _, err) := RetryableTransaction false NewDBConfig [stmt st] w in
      let '(w2, err') := execGroup rest w1 in
      (w2, match err with Some e => Some e | None => err' end)
  end.

(** [flushDeltaMap] is the internal version of Flush() for the delta
    map, with the entries in the order [entries] of one iteration.
    [None] is a panic. *)
Definition flushDeltaMapIn (entries : list (string * bool)) (targetBatchSize : Z)
    (s : subscription) (underLock : bool) (lock : TableLock) (w : World)
  : option (World * subscription * option error) :=
  match batchMap s targetBatchSize entries 0 [] [] with
  | None => None
  | Some stmts =>
      let '(w1, err) :=
        if underLock
        then ExecUnderLock lock (extractStmt stmts) w
        else execGroup stmts w in
      match err with
      | Some e => Some (w1, s, Some e)
      | None => Some (w1, setDeltaMap ∅ s, None)
      end
  end.

Definition flushDeltaMap (targetBatchSize : Z) (s : subscription)
    (underLock : bool) (lock : TableLock) (w : World)
  : option (World * subscription * option error) :=
  flushDeltaMapIn (map_to_list (deltaMap s)) targetBatchSize s underLock lock w.

Definition flush (targetBatchSize : Z) (dbConfig : DBConfig) (s : subscription)
    (underLock : bool) (lock : TableLock) (w : World)
  : option (World * subscription * option error) :=
  if disableDeltaMap s
  then Some (flushDeltaQueue targetBatchSize dbConfig s underLock lock w)
  else flushDeltaMap targetBatchSize s underLock lock w.

(** *** The client

    [client.go] is not among the sources.  The fields below are the ones
    the subscriptions, the cutover, the runner and the tests touch.  The
    subscriptions are a Go map from table name to subscription; they are
    listed here in the order in which a flush visits them. *)
Record Client := {
  subscriptions : list (string * subscription);
  bufferedPos : Position;
  flushedPos : Position;
  targetBatchSize : Z;
  concurrency : Z;
  dbConfig : DBConfig;
}.

Definition setSubscriptions (subs : list (string * subscription)) (c : Client) : Client :=
  {| subscriptions := subs;
     bufferedPos := bufferedPos c; flushedPos := flushedPos c;
     targetBatchSize := targetBatchSize c; concurrency := concurrency c;
     dbConfig := dbConfig c |}.

Definition setFlushedPos (pos : Position) (c : Client) : Client :=
  {| subscriptions := subscriptions c;
     bufferedPos := bufferedPos c; flushedPos := pos;
     targetBatchSize := targetBatchSize c; concurrency := concurrency c;
     dbConfig := dbConfig c |}.

(** Modelled from the spec: [Client.GetDeltaLen] is missing from the
    sources; it is the number of buffered changes over all subscriptions,
    each counted by [getDeltaLen]. *)
Definition GetDeltaLen (c : Client) : Z :=
  List.fold_right (fun ns acc => getDeltaLen (snd ns) + acc) 0 (subscriptions c).

Definition positionEqb (p q : Position) : bool :=
  String.eqb (Name p) (Name q) && (Pos p =? Pos q).

(** Modelled from the spec: [Client.AllChangesFlushed] is missing from the
    sources.  This definition follows the words of the specification:
    "flushedPos == bufferedPos and all deltaStores empty". *)
Definition AllChangesFlushed_spec (c : Client) : bool :=
  positionEqb (flushedPos c) (bufferedPos c)
  && List.forallb (fun ns => getDeltaLen (snd ns) =? 0) (subscriptions c).

(** Modelled from the spec: [Client.AllChangesFlushed] is missing from the
    sources, but its test [TestAllChangesFlushed] is at hand and asserts
    that the client counts as flushed "when no pending changes, even with
    positions different".  This definition is the reading of the
    specification's sentence that the test allows: the positions are not
    part of the answer, only the pending changes are. *)
Definition AllChangesFlushed (c : Client) : bool :=
  GetDeltaLen c =? 0.

(** Modelled from the spec: [Client.SetKeyAboveWatermarkOptimization] is
    missing from the sources; it switches the optimization on or off in
    every subscription through [setKeyAboveWatermarkOptimization]. *)
Definition SetKeyAboveWatermarkOptimization (enabled : bool) (c : Client) : Client :=
  setSubscriptions
    (List.map (fun ns => (fst ns, setKeyAboveWatermarkOptimization enabled (snd ns)))
       (subscriptions c))
    c.

(** The subscriptions flushed one after the other, stopping at the first
    error; [None] is a panic in one of them. *)
Fixpoint flushSubscriptions (target : Z) (config : DBConfig)
    (subs : list (string * subscription)) (underLock : bool) (lock : TableLock)
    (w : World) : option (World * list (string * subscription) * option error) :=
  match subs with
  | [] => Some (w, [], None)
  | (name, s) :: rest =>
      match flush target config s underLock lock w with
      | None => None
      | Some (w1, s1, Some e) => Some (w1, (name, s1) :: rest, Some e)
      | Some (w1, s1, None) =>
          match flushSubscriptions target config rest underLock lock w1 with
          | None => None
          | Some (w2, rest', r) => Some (w2, (name, s1) :: rest', r)
          end
      end
  end.

(** Modelled from the spec: the client's flush is missing from the
    sources.  It flushes every subscription ([flush] above is in the
    sources) and, when all of them succeeded, moves the flushed position up
    to the position that was buffered when the flush began. *)
Definition clientFlush (c : Client) (underLock : bool) (lock : TableLock) (w : World)
  : option (World * Client * option error) :=
  let newFlushedPos := bufferedPos c in
  match flushSubscriptions (targetBatchSize c) (dbConfig c) (subscriptions c)
          underLock lock w with
  | None => None
  | Some (w1, subs, Some e) => Some (w1, setSubscriptions subs c, Some e)
  | Some (w1, subs, None) =>
      Some (w1, setFlushedPos newFlushedPos (setSubscriptions subs c), None)
  end.

(** Modelled from the spec: [Client.FlushUnderTableLock] is missing from
    the sources; "under that lock, [Flush()] the replication client
    (executes statements using the locked connection)". *)
Definition FlushUnderTableLock (c : Client) (lock : TableLock) (w : World)
  : option (World * Client * option error) :=
  clientFlush c true lock w.

End WithExternals.

(** *** Vocabulary for statements about runs *)

(** The subscription after the change was put into its delta store: at
    the end of the queue, or into the map under its hashed key. *)
Definition buffered {any : Type} (Sprintf_v : any -> string) (s : @subscription any)
    (k : list any) (deleted : bool) : @subscription any :=
  if disableDeltaMap s
  then setDeltaQueue
         (deltaQueue s ++ [{| key := Utils.HashKey Sprintf_v k; isDelete := deleted |}]) s
  else setDeltaMap (<[Utils.HashKey Sprintf_v k := deleted]> (deltaMap s)) s.

(** The change intents a run stands for. *)
Definition expandRun (run : bool * list string) : list queuedChange :=
  List.map (fun k => {| key := k; isDelete := fst run |}) (snd run).

(** Two runs that follow each other differ in kind, unless the first was
    cut because its buffer had grown beyond the target. *)
Fixpoint chained (target : Z) (runs : list (bool * list string)) : Prop :=
  match runs with
  | r1 :: ((r2 :: _) as rest) =>
      (fst r1 <> fst r2 \/ target < Z.of_nat (List.length (snd r1)))
      /\ chained target rest
  | _ => True
  end.

(** The change intent that [keyHasChanged] puts into the queue for a row
    event: the hashed key and whether the event is a DELETE. *)
Definition intentOf {any : Type} (Sprintf_v : any -> string) (e : list any * bool)
  : queuedChange :=
  {| key := Utils.HashKey Sprintf_v (fst e); isDelete := snd e |}.

(** The row events of the binary log handed to [keyHasChanged] one after
    the other, in the order of the log; [None] is a panic in one of the
    calls. *)
Fixpoint keysHaveChanged {any : Type} (Sprintf_v : any -> string) (s : @subscription any)
    (events : list (list any * bool)) : option (@subscription any) :=
  match events with
  | [] => Some s
  | (k, deleted) :: rest =>
      match keyHasChanged Sprintf_v s k deleted with
      | None => None
      | Some s1 => keysHaveChanged Sprintf_v s1 rest
      end
  end.

(** The events that the watermark optimization does not drop. *)
Definition belowWatermark {any : Type} (s : @subscription any) (e : list any * bool) : bool :=
  match keyIsAboveWatermark s (fst e) with
  | Some true => false
  | _ => true
  end.

(** The text of the statement for a run of keys: DELETE for a run of
    deletes, REPLACE otherwise, as the two [fmt.Sprintf] calls print it. *)
Definition runText {any : Type} (QuoteColumns pksToRowValueConstructor : list string -> string)
    (s : @subscription any) (run : bool * list string) : string :=
  if fst run
  then "DELETE FROM " +:+ QuotedName (newTable s)
       +:+ " WHERE (" +:+ QuoteColumns (KeyColumns (table s))
       +:+ ") IN (" +:+ pksToRowValueConstructor (snd run) +:+ ")"
  else "REPLACE INTO " +:+ QuotedName (newTable s)
       +:+ " (" +:+ IntersectNonGeneratedColumns (table s) (newTable s)
       +:+ ") SELECT " +:+ IntersectNonGeneratedColumns (table s) (newTable s)
       +:+ " FROM " +:+ QuotedName (table s)
       +:+ " FORCE INDEX (PRIMARY) WHERE (" +:+ QuoteColumns (KeyColumns (table s))
       +:+ ") IN (" +:+ pksToRowValueConstructor (snd run) +:+ ")".

End Repl.

(** ** [pkg/repl]: the buffered map *)
Module BufferedMap.
Import GoStrings Table Dbconn.

Section WithExternals.
(** [any] is Go's [any] and [Sprintf_v] is [fmt.Sprintf("%v", v)]. *)
Context {any : Type}.
Variable Sprintf_v : any -> string.

(** [logicalRow] represents the current state of a row in the buffer: it
    is deleted, or it has a row image that describes it.  A value of the
    image may be nil. *)
Record logicalRow := {
  isDeleted : bool;
  rowImage : list (option any);
}.

Record bufferedMap := {
  table : TableInfo;
  newTable : TableInfo;
  changes : gmap string logicalRow;
  enableKeyAboveWatermark : bool;
  keyAboveCopierCallback : option (any -> bool);
}.

Definition Length (s : bufferedMap) : Z := Z.of_nat (size (changes s)).

Definition Tables (s : bufferedMap) : list TableInfo := [table s; newTable s].

(** [keyAboveWatermarkEnabled] returns true if the KeyAboveWatermark
    optimization is enabled. *)
Definition keyAboveWatermarkEnabled (s : bufferedMap) : bool :=
  enableKeyAboveWatermark s
  && match keyAboveCopierCallback s with Some _ => true | None => false end.

Definition SetKeyAboveWatermarkOptimization (enabled : bool) (s : bufferedMap)
  : bufferedMap :=
  {| table := table s; newTable := newTable s; changes := changes s;
     enableKeyAboveWatermark := enabled;
     keyAboveCopierCallback := keyAboveCopierCallback s |}.

Definition setChanges (m : gmap string logicalRow) (s : bufferedMap) : bufferedMap :=
  {| table := table s; newTable := newTable s; changes := m;
     enableKeyAboveWatermark := enableKeyAboveWatermark s;
     keyAboveCopierCallback := keyAboveCopierCallback s |}.

(** [HasChanged] records one row event: the key, the row as it is after
    the event, and whether the event is a DELETE.  [key[0]] on an empty
    key is a run-time panic, rendered as [None]. *)
Definition HasChanged (s : bufferedMap) (key : list any) (row : list (option any))
    (deleted : bool) : option bufferedMap :=
  let above :=
    if keyAboveWatermarkEnabled s
    then match keyAboveCopierCallback s, key with
         | Some callback, k0 :: _ => Some (callback k0)
         | Some _, [] => None
         | None, _ => Some false
         end
    else Some false in
  match above with
  | None => None
  | Some true => Some s
  | Some false =>
      let hashedKey := Utils.HashKey Sprintf_v key in
      if deleted
      then Some (setChanges (<[hashedKey := {| isDeleted := true; rowImage := [] |}]> (changes s)) s)
      else (* Set the logical row to be the new row *)
           Some (setChanges (<[hashedKey := {| isDeleted := false; rowImage := row |}]> (changes s)) s)
  end.

(** A loop over [cols] that stops at the first column equal to [name]. *)
Fixpoint hasColumn (cols : list string) (name : string) : bool :=
  match cols with
  | [] => false
  | col :: rest => if String.eqb col name then true else hasColumn rest name
  end.

(** The outer loop of [getIntersectedColumns]; [i] is the index of the
    head of [source] in the source table's column list. *)
Fixpoint intersectedFrom (i : nat) (source dest : list string) : list nat :=
  match source with
  | [] => []
  | sourceCol :: rest =>
      (if hasColumn dest sourceCol then [i] else [])
      ++ intersectedFrom (S i) rest dest
  end.

(** [getIntersectedColumns] returns the column indices from the source
    table that correspond to columns that exist in both source and
    destination tables. *)
Definition getIntersectedColumns (s : bufferedMap) : list nat :=
  intersectedFrom 0 (NonGeneratedColumns (table s)) (NonGeneratedColumns (newTable s)).

(** [columnExistsInBothTables] checks if a column exists in both source
    and destination tables. *)
Definition columnExistsInBothTables (s : bufferedMap) (columnName : string) : bool :=
  let sourceExists := hasColumn (NonGeneratedColumns (table s)) columnName in
  let destExists := hasColumn (NonGeneratedColumns (newTable s)) columnName in
  sourceExists && destExists.

(** The loop of [createUpsertStmt] that builds the ON DUPLICATE KEY UPDATE
    clause: all columns of the new table that are no key columns and
    exist in both tables, as [`col` = new.`col`]. *)
Definition updateClauses (s : bufferedMap) : list string :=
  List.flat_map
    (fun col =>
       let isPrimaryKey := hasColumn (KeyColumns (newTable s)) col in
       if negb isPrimaryKey
       then if columnExistsInBothTables s col
            then ["`" +:+ col +:+ "` = new.`" +:+ col +:+ "`"]
            else []
       else [])
    (NonGeneratedColumns (newTable s)).

End WithExternals.

End BufferedMap.

(** ** [pkg/migration]: the cutover *)
Module Cutover.
Import GoStrings Table Dbconn Repl.

Section WithExternals.
Context {any : Type}.
Variable QuoteColumns : list string -> string.
Variable pksToRowValueConstructor : list string -> string.

Local Notation Client := (@Client any).

(** The replication feed is shared with the runner through a pointer; in
    the model the client is threaded through the calls beside the world. *)
Record CutOver := {
  table : TableInfo;
  newTable : TableInfo;
  oldTableName : string;
  dbConfig : DBConfig;
}.

Definition renameStatement (c : CutOver) : string :=
  let oldQuotedName := "`" +:+ SchemaName (table c) +:+ "`.`" +:+ oldTableName c +:+ "`" in
  "RENAME TABLE " +:+ QuotedName (table c) +:+ " TO " +:+ oldQuotedName
  +:+ ", " +:+ QuotedName (newTable c) +:+ " TO " +:+ QuotedName (table c).

Definition errNotFlushed : error :=
  ErrorString "not all changes flushed, final flush might be broken".

(** *** The algorithm and the feed

    [client.go] is not among the sources, and the reader of the binary
    log runs beside the cutover and hands changes to the client whenever
    they arrive.  What [c.feed.FlushUnderTableLock] returns and what
    [c.feed.AllChangesFlushed] answers after it is therefore not fixed by
    the sources at hand: the algorithm is given over any two such
    methods. *)
Section AnyFeed.
Variable flushUnderTableLock :
  Client -> TableLock -> World -> option (World * Client * option error).
Variable allChangesFlushed : Client -> bool.

(** What [algorithmRenameUnderLock] does once it holds the lock and before
    the deferred [tableLock.Close()] runs.  [None] is a panic. *)
Definition underTableLockWith (c : CutOver) (feed : Client) (tableLock : TableLock)
    (w : World) : option (World * Client * option error) :=
  match flushUnderTableLock feed tableLock w with
  | None => None
  | Some (w2, feed', Some e) => Some (w2, feed', Some e)
  | Some (w2, feed', None) =>
      if negb (allChangesFlushed feed')
      then Some (w2, feed', Some errNotFlushed)
      else
        let '(w3, r) := ExecUnderLock tableLock [renameStatement c] w2 in
        Some (w3, feed', r)
  end.

(** [algorithmRenameUnderLock] is the preferred cutover algorithm.  As of
    MySQL 8.0.13, you can rename tables locked with a LOCK TABLES
    statement. *)
Definition algorithmRenameUnderLockWith (c : CutOver) (feed : Client) (w : World)
  : option (World * Client * option error) :=
  match NewTableLock [table c; newTable c] (dbConfig c) w with
  | (w1, inr e) => Some (w1, feed, Some e)
  | (w1, inl tableLock) =>
      match underTableLockWith c feed tableLock w1 with
      | None => None
      | Some (w3, feed', r) => Some (fst (Close tableLock w3), feed', r)
      end
  end.

End AnyFeed.

(** The algorithm at the two methods modelled from the spec, where
    nothing arrives while an attempt is running. *)
Definition algorithmRenameUnderLock (c : CutOver) (feed : Client) (w : World)
  : option (World * Client * option error) :=
  algorithmRenameUnderLockWith
    (FlushUnderTableLock QuoteColumns pksToRowValueConstructor) AllChangesFlushed c feed w.

(** [Run]: up to [MaxRetries] attempts, each one flushing first outside the
    lock; [n] counts the attempts that are left and [err] is the error of
    the last one.  Cancellation through the context is not modelled. *)
Fixpoint runLoop (n : nat) (c : CutOver) (feed : Client) (err : option error) (w : World)
  : option (World * Client * option error) :=
  match n with
  | O => Some (w, feed, err)
  | S n' =>
      match clientFlush QuoteColumns pksToRowValueConstructor feed false
              {| tables := []; lockTxn := 0 |} w with
      | None => None
      | Some (w1, feed1, Some e) => Some (w1, feed1, Some e)
      | Some (w1, feed1, None) =>
          match algorithmRenameUnderLock c feed1 w1 with
          | None => None
          | Some (w2, feed2, Some e) => runLoop n' c feed2 (Some e) w2
          | Some (w2, feed2, None) => Some (w2, feed2, None)
          end
      end
  end.

Definition Run (c : CutOver) (feed : Client) (w : World)
  : option (World * Client * option error) :=
  runLoop (Z.to_nat (MaxRetries (dbConfig c))) c feed None w.

End WithExternals.

(** *** Vocabulary for statements about the cutover *)

Definition isRename (q : string) : bool := String.prefix "RENAME TABLE " q.


(** Requests sent under the lock: statements on the lock's connection. *)
Definition onLock (lock : TableLock) (qs : list string) : list request :=
  List.map (fun q => TxExec (lockTxn lock) q []) qs.

(** What the deferred [Close] adds to the history. *)
Definition closing (lock : TableLock) (seg : list request) : Prop :=
  seg = [TxExec (lockTxn lock) "UNLOCK TABLES" []]
  \/ seg = [TxExec (lockTxn lock) "UNLOCK TABLES" []; TxRollback (lockTxn lock)].

End Cutover.

(** ** [pkg/migration]: the runner *)
Module Migration.
Import GoStrings Table Dbconn Repl.

Inductive migrationState :=
| stateInitial
| stateCopyRows
| stateApplyChangeset (* first mass apply *)
| stateAnalyzeTable
| stateChecksum
| statePostChecksum (* second mass apply *)
| stateCutOver
| stateClose
| stateErrCleanup.

(** The value [iota] gives each state. *)
Definition stateValue (s : migrationState) : Z :=
  match s with
  | stateInitial => 0
  | stateCopyRows => 1
  | stateApplyChangeset => 2
  | stateAnalyzeTable => 3
  | stateChecksum => 4
  | statePostChecksum => 5
  | stateCutOver => 6
  | stateClose => 7
  | stateErrCleanup => 8
  end.

(** The fields of [Migration] that the runner reads.  [Strict] is the
    [--strict] flag of the command line; the runner at hand never reads
    it. *)
Record Migration := {
  Database : string;
  Table : string;
  Alter : string;
  Threads : Z;
  Checksum : bool;
  ReplicaDSN : string;
  Strict : bool;
}.

Definition setChecksum (b : bool) (m : Migration) : Migration :=
  {| Database := Database m; Table := Table m; Alter := Alter m;
     Threads := Threads m; Checksum := b; ReplicaDSN := ReplicaDSN m;
     Strict := Strict m |}.

(** *** The checkpoint table, as the server keeps it *)

Inductive value :=
| VNull
| VInt (z : Z)
| VText (s : string).

(** A stored row: the value of every column, by name. *)
Definition row := list (string * value).

Record tableData := {
  columns : list string;  (* the first one is the AUTO_INCREMENT key *)
  rows : list row;
  autoIncrement : Z;      (* the id the next row gets *)
}.

(** The columns of the CREATE TABLE statement of [createCheckpointTable]:
    [id int NOT NULL AUTO_INCREMENT PRIMARY KEY, low_watermark TEXT,
    binlog_name VARCHAR(255), binlog_pos INT, rows_copied BIGINT,
    rows_copied_logical BIGINT, alter_statement TEXT]. *)
Definition checkpointColumns : list string :=
  ["id"; "low_watermark"; "binlog_name"; "binlog_pos"; "rows_copied";
   "rows_copied_logical"; "alter_statement"].

(** The columns [dumpCheckpoint] names in its INSERT and
    [resumeFromCheckpoint] in its SELECT. *)
Definition checkpointFields : list string :=
  ["low_watermark"; "binlog_name"; "binlog_pos"; "rows_copied";
   "rows_copied_logical"; "alter_statement"].

(** The columns of the checkpoint table by the words of the specification:
    [id, copier_watermark, checksum_watermark, binlog_name, binlog_pos,
    statement]. *)
Definition checkpointColumns_spec : list string :=
  ["id"; "copier_watermark"; "checksum_watermark"; "binlog_name"; "binlog_pos";
   "statement"].

Fixpoint lookupColumn (col : string) (r : list (string * value)) : value :=
  match r with
  | [] => VNull
  | (c, v) :: rest => if String.eqb c col then v else lookupColumn col rest
  end.

Definition idOf (r : row) : Z :=
  match lookupColumn "id" r with
  | VInt z => z
  | _ => 0
  end.

(** [INSERT INTO t (cols) VALUES (args)]: the key comes from the counter,
    a column that is not named stays NULL. *)
Definition insertRow (cols : list string) (args : list value) (t : tableData)
  : tableData :=
  let given := List.combine cols args in
  let newRow :=
    List.map (fun c => (c, if String.eqb c "id" then VInt (autoIncrement t)
                           else lookupColumn c given))
      (columns t) in
  {| columns := columns t; rows := rows t ++ [newRow];
     autoIncrement := autoIncrement t + 1 |}.

(** The first row of [ORDER BY id DESC]. *)
Fixpoint newestRow (best : option row) (rs : list row) : option row :=
  match rs with
  | [] => best
  | r :: rest =>
      newestRow
        (match best with
         | None => Some r
         | Some b => if idOf b <? idOf r then Some r else Some b
         end) rest
  end.

(** [SELECT cols FROM t ORDER BY id DESC LIMIT 1]. *)
Definition selectNewest (cols : list string) (t : tableData) : option (list value) :=
  match newestRow None (rows t) with
  | None => None
  | Some r => Some (List.map (fun c => lookupColumn c r) cols)
  end.

(** What [resumeFromCheckpoint] scans out of the newest row. *)
Record checkpoint := {
  lowWatermark : string;
  binlogName : string;
  binlogPos : Z;
  rowsCopied : Z;
  rowsCopiedLogical : Z;
  alterStatement : string;
}.

(** [Scan(&lowWatermark, &binlogName, &binlogPos, &rowsCopied,
    &rowsCopiedLogical, &alterStatement)]: a NULL or a value of the wrong
    kind is an error. *)
Definition scanCheckpoint (vs : list value) : option checkpoint :=
  match vs with
  | [VText lw; VText bn; VInt bp; VInt rc; VInt rcl; VText al] =>
      Some {| lowWatermark := lw; binlogName := bn; binlogPos := bp;
              rowsCopied := rc; rowsCopiedLogical := rcl; alterStatement := al |}
  | _ => None
  end.

(** The tables of the server the runner cares about. *)
Record DB := {
  newTableExists : bool;
  chkpnt : option tableData;
}.

(** *** Calls that leave the runner

    Every call into the server or into a package that is not among the
    sources can fail for reasons of its own.  Each place such a call is
    made from has a name; [faults] says which of them fail, and the runner
    records the calls it makes. *)
Inductive callSite :=
| DropOldTable
| ReadNewTable | ReadCheckpoint | SetInfoNewTable_resume
| NewCopierFromCheckpoint | ReplClientRun_resume
| DropNewTable | CreateNewTable | SetInfoNewTable_create
| AlterNewTable | SetInfoNewTable_alter
| DropCheckpointTable | CreateCheckpointTable
| NewCopier | ReplClientRun_fresh
| NewReplica | NewReplicationThrottler | ThrottlerOpen
| ReplClientFlush_apply | AnalyzeTable
| NewChecker | CheckerRun | ReplClientFlush_postChecksum
| InsertCheckpoint.

Definition Faults := callSite -> option error.

(** [pkg/row] is not among the sources; of the copier the runner only needs
    what it was built from and what it reports to the checkpoint. *)
Record Copier := {
  FinalChecksum : bool;
  resumedFrom : option (string * Z * Z); (* low watermark, rows copied, rows copied logical *)
  lowWatermarkNow : option string;       (* [GetLowWatermark]; [None]: not ready *)
  CopyRowsCount : Z;
  CopyRowsLogicalCount : Z;
}.

Section WithExternals.
Context {any : Type}.
(** [repl.NewClient], [Client.SetPos] and the copier's
    [KeyAboveHighWatermark] are not among the sources; they are parameters
    of the model. *)
Variable NewClient : TableInfo -> TableInfo -> @Client any.
Variable SetPos : Position -> @Client any -> @Client any.
Variable KeyAboveHighWatermark : Copier -> any -> bool.

Local Notation Client := (@Client any).

Record Runner := {
  migration : Migration;
  table : TableInfo;
  newTable : option TableInfo;
  checkpointTable : option TableInfo;
  currentState : migrationState;
  replClient : option Client;
  copier : option Copier;
  usedResumeFromCheckpoint : bool;
  (* outside the process *)
  db : DB;
  calls : list callSite;
}.

Definition setMigration (m : Migration) (r : Runner) : Runner :=
  {| migration := m; table := table r; newTable := newTable r;
     checkpointTable := checkpointTable r; currentState := currentState r;
     replClient := replClient r; copier := copier r;
     usedResumeFromCheckpoint := usedResumeFromCheckpoint r;
     db := db r; calls := calls r |}.

Definition setNewTable (t : option TableInfo) (r : Runner) : Runner :=
  {| migration := migration r; table := table r; newTable := t;
     checkpointTable := checkpointTable r; currentState := currentState r;
     replClient := replClient r; copier := copier r;
     usedResumeFromCheckpoint := usedResumeFromCheckpoint r;
     db := db r; calls := calls r |}.

Definition setCheckpointTable (t : option TableInfo) (r : Runner) : Runner :=
  {| migration := migration r; table := table r; newTable := newTable r;
     checkpointTable := t; currentState := currentState r;
     replClient := replClient r; copier := copier r;
     usedResumeFromCheckpoint := usedResumeFromCheckpoint r;
     db := db r; calls := calls r |}.

Definition setState (s : migrationState) (r : Runner) : Runner :=
  {| migration := migration r; table := table r; newTable := newTable r;
     checkpointTable := checkpointTable r; currentState := s;
     replClient := replClient r; copier := copier r;
     usedResumeFromCheckpoint := usedResumeFromCheckpoint r;
     db := db r; calls := calls r |}.

Definition setReplClient (c : option Client) (r : Runner) : Runner :=
  {| migration := migration r; table := table r; newTable := newTable r;
     checkpointTable := checkpointTable r; currentState := currentState r;
     replClient := c; copier := copier r;
     usedResumeFromCheckpoint := usedResumeFromCheckpoint r;
     db := db r; calls := calls r |}.

Definition setCopier (c : option Copier) (r : Runner) : Runner :=
  {| migration := migration r; table := table r; newTable := newTable r;
     checkpointTable := checkpointTable r; currentState := currentState r;
     replClient := replClient r; copier := c;
     usedResumeFromCheckpoint := usedResumeFromCheckpoint r;
     db := db r; calls := calls r |}.

Definition setUsedResume (b : bool) (r : Runner) : Runner :=
  {| migration := migration r; table := table r; newTable := newTable r;
     checkpointTable := checkpointTable r; currentState := currentState r;
     replClient := replClient r; copier := copier r;
     usedResumeFromCheckpoint := b;
     db := db r; calls := calls r |}.

Definition setDB (d : DB) (r : Runner) : Runner :=
  {| migration := migration r; table := table r; newTable := newTable r;
     checkpointTable := checkpointTable r; currentState := currentState r;
     replClient := replClient r; copier := copier r;
     usedResumeFromCheckpoint := usedResumeFromCheckpoint r;
     db := d; calls := calls r |}.

(** One call that leaves the runner. *)
Definition attempt (faults : Faults) (site : callSite) (r : Runner)
  : Runner * option error :=
  ({| migration := migration r; table := table r; newTable := newTable r;
      checkpointTable := checkpointTable r; currentState := currentState r;
      replClient := replClient r; copier := copier r;
      usedResumeFromCheckpoint := usedResumeFromCheckpoint r;
      db := db r; calls := calls r ++ [site] |},
   faults site).

(** [table.NewTableInfo]; what [SetInfo] reads from the server is not
    modelled. *)
Definition NewTableInfo (schema name : string) : TableInfo :=
  {| SchemaName := schema; TableName := name;
     QuotedName := "`" +:+ schema +:+ "`.`" +:+ name +:+ "`";
     KeyColumns := []; NonGeneratedColumns := [] |}.

Definition newName (r : Runner) : string := "_" +:+ TableName (table r) +:+ "_new".
Definition cpName (r : Runner) : string := "_" +:+ TableName (table r) +:+ "_chkpnt".

Definition errCouldNotRead (name : string) : error :=
  ErrorString ("could not read from table '" +:+ name +:+ "'").

Definition errAlterMismatch : error :=
  ErrorString "alter statement in checkpoint table does not match the alter statement specified here".

(** [setCurrentState]. *)
Definition setCurrentState (s : migrationState) (r : Runner) : Runner :=
  let r := setState s r in
  if stateValue stateCopyRows <? stateValue s
  then match replClient r with
       | Some c => setReplClient (Some (SetKeyAboveWatermarkOptimization false c)) r
       | None => r
       end
  else r.

(** The newest row of the checkpoint table, as [resumeFromCheckpoint]
    reads it. *)
Definition readCheckpoint (d : DB) : option checkpoint :=
  match chkpnt d with
  | None => None
  | Some t =>
      match selectNewest checkpointFields t with
      | None => None
      | Some vs => scanCheckpoint vs
      end
  end.

(** [resumeFromCheckpoint]. *)
Definition resumeFromCheckpoint (faults : Faults) (r : Runner) : Runner * option error :=
  (* Make sure we can read from the new table. *)
  let '(r, err) := attempt faults ReadNewTable r in
  if match err with Some _ => true | None => negb (newTableExists (db r)) end
  then (r, Some (errCouldNotRead (newName r)))
  else
  let '(r, err) := attempt faults ReadCheckpoint r in
  match (match err with Some _ => None | None => readCheckpoint (db r) end) with
  | None => (r, Some (errCouldNotRead (cpName r)))
  | Some cp =>
  if negb (String.eqb (Alter (migration r)) (alterStatement cp))
  then (r, Some errAlterMismatch)
  else
  (* Populate the objects that would have been set in the other funcs. *)
  let r := setNewTable (Some (NewTableInfo (Database (migration r)) (newName r))) r in
  let '(r, err) := attempt faults SetInfoNewTable_resume r in
  match err with
  | Some e => (r, Some e)
  | None =>
  (* resume-from-checkpoint MUST have the checksum enabled *)
  let r := setMigration (setChecksum true (migration r)) r in
  let '(r, err) := attempt faults NewCopierFromCheckpoint r in
  match err with
  | Some e => (setCopier None r, Some e)
  | None =>
  let r := setCopier
             (Some {| FinalChecksum := Checksum (migration r);
                      resumedFrom := Some (lowWatermark cp, rowsCopied cp, rowsCopiedLogical cp);
                      lowWatermarkNow := Some (lowWatermark cp);
                      CopyRowsCount := rowsCopied cp;
                      CopyRowsLogicalCount := rowsCopiedLogical cp |}) r in
  let tbl := table r in
  let ntbl := match newTable r with Some t => t | None => tbl end in
  let r := setReplClient
             (Some (SetPos {| Name := binlogName cp; Pos := (binlogPos cp) mod 2 ^ 32 |}
                      (NewClient tbl ntbl))) r in
  let r := setCheckpointTable (Some (NewTableInfo (SchemaName (table r)) (cpName r))) r in
  (* Start the replClient now. *)
  let '(r, err) := attempt faults ReplClientRun_resume r in
  match err with
  | Some e => (r, Some e)
  | None => (setUsedResume true r, None)
  end
  end
  end
  end.

Definition errNameTooLong (name : string) : error :=
  ErrorString ("table name is too long: '" +:+ name
               +:+ "'. new table name will exceed 64 characters").

(** [createNewTable]. *)
Definition createNewTable (faults : Faults) (r : Runner) : Runner * option error :=
  if (64 <? String.length (newName r))%nat
  then (r, Some (errNameTooLong (TableName (table r))))
  else
  let '(r, err) := attempt faults DropNewTable r in
  match err with
  | Some e => (r, Some e)
  | None =>
  let r := setDB {| newTableExists := false; chkpnt := chkpnt (db r) |} r in
  let '(r, err) := attempt faults CreateNewTable r in
  match err with
  | Some e => (r, Some e)
  | None =>
  let r := setDB {| newTableExists := true; chkpnt := chkpnt (db r) |} r in
  let r := setNewTable (Some (NewTableInfo (Database (migration r)) (newName r))) r in
  attempt faults SetInfoNewTable_create r
  end
  end.

(** [alterNewTable] applies the ALTER to the new table. *)
Definition alterNewTable (faults : Faults) (r : Runner) : Runner * option error :=
  let '(r, err) := attempt faults AlterNewTable r in
  match err with
  | Some e => (r, Some e)
  | None => attempt faults SetInfoNewTable_alter r
  end.

(** [createCheckpointTable]. *)
Definition createCheckpointTable (faults : Faults) (r : Runner) : Runner * option error :=
  (* drop both if we've decided to call this func. *)
  let '(r, err) := attempt faults DropCheckpointTable r in
  match err with
  | Some e => (r, Some e)
  | None =>
  let r := setDB {| newTableExists := newTableExists (db r); chkpnt := None |} r in
  let '(r, err) := attempt faults CreateCheckpointTable r in
  match err with
  | Some e => (r, Some e)
  | None =>
  let r := setDB {| newTableExists := newTableExists (db r);
                    chkpnt := Some {| columns := checkpointColumns; rows := [];
                                      autoIncrement := 1 |} |} r in
  (setCheckpointTable (Some (NewTableInfo (SchemaName (table r)) (cpName r))) r, None)
  end
  end.

(** The branch of [setup] taken when resuming failed: "Resume failed, do
    the initial steps." *)
Definition newMigration (faults : Faults) (r : Runner) : Runner * option error :=
  let '(r, err) := createNewTable faults r in
  match err with
  | Some e => (r, Some e)
  | None =>
  let '(r, err) := alterNewTable faults r in
  match err with
  | Some e => (r, Some e)
  | None =>
  let '(r, err) := createCheckpointTable faults r in
  match err with
  | Some e => (r, Some e)
  | None =>
  let '(r, err) := attempt faults NewCopier r in
  match err with
  | Some e => (setCopier None r, Some e)
  | None =>
  let r := setCopier
             (Some {| FinalChecksum := Checksum (migration r);
                      resumedFrom := None; lowWatermarkNow := None;
                      CopyRowsCount := 0; CopyRowsLogicalCount := 0 |}) r in
  let tbl := table r in
  let ntbl := match newTable r with Some t => t | None => tbl end in
  let r := setReplClient (Some (NewClient tbl ntbl)) r in
  (* Start the binary log feed now *)
  attempt faults ReplClientRun_fresh r
  end
  end
  end
  end.

(** The client once the runner has set
    [r.replClient.KeyAboveCopierCallback = r.copier.KeyAboveHighWatermark]. *)
Definition withCopierCallback (cp : Copier) (c : Client) : Client :=
  setSubscriptions
    (List.map
       (fun ns : string * @subscription any =>
          (fst ns,
           {| Repl.table := Repl.table (snd ns); Repl.newTable := Repl.newTable (snd ns);
              disableDeltaMap := disableDeltaMap (snd ns);
              deltaMap := deltaMap (snd ns); deltaQueue := deltaQueue (snd ns);
              enableKeyAboveWatermark := enableKeyAboveWatermark (snd ns);
              keyAboveCopierCallback := Some (KeyAboveHighWatermark cp) |}))
       (subscriptions c))
    c.

(** [setup]: drop the old table, try to resume from a checkpoint, start
    afresh when that fails, attach the throttler and the callbacks.  With
    the copier or the client missing at the end the Go code dereferences
    nil; that panic is [None]. *)
Definition setup (faults : Faults) (r : Runner) : option (Runner * option error) :=
  (* Drop the old table. It shouldn't exist, but it could. *)
  let '(r, err) := attempt faults DropOldTable r in
  match err with
  | Some e => Some (r, Some e)
  | None =>
  (* First attempt to resume from a checkpoint.
     It's OK if it fails, it just means it's a fresh migration. *)
  let '(r, err) :=
    match resumeFromCheckpoint faults r with
    | (r, Some _) => newMigration faults r
    | (r, None) => (r, None)
    end in
  match err with
  | Some e => Some (r, Some e)
  | None =>
  (* If the replica DSN was specified, attach a replication throttler. *)
  let '(r, err) :=
    if String.eqb (ReplicaDSN (migration r)) "" then (r, None)
    else
      let '(r, err) := attempt faults NewReplica r in
      match err with
      | Some e => (r, Some e)
      | None =>
      let '(r, err) := attempt faults NewReplicationThrottler r in
      match err with
      | Some e => (r, Some e)
      | None => attempt faults ThrottlerOpen r
      end
      end in
  match err with
  | Some e => Some (r, Some e)
  | None =>
  match replClient r, copier r with
  | Some c, Some cp => Some (setReplClient (Some (withCopierCallback cp c)) r, None)
  | _, _ => None
  end
  end
  end
  end.

(** [checksum] creates the checksum which opens the read view. *)
Definition checksum (faults : Faults) (r : Runner) : Runner * option error :=
  let r := setCurrentState stateChecksum r in
  let '(r, err) := attempt faults NewChecker r in
  match err with
  | Some e => (r, Some e)
  | None =>
  let '(r, err) := attempt faults CheckerRun r in
  match err with
  | Some e => (r, Some e)
  | None =>
  let r := setCurrentState statePostChecksum r in
  attempt faults ReplClientFlush_postChecksum r
  end
  end.


(** Modelled from the spec: [Client.GetBinlogApplyPosition] is missing from
    the sources; "binlog position must be the flushed position, not
    buffered". *)
Definition GetBinlogApplyPosition (c : Client) : Position := flushedPos c.

Definition errNotReady : error := ErrorString "watermark not yet ready".
Definition errNoTable : error := MySQLError 1146.

(** [dumpCheckpoint]; a runner without client, copier or checkpoint table
    dereferences nil, which is [None]. *)
Definition dumpCheckpoint (faults : Faults) (r : Runner) : option (Runner * option error) :=
  match replClient r, copier r, checkpointTable r with
  | Some c, Some cp, Some _ =>
      let binlog := GetBinlogApplyPosition c in
      match lowWatermarkNow cp with
      | None => Some (r, Some errNotReady) (* it might not be ready, we can try again. *)
      | Some lw =>
          let copyRows := CopyRowsCount cp in
          let logicalCopyRows := CopyRowsLogicalCount cp in
          let '(r, err) := attempt faults InsertCheckpoint r in
          match err with
          | Some e => Some (r, Some e)
          | None =>
              match chkpnt (db r) with
              | None => Some (r, Some errNoTable)
              | Some t =>
                  let t' := insertRow checkpointFields
                              [VText lw; VText (Name binlog); VInt (Pos binlog);
                               VInt copyRows; VInt logicalCopyRows;
                               VText (Alter (migration r))] t in
                  Some (setDB {| newTableExists := newTableExists (db r);
                                 chkpnt := Some t' |} r, None)
              end
          end
      end
  | _, _, _ => None
  end.

End WithExternals.

(** *** Vocabulary for statements about checkpoints *)

(** The table an empty checkpoint table starts as. *)
Definition emptyCheckpointTable : tableData :=
  {| columns := checkpointColumns; rows := []; autoIncrement := 1 |}.

(** Every stored row has the columns of the table and an id below the
    counter. *)
Definition wellFormed (t : tableData) : Prop :=
  Forall (fun r : row => List.map fst r = columns t /\ idOf r < autoIncrement t) (rows t).

(** *** [NewRunner]

    [NewRunner] reads fields of [Migration] that the steps of the runner
    above do not need; [MigrationArgs] adds them to the fields above.
    Durations are [time.Duration] values, in nanoseconds. *)
Record MigrationArgs := {
  runnerFields : Migration;
  Host : string;
  TargetChunkTime : Z;
  ReplicaMaxLag : Z;
}.

(** [table.ChunkerDefaultTarget], 100 milliseconds. *)
Definition ChunkerDefaultTarget : Z := 100 * 1000000.

Definition setThreads (n : Z) (m : Migration) : Migration :=
  {| Database := Database m; Table := Table m; Alter := Alter m;
     Threads := n; Checksum := Checksum m; ReplicaDSN := ReplicaDSN m;
     Strict := Strict m |}.

(** [NewRunner]: the migration as the function leaves it (it is changed
    through the pointer, also when an error is returned) and the error.
    The runner it returns on success holds that migration and nothing
    else that the steps above read. *)
Definition NewRunner (m : MigrationArgs) : MigrationArgs * option error :=
  let targetChunkTime :=
    if TargetChunkTime m =? 0 then ChunkerDefaultTarget else TargetChunkTime m in
  let threads := if Threads (runnerFields m) =? 0 then 4 else Threads (runnerFields m) in
  let replicaMaxLag :=
    if ReplicaMaxLag m =? 0 then 120 * 1000000000 else ReplicaMaxLag m in
  let m1 := {| runnerFields := setThreads threads (runnerFields m); Host := Host m;
               TargetChunkTime := targetChunkTime; ReplicaMaxLag := replicaMaxLag |} in
  if String.eqb (Host m1) "" then (m1, Some (ErrorString "host is required"))
  else
    let m2 :=
      if negb (Contains (Host m1) ":")
      then {| runnerFields := runnerFields m1; Host := Host m1 +:+ ":" +:+ "3306";
              TargetChunkTime := TargetChunkTime m1; ReplicaMaxLag := ReplicaMaxLag m1 |}
      else m1 in
    if String.eqb (Database (runnerFields m2)) ""
    then (m2, Some (ErrorString "schema name is required"))
    else if String.eqb (Table (runnerFields m2)) ""
    then (m2, Some (ErrorString "table name is required"))
    else if String.eqb (Alter (runnerFields m2)) ""
    then (m2, Some (ErrorString "alter statement is required"))
    else (m2, None).

End Migration.

(** ** Concrete servers, tables and subscriptions for the examples *)
Module Fixtures.
Import GoStrings Table Dbconn Repl.

Definition okResponse : response :=
  {| resp_err := None; resp_rowsAffected := Some 1; resp_rows := [] |}.

(** A server on which everything succeeds without warnings. *)
Definition okServer : list request -> request -> response :=
  fun _ _ => okResponse.

(** A server that reports one warning with the given code after every
    statement. *)
Definition warnServer (c : string) : list request -> request -> response :=
  fun _ req =>
    match req with
    | TxQuery _ q =>
        if String.eqb q "SHOW WARNINGS"
        then {| resp_err := None; resp_rowsAffected := None;
                resp_rows := [Some {| level := "Warning"; code := c;
                                      message := "reported by the server" |}] |}
        else okResponse
    | _ => okResponse
    end.

(** A server on which the statements picked by [p] fail with [e]. *)
Definition failServer (p : string -> bool) (e : error)
  : list request -> request -> response :=
  fun _ req =>
    match req with
    | TxExec _ q _ =>
        if p q
        then {| resp_err := Some e; resp_rowsAffected := None; resp_rows := [] |}
        else okResponse
    | _ => okResponse
    end.

Definition world0 (srv : list request -> request -> response) : World :=
  {| server := srv; history := [] |}.

Definition t1 : TableInfo :=
  {| SchemaName := "test"; TableName := "t1"; QuotedName := "`test`.`t1`";
     KeyColumns := ["id"]; NonGeneratedColumns := ["id"; "name"] |}.

Definition t1new : TableInfo :=
  {| SchemaName := "test"; TableName := "_t1_new"; QuotedName := "`test`.`_t1_new`";
     KeyColumns := ["id"]; NonGeneratedColumns := ["id"; "name"] |}.

(** Stand-ins for the two statement helpers that are parameters of the
    model; the first prints columns the way [TestQuoteCols] expects. *)
Definition quoteColumns (cols : list string) : string :=
  Join (List.map (fun c => "`" +:+ c +:+ "`") cols) ", ".

Definition rowValues (keys : list string) : string :=
  Join (List.map (Utils.UnhashKey id) keys) ",".

Definition lock0 : TableLock := {| tables := [t1; t1new]; lockTxn := 0 |}.

(** A subscription in map mode and one in queue mode, keys being strings. *)
Definition mapSub (m : gmap string bool) : @subscription string :=
  {| table := t1; newTable := t1new; disableDeltaMap := false;
     deltaMap := m; deltaQueue := [];
     enableKeyAboveWatermark := false; keyAboveCopierCallback := None |}.

Definition queueSub (q : list queuedChange) : @subscription string :=
  {| table := t1; newTable := t1new; disableDeltaMap := true;
     deltaMap := ∅; deltaQueue := q;
     enableKeyAboveWatermark := false; keyAboveCopierCallback := None |}.

Definition del (k : string) : queuedChange := {| key := k; isDelete := true |}.
Definition ups (k : string) : queuedChange := {| key := k; isDelete := false |}.

(** *** The states of [TestAllChangesFlushed]

    The test builds a client by hand and changes it step by step.  Keys are
    the integers 1, 2 and 3 in the test; [%v] prints them as the strings
    used here. *)
Definition pos (n : Z) : Position := {| Name := "binlog.000001"; Pos := n |}.

Definition testClient (subs : list (string * @subscription string))
    (buffered flushed : Position) : @Client string :=
  {| subscriptions := subs; bufferedPos := buffered; flushedPos := flushed;
     targetBatchSize := 1000; concurrency := 2; dbConfig := NewDBConfig |}.

Definition zeroPos : Position := {| Name := ""; Pos := 0 |}.

(** [sub.keyHasChanged([]any{k}, false)] on a subscription built by the test. *)
Definition changed (s : @subscription string) (k : string) : @subscription string :=
  match keyHasChanged (fun v => v) s [k] false with
  | Some s' => s'
  | None => s
  end.

Definition testQueueSub : @subscription string :=
  {| table := t1; newTable := t1new; disableDeltaMap := true;
     deltaMap := ∅; deltaQueue := [];
     enableKeyAboveWatermark := false; keyAboveCopierCallback := None |}.

(** The client at each of the nine assertions of the test, with the value
    the test asserts for [AllChangesFlushed()]. *)
Definition TestAllChangesFlushed : list (@Client string * bool) :=
  [ (* 1: no subscriptions *)
    (testClient [] zeroPos zeroPos, true);
    (* 2: one empty subscription *)
    (testClient [("test.subscription_test", mapSub ∅)] zeroPos zeroPos, true);
    (* 3: a change is pending *)
    (testClient [("test.subscription_test", changed (mapSub ∅) "1")] zeroPos zeroPos, false);
    (* 4: buffered position ahead *)
    (testClient [("test.subscription_test", changed (mapSub ∅) "1")] (pos 100) (pos 50), false);
    (* 5: a second subscription with a change *)
    (testClient [("test.subscription_test", changed (mapSub ∅) "1");
                 ("test2", changed (mapSub ∅) "2")] (pos 100) (pos 50), false);
    (* 6: changes cleared, positions still different *)
    (testClient [("test.subscription_test", mapSub ∅); ("test2", mapSub ∅)]
       (pos 100) (pos 50), true);
    (* 7: positions aligned *)
    (testClient [("test.subscription_test", mapSub ∅); ("test2", mapSub ∅)]
       (pos 100) (pos 100), true);
    (* 8: an empty queue-based subscription *)
    (testClient [("test.subscription_test", mapSub ∅); ("test2", mapSub ∅);
                 ("test3", testQueueSub)] (pos 100) (pos 100), true);
    (* 9: an item in the queue *)
    (testClient [("test.subscription_test", mapSub ∅); ("test2", mapSub ∅);
                 ("test3", changed testQueueSub "3")] (pos 100) (pos 100), false) ].

(** A cutover of [t1] with one change still buffered in the feed. *)
Definition cut0 : Cutover.CutOver :=
  {| Cutover.table := t1; Cutover.newTable := t1new;
     Cutover.oldTableName := "_t1_old"; Cutover.dbConfig := NewDBConfig |}.

Definition feed0 : @Client string :=
  testClient [("test.t1", changed (mapSub ∅) "7")] (pos 100) (pos 50).

(** *** A runner with a checkpoint left by an earlier run *)

Definition newClient0 (t nt : TableInfo) : @Client string :=
  testClient
    [("test.t1",
      {| table := t; newTable := nt; disableDeltaMap := false;
         deltaMap := ∅; deltaQueue := [];
         enableKeyAboveWatermark := false; keyAboveCopierCallback := None |})]
    zeroPos zeroPos.

Definition setPos0 (p : Position) (c : @Client string) : @Client string :=
  {| subscriptions := subscriptions c; bufferedPos := p; flushedPos := p;
     targetBatchSize := targetBatchSize c; concurrency := concurrency c;
     dbConfig := dbConfig c |}.

Definition keyAbove0 : Migration.Copier -> string -> bool := fun _ _ => false.

Definition noFaults : Migration.Faults := fun _ => None.

Definition mig (alter : string) (checksum strict : bool) : Migration.Migration :=
  {| Migration.Database := "test"; Migration.Table := "t1"; Migration.Alter := alter;
     Migration.Threads := 4; Migration.Checksum := checksum;
     Migration.ReplicaDSN := ""; Migration.Strict := strict |}.

(** The checkpoint table after one checkpoint of a run with
    [--alter "ADD COLUMN c INT"]. *)
Definition storedCheckpoints : Migration.tableData :=
  Migration.insertRow Migration.checkpointFields
    [Migration.VText "{low watermark}"; Migration.VText "binlog.000001";
     Migration.VInt 4567; Migration.VInt 1000; Migration.VInt 1000;
     Migration.VText "ADD COLUMN c INT"]
    Migration.emptyCheckpointTable.

Definition storedCheckpoint : Migration.checkpoint :=
  {| Migration.lowWatermark := "{low watermark}";
     Migration.binlogName := "binlog.000001"; Migration.binlogPos := 4567;
     Migration.rowsCopied := 1000; Migration.rowsCopiedLogical := 1000;
     Migration.alterStatement := "ADD COLUMN c INT" |}.

(** A runner as [NewRunner] leaves it, on a server that holds the new
    table and the checkpoint above. *)
Definition runner0 (m : Migration.Migration) : @Migration.Runner string :=
  {| Migration.migration := m; Migration.table := t1;
     Migration.newTable := None; Migration.checkpointTable := None;
     Migration.currentState := Migration.stateInitial;
     Migration.replClient := None; Migration.copier := None;
     Migration.usedResumeFromCheckpoint := false;
     Migration.db := {| Migration.newTableExists := true;
                        Migration.chkpnt := Some storedCheckpoints |};
     Migration.calls := [] |}.

(** A runner in the middle of the copy. *)
Definition runnerCopying : @Migration.Runner string :=
  {| Migration.migration := mig "ADD COLUMN c INT" true false; Migration.table := t1;
     Migration.newTable := Some t1new;
     Migration.checkpointTable := Some (Migration.NewTableInfo "test" "_t1_chkpnt");
     Migration.currentState := Migration.stateCopyRows;
     Migration.replClient := Some (setPos0 (pos 8000) (newClient0 t1 t1new));
     Migration.copier :=
       Some {| Migration.FinalChecksum := true; Migration.resumedFrom := None;
               Migration.lowWatermarkNow := Some "{watermark at 2000}";
               Migration.CopyRowsCount := 2000; Migration.CopyRowsLogicalCount := 1990 |};
     Migration.usedResumeFromCheckpoint := false;
     Migration.db := {| Migration.newTableExists := true;
                        Migration.chkpnt := Some storedCheckpoints |};
     Migration.calls := [] |}.

Definition runnerDumped : @Migration.Runner string :=
  match Migration.dumpCheckpoint noFaults runnerCopying with
  | Some (r, _) => r
  | None => runnerCopying
  end.

(** A subscription with the optimization on: keys from "5000" on count as
    above the copier's high watermark here. *)
Definition watermarkSub : @subscription string :=
  {| table := t1; newTable := t1new; disableDeltaMap := false;
     deltaMap := ∅; deltaQueue := [];
     enableKeyAboveWatermark := true;
     keyAboveCopierCallback := Some (fun k => String.leb "5000" k) |}.

(** The client at assertion 6 of the test. *)
Definition testClient6 : @Client string :=
  testClient [("test.subscription_test", mapSub ∅); ("test2", mapSub ∅)] (pos 100) (pos 50).

(** The tables of the third case of [TestIntersectColumns]: the new table
    has dropped [b] and gained [d]. *)
Definition t2 : TableInfo :=
  {| SchemaName := "test"; TableName := "t2"; QuotedName := "`test`.`t2`";
     KeyColumns := ["a"]; NonGeneratedColumns := ["a"; "b"; "c"] |}.

Definition t2new : TableInfo :=
  {| SchemaName := "test"; TableName := "_t2_new"; QuotedName := "`test`.`_t2_new`";
     KeyColumns := ["a"]; NonGeneratedColumns := ["a"; "c"; "d"] |}.

(** A server that rejects one statement with a syntax error. *)
Definition errSyntax : error := MySQLError 1064.

Definition brokenWorld : World :=
  world0 (failServer (String.eqb "UPDATE broken") errSyntax).

(** A buffered map of [t2], and one with the optimization on, where keys
    from "5000" on count as above the copier's high watermark. *)
Definition bufSub : @BufferedMap.bufferedMap string :=
  {| BufferedMap.table := t2; BufferedMap.newTable := t2new;
     BufferedMap.changes := ∅;
     BufferedMap.enableKeyAboveWatermark := false;
     BufferedMap.keyAboveCopierCallback := None |}.

Definition watermarkBuf : @BufferedMap.bufferedMap string :=
  {| BufferedMap.table := t2; BufferedMap.newTable := t2new;
     BufferedMap.changes := ∅;
     BufferedMap.enableKeyAboveWatermark := true;
     BufferedMap.keyAboveCopierCallback := Some (fun k => String.leb "5000" k) |}.

(** A feed whose reader of the binary log hands the change of one more
    row, with key "8", to every subscription while the flush under the
    lock is running. *)
Definition arrivingFlush (c : @Client string) (lock : TableLock) (w : World)
  : option (World * @Client string * option error) :=
  match FlushUnderTableLock quoteColumns rowValues c lock w with
  | Some (w', c', None) =>
      Some (w',
            setSubscriptions
              (List.map (fun ns => (fst ns, changed (snd ns) "8")) (subscriptions c')) c',
            None)
  | other => other
  end.

End Fixtures.

(* ===================================================================== *)
(** * Part II: properties                                                 *)
(* ===================================================================== *)

Section GoStringsFacts.
Import GoStrings.

Lemma append_assoc_s (a b c : string) : (a +:+ b) +:+ c = a +:+ (b +:+ c).
Proof. induction a as [|x a IH]; cbn [append]; [reflexivity | f_equal; exact IH]. Qed.

Lemma append_nil_r (a : string) : a +:+ EmptyString = a.
Proof. induction a as [|x a IH]; cbn [append]; [reflexivity | f_equal; exact IH]. Qed.

(** The scan does not see a separator at the head of a separable value
    that is followed by the end of the input or by a separator. *)
Lemma separable_no_prefix (last : bool) (c : ascii) (v rest : string) :
  separable last (String c v) = true ->
  (last = true /\ rest = EmptyString) \/ (last = false /\ exists r, rest = "-#-" +:+ r) ->
  String.prefix "-#-" (String c (v +:+ rest)) = false.
Proof.
  cbn [separable]. intros H Hrest.
  apply andb_prop in H as [H _]. apply andb_prop in H as [Hp He].
  apply negb_true_iff in Hp.
  destruct v as [|c2 [|c3 v]].
  - cbn [String.append]. cbn [String.prefix] in *.
    destruct (ascii_dec "-" c); [|reflexivity].
    destruct Hrest as [[_ ->]|[_ [r ->]]]; reflexivity.
  - cbn [String.append]. cbn [String.prefix] in *.
    destruct (ascii_dec "-" c) as [<-|]; [|reflexivity].
    destruct (ascii_dec "#" c2) as [<-|]; [|reflexivity].
    destruct Hrest as [[-> ->]|[-> [r ->]]]; [reflexivity|].
    cbn in He. discriminate He.
  - cbn [String.append]. cbn [String.prefix] in *.
    destruct (ascii_dec "-" c); [|reflexivity].
    destruct (ascii_dec "#" c2); [|reflexivity].
    destruct (ascii_dec "-" c3); [|reflexivity].
    destruct v; discriminate Hp.
Qed.

Lemma separable_tail last c v : separable last (String c v) = true -> separable last v = true.
Proof. cbn [separable]. intros H. now apply andb_prop in H as [_ H]. Qed.

(** A separable piece is consumed whole by the scan. *)
Lemma Split_aux_piece (last : bool) (v cur rest : string) :
  separable last v = true ->
  (last = true /\ rest = EmptyString) \/ (last = false /\ exists r, rest = "-#-" +:+ r) ->
  Split_aux "-#-" O cur (v +:+ rest) = Split_aux "-#-" O (cur +:+ v) rest.
Proof.
  revert cur; induction v as [|c v IH]; intros cur Hv Hrest.
  - now rewrite append_nil_r.
  - change (String c v +:+ rest) with (String c (v +:+ rest)).
    cbn [Split_aux].
    rewrite (separable_no_prefix last c v rest Hv Hrest).
    rewrite IH by (eauto using separable_tail).
    f_equal. now rewrite append_assoc_s.
Qed.

Lemma Split_aux_sep (cur r : string) :
  Split_aux "-#-" O cur ("-#-" +:+ r) = cur :: Split_aux "-#-" O EmptyString r.
Proof.
  cbn [append Split_aux String.prefix String.length Nat.pred].
  destruct r; reflexivity.
Qed.

Lemma Split_Join_separable (vs : list string) :
  vs <> [] ->
  allSeparable vs = true ->
  Split (Join vs "-#-") "-#-" = vs.
Proof.
  unfold Split. cbv iota.
  induction vs as [|v vs IH]; intros Hne Hall; [congruence|].
  destruct vs as [|w vs].
  - cbn [Join allSeparable] in *. rewrite <- (append_nil_r v) at 1.
    rewrite (Split_aux_piece true) by auto. reflexivity.
  - change (Join (v :: w :: vs) "-#-") with (v +:+ "-#-" +:+ Join (w :: vs) "-#-").
    change (allSeparable (v :: w :: vs)) with (separable false v && allSeparable (w :: vs)) in Hall.
    apply andb_prop in Hall as [Hv Hrest].
    rewrite (Split_aux_piece false) by eauto 6.
    rewrite Split_aux_sep. cbn [append]. f_equal.
    apply IH; [congruence | assumption].
Qed.
End GoStringsFacts.

Section UtilsFacts.
Import GoStrings Utils.
Context {any : Type} (Sprintf_v : any -> string) (EscapeString : string -> string).

(** C9 (as amended): for a non-empty key whose formatted values do not
    hold the separator ["-#-"] and, except for the last one, do not end in
    ["-#"], [UnhashKey (HashKey key)] is the quoted literal of the key:
    ['v'] for one column and [('v1',...,'vN')] for a composite key. *)
Theorem C9_unhash_hash_roundtrip (key : list any) :
  key <> [] ->
  allSeparable (List.map Sprintf_v key) = true ->
  UnhashKey EscapeString (HashKey Sprintf_v key)
  = keyLiteral Sprintf_v EscapeString key.
Proof.
  intros Hne Hall. unfold UnhashKey, HashKey, PrimaryKeySeparator.
  rewrite Split_Join_separable.
  - unfold keyLiteral. destruct key as [|v [|w key]]; cbn [List.map]; try reflexivity.
    now rewrite List.map_map.
  - destruct key; [congruence | discriminate].
  - exact Hall.
Qed.
End UtilsFacts.

(** The repository's own test [TestHashAndUnhashKey]. *)
Example TestHashAndUnhashKey_composite :
  Utils.HashKey id ["1234"; "ACDC"; "12"] = "1234-#-ACDC-#-12"
  /\ Utils.UnhashKey id "1234-#-ACDC-#-12" = "('1234','ACDC','12')".
Proof. split; reflexivity. Qed.

Example TestHashAndUnhashKey_single :
  Utils.HashKey id ["1234"] = "1234" /\ Utils.UnhashKey id "1234" = "'1234'".
Proof. split; reflexivity. Qed.

Lemma C9_unhash_hash_roundtrip_witness :
  Utils.UnhashKey id (Utils.HashKey id ["1234"; "ACDC"; "12"])
  = Utils.keyLiteral id id ["1234"; "ACDC"; "12"].
Proof.
  apply (C9_unhash_hash_roundtrip id id ["1234"; "ACDC"; "12"]).
  - discriminate.
  - reflexivity.
Defined.

(** A value may hold the byte [#], and dashes, as long as the separator
    cannot be read into it. *)
Example unhash_hash_with_hash_byte :
  Utils.UnhashKey id (Utils.HashKey id ["a#b"; "-5"; "c-#"]) = "('a#b','-5','c-#')".
Proof. reflexivity. Qed.

(** A value that ends in ["-#"] before another value moves the cut. *)
Example unhash_hash_moved_cut :
  Utils.UnhashKey id (Utils.HashKey id ["a-#"; "b"]) = "('a','#-b')".
Proof. reflexivity. Qed.

(** C9 (as stated) fails: a single-column key whose value holds the
    separator comes back as a two-column row constructor. *)
Lemma C9_counterexample :
  Utils.UnhashKey id (Utils.HashKey id ["a-#-b"]) = "('a','b')"
  /\ Utils.keyLiteral id id ["a-#-b"] = "'a-#-b'"
  /\ Utils.UnhashKey id (Utils.HashKey id ["a-#-b"]) <> Utils.keyLiteral id id ["a-#-b"].
Proof. repeat split; try reflexivity. discriminate. Qed.

(** ** Facts about [pkg/dbconn] *)
Section DbconnFacts.
Import Dbconn.

Lemma call_history req w : history (fst (call req w)) = history w ++ [req].
Proof. reflexivity. Qed.

Lemma call_server req w : server (fst (call req w)) = server w.
Proof. reflexivity. Qed.

Lemma checkWarnings_None ig stmt rows :
  checkWarnings ig stmt rows = None <-> Forall (tolerated ig) rows.
Proof.
  induction rows as [|[wn|] rows IH]; cbn [checkWarnings].
  - split; auto.
  - destruct (String.eqb_spec (code wn) "1062") as [E1|N1];
      destruct ig; cbn [andb];
      try (destruct (String.eqb_spec (code wn) "3170") as [E2|N2]).
    all: rewrite ?IH; split;
      [ intros H; try discriminate; constructor; cbn; auto
      | intros H; inversion H as [|? ? Ht Hr]; subst; auto; cbn in Ht;
        destruct Ht as [?|[? ?]]; congruence ].
  - split; [discriminate | intros H; inversion H as [|? ? Ht]; destruct Ht].
Qed.

Lemma checkWarnings_Some ig stmt rows :
  ~ Forall (tolerated ig) rows -> exists e, checkWarnings ig stmt rows = Some e.
Proof.
  intros H. destruct (checkWarnings ig stmt rows) as [e|] eqn:E; [eauto|].
  apply checkWarnings_None in E. contradiction.
Qed.

(** The statement loop over [done ++ more] is the loop over [done]
    followed, if that went through, by the loop over [more]. *)
Lemma execStmts_app tx ig done more ra w :
  execStmts tx ig (done ++ more) ra w =
  match execStmts tx ig done ra w with
  | (w', ra', Done) => execStmts tx ig more ra' w'
  | other => other
  end.
Proof.
  revert ra w; induction done as [|q done IH]; intros ra w; [reflexivity|].
  cbn [List.app execStmts].
  destruct (String.eqb q ""); [apply IH|].
  destruct (call (TxExec tx q []) w) as [w1 res].
  destruct (resp_err res) as [e|]; [destruct (canRetryError e); reflexivity|].
  destruct (call (TxQuery tx "SHOW WARNINGS") w1) as [w2 wres].
  destruct (resp_err wres); [reflexivity|].
  destruct (checkWarnings ig q (resp_rows wres)); [reflexivity|].
  apply IH.
Qed.

(** C6 (as amended): in any attempt of [RetryableTransaction], once the
    transaction is open and the statements before [stmt] went through, a
    [SHOW WARNINGS] row after [stmt] that is neither 3170 nor, with
    [ignoreDupKeyWarnings] set, 1062 makes the function roll the
    transaction back and return an error at once; when every row is
    tolerated the loop goes on with the statements that follow. *)
Theorem C6_unsafe_warning_aborts
    (n : nat) (ig : bool) (config : DBConfig) (done : list string) (stmt : string)
    (rest : list string) (ra0 : Z) (err0 : option error) (w : World) :
  stmt <> "" ->
  forall tx w1 w2 w3 ra,
    beginTx w = (w1, inl tx) ->
    standardizeTrx tx config w1 = (w2, None) ->
    execStmts tx ig done ra0 w2 = (w3, ra, Done) ->
    let res := snd (call (TxExec tx stmt []) w3) in
    let w4 := fst (call (TxExec tx stmt []) w3) in
    let wres := snd (call (TxQuery tx "SHOW WARNINGS") w4) in
    let w5 := fst (call (TxQuery tx "SHOW WARNINGS") w4) in
    resp_err res = None ->
    resp_err wres = None ->
    (~ Forall (tolerated ig) (resp_rows wres) ->
       exists e,
         retryLoop (S n) ig config (done ++ stmt :: rest) ra0 err0 w
         = (rollback tx w5, ra, Some e)
         /\ history (rollback tx w5)
            = history w3 ++ [TxExec tx stmt []; TxQuery tx "SHOW WARNINGS"; TxRollback tx])
    /\ (Forall (tolerated ig) (resp_rows wres) ->
          exists ra',
            execStmts tx ig (done ++ stmt :: rest) ra0 w2
            = execStmts tx ig rest ra' w5).
Proof.
  intros Hne tx w1 w2 w3 ra Hb Hs Hd res w4 wres w5 Hres Hwres.
  assert (Hq : String.eqb stmt "" = false) by (now apply String.eqb_neq).
  assert (Hstep : execStmts tx ig (done ++ stmt :: rest) ra0 w2 =
            match checkWarnings ig stmt (resp_rows wres) with
            | Some err => (rollback tx w5, ra, Fatal err)
            | None =>
                execStmts tx ig rest
                  match resp_rowsAffected res with
                  | Some count => ra + count
                  | None => ra
                  end w5
            end).
  { rewrite execStmts_app, Hd. cbn [execStmts]. rewrite Hq.
    fold res w4. unfold call at 1. cbn [fst snd] in *.
    change (server w3 (history w3) (TxExec tx stmt [])) with res.
    rewrite Hres.
    change {| server := server w3; history := history w3 ++ [TxExec tx stmt []] |}
      with w4.
    unfold call at 1.
    change (server w4 (history w4) (TxQuery tx "SHOW WARNINGS")) with wres.
    rewrite Hwres. reflexivity. }
  split.
  - intros Hnot. destruct (checkWarnings_Some ig stmt _ Hnot) as [e He].
    exists e. split.
    + cbn [retryLoop]. rewrite Hb, Hs, Hstep, He. reflexivity.
    + unfold rollback, w5, w4. rewrite !call_history.
      rewrite <- !List.app_assoc. reflexivity.
  - intros Hall. apply checkWarnings_None with (stmt := stmt) in Hall.
    rewrite Hstep, Hall. eauto.
Qed.

End DbconnFacts.

(** Lists of requests are compared up to the bracketing of [++]. *)
Ltac reassoc :=
  repeat match goal with
    | H : context [(_ ++ _) ++ _] |- _ => rewrite <- List.app_assoc in H
    | |- context [(_ ++ _) ++ _] => rewrite <- List.app_assoc
    end.

Section DbconnTraceFacts.
Import Dbconn.

Lemma allOk_app srv h seg1 seg2 :
  allOk srv h (seg1 ++ seg2) <-> allOk srv h seg1 /\ allOk srv (h ++ seg1) seg2.
Proof.
  revert h; induction seg1 as [|r seg1 IH]; intros h; cbn [List.app allOk].
  - rewrite List.app_nil_r. tauto.
  - rewrite IH, <- List.app_assoc. cbn [List.app]. tauto.
Qed.

Lemma extends_refl w : extends w w.
Proof. split; [reflexivity | exists []; now rewrite List.app_nil_r]. Qed.

Lemma extends_trans w1 w2 w3 : extends w1 w2 -> extends w2 w3 -> extends w1 w3.
Proof.
  intros [S1 [a E1]] [S2 [b E2]]. split; [congruence|].
  exists (a ++ b). rewrite E2, E1. now rewrite List.app_assoc.
Qed.

Lemma call_extends req w : extends w (fst (call req w)).
Proof. split; [reflexivity | now exists [req]]. Qed.

Lemma rollback_extends tx w : extends w (rollback tx w).
Proof. apply call_extends. Qed.

Lemma ExecUnderLock_extends l stmts w : extends w (fst (ExecUnderLock l stmts w)).
Proof.
  revert w; induction stmts as [|q stmts IH]; intros w; cbn [ExecUnderLock];
    [apply extends_refl|].
  destruct (String.eqb q ""); [apply IH|].
  pose proof (call_extends (TxExec (lockTxn l) q []) w) as Hc.
  destruct (call (TxExec (lockTxn l) q []) w) as [w1 r]. cbn [fst] in Hc.
  destruct (resp_err r); [exact Hc|].
  eapply extends_trans; [exact Hc | apply IH].
Qed.

(** A successful [ExecUnderLock] has sent every non-empty statement, in
    order, on the lock's connection, and none of them failed. *)
Lemma ExecUnderLock_ok l stmts w w' :
  ExecUnderLock l stmts w = (w', None) ->
  ranUnderLock (server w) l stmts (history w) (history w').
Proof.
  unfold ranUnderLock.
  revert w; induction stmts as [|q stmts IH]; intros w; cbn [ExecUnderLock nonEmpty List.filter].
  - intros [= <-]. cbn. now rewrite List.app_nil_r.
  - destruct (String.eqb q "") eqn:Hq; cbn [negb]; [apply IH|].
    unfold call. destruct (resp_err (server w (history w) (TxExec (lockTxn l) q []))) eqn:He;
      [discriminate|].
    intros H. apply IH in H. cbn [server history] in H. destruct H as [H1 H2].
    cbn [List.map allOk]. split; [|split]; auto.
    rewrite H1, <- List.app_assoc. reflexivity.
Qed.


Lemma execAll_extends tx stmts w : extends w (fst (execAll tx stmts w)).
Proof.
  revert w; induction stmts as [|[q a] stmts IH]; intros w; cbn [execAll];
    [apply extends_refl|].
  pose proof (call_extends (TxExec tx q a) w) as Hc.
  destruct (call (TxExec tx q a) w) as [w1 r]. cbn [fst] in Hc.
  destruct (resp_err r); [exact Hc|].
  eapply extends_trans; [exact Hc | apply IH].
Qed.

Lemma execAll_ok tx stmts w w' :
  execAll tx stmts w = (w', None) ->
  let seg := List.map (fun qa => TxExec tx (fst qa) (snd qa)) stmts in
  history w' = history w ++ seg /\ allOk (server w) (history w) seg.
Proof.
  revert w; induction stmts as [|[q a] stmts IH]; intros w; cbn [execAll].
  - intros [= <-]. cbn. now rewrite List.app_nil_r.
  - unfold call. destruct (resp_err (server w (history w) (TxExec tx q a))) eqn:He;
      [discriminate|].
    intros H. apply IH in H. cbn [server history] in H. destruct H as [H1 H2].
    cbn [List.map allOk fst snd]. split; [|split]; auto.
    rewrite H1, <- List.app_assoc. reflexivity.
Qed.

Lemma execStmts_extends tx ig stmts ra w :
  extends w (fst (fst (execStmts tx ig stmts ra w))).
Proof.
  revert ra w; induction stmts as [|q stmts IH]; intros ra w; cbn [execStmts];
    [apply extends_refl|].
  destruct (String.eqb q ""); [apply IH|].
  pose proof (call_extends (TxExec tx q []) w) as Hc.
  destruct (call (TxExec tx q []) w) as [w1 r]. cbn [fst] in Hc.
  destruct (resp_err r) as [e|].
  { destruct (canRetryError e); cbn [fst];
      (eapply extends_trans; [exact Hc | apply rollback_extends]). }
  pose proof (call_extends (TxQuery tx "SHOW WARNINGS") w1) as Hc2.
  destruct (call (TxQuery tx "SHOW WARNINGS") w1) as [w2 wr]. cbn [fst] in Hc2.
  assert (H2 : extends w w2) by (eapply extends_trans; eassumption).
  destruct (resp_err wr);
    [cbn [fst]; eapply extends_trans; [exact H2 | apply rollback_extends]|].
  destruct (checkWarnings _ _ _);
    [cbn [fst]; eapply extends_trans; [exact H2 | apply rollback_extends]|].
  eapply extends_trans; [exact H2 | apply IH].
Qed.

(** A statement loop that went through has sent every non-empty statement
    in order, each followed by [SHOW WARNINGS], and no request failed. *)
Lemma execStmts_Done tx ig stmts ra w w' ra' :
  execStmts tx ig stmts ra w = (w', ra', Done) ->
  let seg := List.flat_map (fun q => [TxExec tx q []; TxQuery tx "SHOW WARNINGS"])
               (nonEmpty stmts) in
  history w' = history w ++ seg /\ allOk (server w) (history w) seg.
Proof.
  revert ra w; induction stmts as [|q stmts IH]; intros ra w;
    cbn [execStmts nonEmpty List.filter].
  - intros [= <- _]. cbn. now rewrite List.app_nil_r.
  - destruct (String.eqb q "") eqn:Hq; cbn [negb]; [apply IH|].
    unfold call.
    destruct (resp_err (server w (history w) (TxExec tx q []))) as [e|] eqn:He;
      [destruct (canRetryError e); discriminate|].
    cbn [server history].
    destruct (resp_err (server w (history w ++ [TxExec tx q []]) (TxQuery tx "SHOW WARNINGS")))
      eqn:Hw; [discriminate|].
    destruct (checkWarnings _ _ _); [discriminate|].
    intros H. apply IH in H. cbn [server history] in H. destruct H as [H1 H2].
    cbn [List.flat_map List.app allOk].
    rewrite <- !List.app_assoc in H1. rewrite <- !List.app_assoc in H2.
    cbn [List.app] in H1, H2. unfold nonEmpty in H1, H2.
    split; [exact H1 | repeat split; auto].
    now rewrite <- List.app_assoc.
Qed.

Lemma retryLoop_extends n ig config stmts ra err w :
  extends w (fst (fst (retryLoop n ig config stmts ra err w))).
Proof.
  revert ra err w; induction n as [|n IH]; intros ra err w; cbn [retryLoop];
    [apply extends_refl|].
  unfold beginTx.
  pose proof (call_extends BeginTx w) as Hb.
  destruct (call BeginTx w) as [w1 r]. cbn [fst] in Hb.
  destruct (resp_err r); [eapply extends_trans; [exact Hb | apply IH]|].
  unfold standardizeTrx.
  match goal with |- context [execAll ?t ?s ?x] =>
    pose proof (execAll_extends t s x) as Hs; destruct (execAll t s x) as [w2 [e|]] end;
    cbn [fst] in Hs.
  { eapply extends_trans; [|apply IH].
    eapply extends_trans; [exact Hb|]. eapply extends_trans; [exact Hs|].
    apply rollback_extends. }
  assert (H2 : extends w w2) by (eapply extends_trans; eassumption).
  match goal with |- context [execStmts ?t ?i ?s ?r ?x] =>
    pose proof (execStmts_extends t i s r x) as Hx;
    destruct (execStmts t i s r x) as [[w3 rows] [|e|e]] end; cbn [fst] in Hx.
  - match goal with |- context [call ?q ?x] =>
      pose proof (call_extends q x) as Hc; destruct (call q x) as [w4 r4] end.
    cbn [fst] in Hc.
    assert (H4 : extends w w4) by (repeat (eapply extends_trans; [eassumption|]); apply extends_refl).
    destruct (resp_err r4); [|exact H4].
    eapply extends_trans; [|apply IH].
    eapply extends_trans; [exact H4 | apply rollback_extends].
  - eapply extends_trans; [|apply IH]. eapply extends_trans; eassumption.
  - cbn [fst]. eapply extends_trans; eassumption.
Qed.

(** A [retryLoop] that returns no error either made no attempt at all or
    ended with a committed attempt in which every statement ran. *)
Lemma retryLoop_ok n ig config stmts ra err w w' ra' :
  retryLoop n ig config stmts ra err w = (w', ra', None) ->
  (n = O /\ err = None /\ w' = w)
  \/ ranInTransaction (server w) config stmts (history w) (history w').
Proof.
  revert ra err w; induction n as [|n IH]; intros ra err w; cbn [retryLoop].
  - intros [= <- _ ->]. now left.
  - intros H. right.
    assert (Hrec : forall ra1 e w1,
               extends w w1 ->
               retryLoop n ig config stmts ra1 (Some e) w1 = (w', ra', None) ->
               ranInTransaction (server w) config stmts (history w) (history w')).
    { intros ra1 e w1 [Es [pre Eh]] Hr. apply IH in Hr.
      destruct Hr as [(_ & Hn & _)|(pre' & E1 & E2)]; [discriminate|].
      exists (pre ++ pre'). cbn zeta in *.
      rewrite Es, Eh in *. reassoc. auto. }
    unfold beginTx in H.
    pose proof (call_extends BeginTx w) as Hb.
    destruct (call BeginTx w) as [w1 r] eqn:Hcall. cbn [fst] in Hb.
    destruct (resp_err r) eqn:Hr; [eapply Hrec; eassumption|].
    unfold standardizeTrx in H.
    match type of H with context [execAll ?t ?s ?x] =>
      pose proof (execAll_extends t s x) as Hs;
      pose proof (execAll_ok t s x) as Ha;
      destruct (execAll t s x) as [w2 [e|]] eqn:Hexec end; cbn [fst] in Hs.
    { eapply Hrec; [|exact H].
      eapply extends_trans; [exact Hb|]. eapply extends_trans; [exact Hs|].
      apply rollback_extends. }
    specialize (Ha _ eq_refl). cbn zeta in Ha. destruct Ha as [Ha1 Ha2].
    assert (H2 : extends w w2) by (eapply extends_trans; eassumption).
    match type of H with context [execStmts ?t ?i ?s ?r ?x] =>
      pose proof (execStmts_extends t i s r x) as Hx;
      pose proof (execStmts_Done t i s r x) as Hd;
      destruct (execStmts t i s r x) as [[w3 rows] [|e|e]] eqn:Hbody end; cbn [fst] in Hx.
    + specialize (Hd _ _ eq_refl). cbn zeta in Hd. destruct Hd as [Hd1 Hd2].
      assert (H3 : extends w w3) by (eapply extends_trans; eassumption).
      pose proof (call_extends (TxCommit (List.length (history w))) w3) as Hc.
      destruct (call (TxCommit (List.length (history w))) w3) as [w4 r4] eqn:Hcommit.
      cbn [fst] in Hc.
      destruct (resp_err r4) eqn:Hr4.
      { eapply Hrec; [|exact H].
        eapply extends_trans; [exact H3|]. eapply extends_trans; [exact Hc|].
        apply rollback_extends. }
      injection H as <- <-.
      injection Hcall as <- <-. injection Hcommit as <- <-.
      exists []. cbn zeta. rewrite List.app_nil_r.
      destruct Hs as [Hs _]. destruct Hx as [Hx _]. cbn [server history] in *.
      unfold committedAttempt. split.
      * rewrite Hd1, Ha1. reassoc. reflexivity.
      * cbn [allOk]. split; [exact Hr|].
        rewrite !allOk_app. rewrite Hs in Hd2. rewrite Ha1 in Hd2.
        rewrite Hx, Hs, Hd1, Ha1 in Hr4. reassoc.
        split; [exact Ha2|]. split; [exact Hd2|]. split; [exact Hr4 | exact I].
    + eapply Hrec; [|exact H]. eapply extends_trans; eassumption.
    + discriminate.
Qed.

(** With at least one attempt allowed, a [RetryableTransaction] that
    returns no error ended with a committed attempt in which every
    statement ran. *)
Lemma RetryableTransaction_ok ig config stmts w w' ra' :
  0 < MaxRetries config ->
  RetryableTransaction ig config stmts w = (w', ra', None) ->
  ranInTransaction (server w) config stmts (history w) (history w').
Proof.
  unfold RetryableTransaction. intros Hpos H.
  apply retryLoop_ok in H. destruct H as [(Hn & _)|H]; [lia | exact H].
Qed.

Lemma RetryableTransaction_extends ig config stmts w :
  extends w (fst (fst (RetryableTransaction ig config stmts w))).
Proof. apply retryLoop_extends. Qed.

End DbconnTraceFacts.

(** ** Facts about [pkg/repl]: the delta queue *)
Section QueueFacts.
Import Dbconn Repl.

Lemma queuedChange_eta (c : queuedChange) :
  {| key := key c; isDelete := isDelete c |} = c.
Proof. now destruct c. Qed.

(** The first run that the merging loop emits has the kind it was
    entered with, and holds at least the keys buffered so far. *)
Lemma mergeQueue_head target prev buffer queue :
  exists b rest,
    mergeQueue target prev buffer queue = (prev, b) :: rest
    /\ (List.length buffer <= List.length b)%nat.
Proof.
  revert prev buffer; induction queue as [|c queue IH]; intros prev buffer;
    cbn [mergeQueue].
  - eauto.
  - destruct (negb (Bool.eqb (isDelete c) prev) || _) eqn:Hc; [eauto|].
    apply orb_false_elim in Hc as [Hk _].
    apply negb_false_iff, Bool.eqb_prop in Hk. rewrite Hk.
    destruct (IH prev (buffer ++ [key c])) as (b & rest & E & L).
    exists b, rest. split; [exact E|].
    rewrite List.length_app in L. cbn in L. lia.
Qed.

(** Nothing is lost, added or reordered by the merge: spelling out the
    runs gives back the buffered keys followed by the queue. *)
Lemma mergeQueue_expand target prev buffer queue :
  List.flat_map expandRun (mergeQueue target prev buffer queue)
  = expandRun (prev, buffer) ++ queue.
Proof.
  revert prev buffer; induction queue as [|c queue IH]; intros prev buffer;
    cbn [mergeQueue].
  - cbn [List.flat_map]. reflexivity.
  - destruct (negb (Bool.eqb (isDelete c) prev) || _) eqn:Hc.
    + cbn [List.flat_map]. rewrite IH. unfold expandRun at 2. cbn [List.map fst snd List.app].
      now rewrite queuedChange_eta.
    + apply orb_false_elim in Hc as [Hk _].
      apply negb_false_iff, Bool.eqb_prop in Hk.
      rewrite IH. unfold expandRun. cbn [fst snd].
      rewrite List.map_app, <- List.app_assoc. cbn [List.map List.app].
      now rewrite queuedChange_eta, Hk.
Qed.

Lemma mergeQueue_chained target prev buffer queue :
  chained target (mergeQueue target prev buffer queue).
Proof.
  revert prev buffer; induction queue as [|c queue IH]; intros prev buffer;
    cbn [mergeQueue].
  - exact I.
  - destruct (negb (Bool.eqb (isDelete c) prev) || _) eqn:Hc; [|apply IH].
    destruct (mergeQueue_head target (isDelete c) [key c] queue) as (b & rest & E & _).
    specialize (IH (isDelete c) [key c]). rewrite E in *.
    cbn [chained fst snd]. split; [|exact IH].
    apply orb_true_iff in Hc as [Hk|Hl].
    + left. apply negb_true_iff, Bool.eqb_false_iff in Hk. congruence.
    + right. lia.
Qed.

Lemma mergeQueue_sizes target prev buffer queue :
  0 <= target ->
  (0 < List.length buffer)%nat ->
  Z.of_nat (List.length buffer) <= target + 1 ->
  Forall (fun r => 0 < Z.of_nat (List.length (snd r)) <= target + 1)
    (mergeQueue target prev buffer queue).
Proof.
  intros Ht. revert prev buffer; induction queue as [|c queue IH];
    intros prev buffer Hpos Hle; cbn [mergeQueue].
  - constructor; [cbn; lia | constructor].
  - destruct (negb (Bool.eqb (isDelete c) prev) || _) eqn:Hc.
    + constructor; [cbn; lia|]. apply IH; cbn; lia.
    + apply orb_false_elim in Hc as [_ Hl].
      apply IH; rewrite List.length_app; cbn; lia.
Qed.

(** The runs of a queue, entered as [flushDeltaQueue] enters the loop. *)
Lemma queueRuns_expand target queue :
  List.flat_map expandRun (queueRuns target queue) = queue.
Proof. destruct queue as [|c queue]; [reflexivity|]. apply mergeQueue_expand. Qed.

Lemma queueRuns_chained target queue : chained target (queueRuns target queue).
Proof. destruct queue as [|c queue]; [exact I|]. apply mergeQueue_chained. Qed.

Lemma queueRuns_sizes target queue :
  0 <= target ->
  Forall (fun r => 0 < Z.of_nat (List.length (snd r)) <= target + 1)
    (queueRuns target queue).
Proof.
  intros Ht. destruct queue as [|c queue]; [constructor|].
  unfold queueRuns. cbn [mergeQueue].
  rewrite Bool.eqb_reflx. cbn [negb orb].
  destruct (_ >? target) eqn:Hl;
    [rewrite Z.gtb_ltb, Z.ltb_lt in Hl; cbn [List.length] in Hl; lia|].
  apply mergeQueue_sizes; cbn; lia.
Qed.

End QueueFacts.

(** ** Facts about [pkg/repl]: flushes *)
Section FlushFacts.
Import Dbconn Repl.
Context {any : Type} (Sprintf_v : any -> string).
Context (QuoteColumns : list string -> string).
Context (pksToRowValueConstructor : list string -> string).

Local Notation subscription := (@subscription any).
Local Notation flushDeltaQueue := (@flushDeltaQueue any QuoteColumns pksToRowValueConstructor).
Local Notation flushDeltaMapIn := (@flushDeltaMapIn any QuoteColumns pksToRowValueConstructor).
Local Notation batchMap := (@batchMap any QuoteColumns pksToRowValueConstructor).
Local Notation stmtOfRun := (@stmtOfRun any QuoteColumns pksToRowValueConstructor).
Local Notation keyHasChanged := (@keyHasChanged any Sprintf_v).

Lemma execGroup_extends stmts w : extends w (fst (execGroup stmts w)).
Proof.
  revert w; induction stmts as [|st stmts IH]; intros w; cbn [execGroup];
    [apply extends_refl|].
  pose proof (RetryableTransaction_extends false NewDBConfig [stmt st] w) as H1.
  destruct (RetryableTransaction false NewDBConfig [stmt st] w) as [[w1 ra] err].
  cbn [fst] in H1. specialize (IH w1).
  destruct (execGroup stmts w1) as [w2 err']. cbn [fst] in *.
  eapply extends_trans; eassumption.
Qed.

Lemma ranEach_server srv srv' stmts h h' :
  srv = srv' -> ranEach srv stmts h h' -> ranEach srv' stmts h h'.
Proof. now intros ->. Qed.

(** When the group reports no error, every statement was committed in a
    transaction of its own. *)
Lemma execGroup_ok stmts w w' :
  execGroup stmts w = (w', None) ->
  ranEach (server w) (extractStmt stmts) (history w) (history w').
Proof.
  revert w; induction stmts as [|st stmts IH]; intros w; cbn [execGroup extractStmt List.map ranEach].
  - now intros [= <-].
  - pose proof (RetryableTransaction_extends false NewDBConfig [stmt st] w) as Hx.
    pose proof (RetryableTransaction_ok false NewDBConfig [stmt st] w) as Hok.
    destruct (RetryableTransaction false NewDBConfig [stmt st] w) as [[w1 ra] err].
    cbn [fst] in Hx. specialize (IH w1).
    destruct (execGroup stmts w1) as [w2 err'].
    destruct err as [e|]; [discriminate|].
    intros [= <- ->]. exists (history w1). split.
    + apply (Hok w1 ra); [reflexivity | reflexivity].
    + destruct Hx as [Hs _]. rewrite <- Hs. now apply IH.
Qed.

(** C10: a flush that returns an error leaves the delta store as it was;
    the store is emptied only when the flush returns no error, and then
    (with at least one attempt allowed by the client's configuration)
    every statement built from the store was executed without error:
    under the table lock on the lock's connection, otherwise in a
    committed transaction.  This holds for the queue and, whatever the
    order in which the map is iterated, for the map. *)
Theorem C10_flush_atomic
    (target : Z) (dbConfig : DBConfig) (s : subscription) (underLock : bool)
    (lock : TableLock) (w : World) :
  0 < MaxRetries dbConfig ->
  (forall w' s' r,
      flushDeltaQueue target dbConfig s underLock lock w = (w', s', r) ->
      (r <> None -> s' = s)
      /\ (r = None ->
          s' = setDeltaQueue [] s
          /\ (deltaQueue s = [] \/
              let stmts := extractStmt (List.map (stmtOfRun s) (queueRuns target (deltaQueue s))) in
              if underLock
              then ranUnderLock (server w) lock stmts (history w) (history w')
              else ranInTransaction (server w) dbConfig stmts (history w) (history w'))))
  /\ (forall entries w' s' r,
      flushDeltaMapIn entries target s underLock lock w = Some (w', s', r) ->
      (r <> None -> s' = s)
      /\ (r = None ->
          s' = setDeltaMap ∅ s
          /\ exists stmts,
              batchMap s target entries 0 [] [] = Some stmts
              /\ if underLock
                 then ranUnderLock (server w) lock (extractStmt stmts) (history w) (history w')
                 else ranEach (server w) (extractStmt stmts) (history w) (history w'))).
Proof.
  intros Hpos. split.
  - intros w' s' r. unfold Repl.flushDeltaQueue.
    destruct (deltaQueue s) as [|c q] eqn:Hq.
    + intros [= <- <- <-]. split; [congruence|]. intros _. split; [|now left].
      destruct s; cbn in *; now subst.
    + set (stmts := extractStmt _).
      destruct underLock.
      * pose proof (ExecUnderLock_ok lock stmts w) as Hok.
        destruct (ExecUnderLock lock stmts w) as [w1 [e|]].
        -- intros [= <- <- <-]. split; [reflexivity | discriminate].
        -- intros [= <- <- <-]. split; [congruence|]. intros _. split; [reflexivity|].
           right. now apply Hok.
      * pose proof (RetryableTransaction_ok true dbConfig stmts w) as Hok.
        destruct (RetryableTransaction true dbConfig stmts w) as [[w1 ra] [e|]].
        -- intros [= <- <- <-]. split; [reflexivity | discriminate].
        -- intros [= <- <- <-]. split; [congruence|]. intros _. split; [reflexivity|].
           right. now apply (Hok w1 ra).
  - intros entries w' s' r. unfold Repl.flushDeltaMapIn.
    destruct (batchMap s target entries 0 [] []) as [stmts|]; [|discriminate].
    destruct underLock.
    + pose proof (ExecUnderLock_ok lock (extractStmt stmts) w) as Hok.
      destruct (ExecUnderLock lock (extractStmt stmts) w) as [w1 [e|]].
      * intros [= <- <- <-]. split; [reflexivity | discriminate].
      * intros [= <- <- <-]. split; [congruence|]. intros _. split; [reflexivity|].
        exists stmts. split; [reflexivity | now apply Hok].
    + pose proof (execGroup_ok stmts w) as Hok.
      destruct (execGroup stmts w) as [w1 [e|]].
      * intros [= <- <- <-]. split; [reflexivity | discriminate].
      * intros [= <- <- <-]. split; [congruence|]. intros _. split; [reflexivity|].
        exists stmts. split; [reflexivity | now apply Hok].
Qed.

End FlushFacts.

(** ** The theorems at concrete inputs *)
Section Examples.
Import Dbconn Repl Fixtures.

(** The comment above [flushDeltaQueue]: REPLACE<1>, REPLACE<2>, DELETE<3>,
    REPLACE<4> is merged to REPLACE<1,2>, DELETE<3>, REPLACE<4>. *)
Example queueRuns_comment :
  queueRuns 1000 [ups "1"; ups "2"; del "3"; ups "4"]
  = [(false, ["1"; "2"]); (true, ["3"]); (false, ["4"])].
Proof. reflexivity. Qed.

(** A run is cut once its buffer holds more keys than the target. *)
Example queueRuns_cut :
  queueRuns 2 [ups "1"; ups "2"; ups "3"; ups "4"; ups "5"]
  = [(false, ["1"; "2"; "3"]); (false, ["4"; "5"])].
Proof. reflexivity. Qed.

Lemma C6_unsafe_warning_aborts_witness :
  exists e w',
    RetryableTransaction false NewDBConfig ["DELETE FROM `test`.`_t1_new` WHERE (`id`) IN ('7')"]
      (world0 (warnServer "1062"))
    = (w', 0, Some e).
Proof.
  destruct (C6_unsafe_warning_aborts 4 false NewDBConfig []
              "DELETE FROM `test`.`_t1_new` WHERE (`id`) IN ('7')" [] 0 None
              (world0 (warnServer "1062")) ltac:(discriminate)
              0 _ _ _ 0 eq_refl eq_refl eq_refl eq_refl eq_refl) as [H _].
  destruct H as [e [He _]].
  - intros HF. inversion HF as [|? ? Ht _]. destruct Ht as [Ht|[_ Ht]]; discriminate Ht.
  - exists e. eexists. exact He.
Defined.

(** C6 (as stated) fails for the delta map: its flush runs its
    transactions with [ignoreDupKeyWarnings] off, so a 1062 warning rolls
    the transaction back and fails the flush. *)
Lemma C6_counterexample :
  exists w',
    flushDeltaMap quoteColumns rowValues 1000 (mapSub (<["7" := false]> ∅)) false lock0
      (world0 (warnServer "1062"))
    = Some (w', mapSub (<["7" := false]> ∅),
            Some (unsafeWarning "reported by the server"
                    "REPLACE INTO `test`.`_t1_new` (`id`, `name`) SELECT `id`, `name` FROM `test`.`t1` FORCE INDEX (PRIMARY) WHERE (`id`) IN ('7')"))
    /\ List.last (history w') BeginTx = TxRollback 7.
Proof. eexists. split; vm_compute; reflexivity. Qed.

Lemma C10_flush_atomic_witness :
  0 < MaxRetries NewDBConfig
  /\ forall w' s' r,
      flushDeltaQueue quoteColumns rowValues 1000 NewDBConfig (queueSub [ups "7"]) false lock0
        (world0 (failServer (String.prefix "REPLACE") (MySQLError 1146)))
      = (w', s', r) ->
      r <> None -> s' = queueSub [ups "7"].
Proof.
  split; [reflexivity|].
  intros w' s' r H.
  exact (proj1 (proj1 (C10_flush_atomic quoteColumns rowValues 1000 NewDBConfig
                         (queueSub [ups "7"]) false lock0
                         (world0 (failServer (String.prefix "REPLACE") (MySQLError 1146)))
                         eq_refl) w' s' r H)).
Defined.

End Examples.

(** ** Facts about [pkg/repl]: the client *)
Section ClientFacts.
Import Dbconn Repl.
Context {any : Type}.

Local Notation subscription := (@subscription any).
Local Notation Client := (@Client any).

Lemma getDeltaLen_nonneg (s : subscription) : 0 <= getDeltaLen s.
Proof. unfold getDeltaLen. destruct (disableDeltaMap s); lia. Qed.

(** A subscription has nothing pending exactly when the store it uses,
    queue or map, is empty. *)
Lemma getDeltaLen_zero (s : subscription) :
  getDeltaLen s = 0 <->
  if disableDeltaMap s then deltaQueue s = [] else deltaMap s = ∅.
Proof.
  unfold getDeltaLen. destruct (disableDeltaMap s).
  - destruct (deltaQueue s); cbn; split; intros H; try reflexivity; try discriminate; lia.
  - rewrite <- map_size_empty_iff. lia.
Qed.

Lemma fold_deltaLen_nonneg (subs : list (string * subscription)) :
  0 <= List.fold_right (fun ns acc => getDeltaLen (snd ns) + acc) 0 subs.
Proof.
  induction subs as [|ns subs IH]; cbn [List.fold_right]; [lia|].
  pose proof (getDeltaLen_nonneg (snd ns)). lia.
Qed.

(** C2 (as amended): [AllChangesFlushed()] is true exactly when the delta
    store of every subscription, the queue in queue mode and the map
    otherwise, is empty; the two binlog positions play no part. *)
Theorem C2_all_changes_flushed (c : Client) :
  AllChangesFlushed c = true <->
  Forall (fun ns : string * subscription =>
            if disableDeltaMap (snd ns) then deltaQueue (snd ns) = []
            else deltaMap (snd ns) = ∅)
    (subscriptions c).
Proof.
  unfold AllChangesFlushed, GetDeltaLen. rewrite Z.eqb_eq.
  induction (subscriptions c) as [|ns subs IH]; cbn [List.fold_right].
  - split; auto.
  - pose proof (getDeltaLen_nonneg (snd ns)) as H1.
    pose proof (fold_deltaLen_nonneg subs) as H2.
    split.
    + intros H. constructor.
      * apply getDeltaLen_zero. lia.
      * apply IH. lia.
    + intros H. inversion H as [|? ? Hs Hr]; subst.
      apply getDeltaLen_zero in Hs. apply IH in Hr. lia.
Qed.

End ClientFacts.

Section ClientExamples.
Import Dbconn Repl Fixtures.

(** The model of [AllChangesFlushed] passes every assertion of the
    repository's test. *)
Example TestAllChangesFlushed_passes :
  Forall (fun ce => AllChangesFlushed (fst ce) = snd ce) TestAllChangesFlushed.
Proof. repeat constructor. Qed.

(** The reading by the words of the specification fails the sixth one. *)
Example TestAllChangesFlushed_spec_reading :
  List.map (fun ce => Bool.eqb (AllChangesFlushed_spec (fst ce)) (snd ce)) TestAllChangesFlushed
  = [true; true; true; true; true; false; true; true; true].
Proof. reflexivity. Qed.

(** C2 (as stated) fails at the sixth assertion of [TestAllChangesFlushed]:
    no change is pending, the flushed position is behind the buffered one,
    and the client counts as flushed. *)
Lemma C2_counterexample :
  AllChangesFlushed testClient6 = true
  /\ flushedPos testClient6 <> bufferedPos testClient6
  /\ ~ (AllChangesFlushed testClient6 = true <->
        (flushedPos testClient6 = bufferedPos testClient6
         /\ Forall (fun ns : string * subscription =>
                      if disableDeltaMap (snd ns) then deltaQueue (snd ns) = []
                      else deltaMap (snd ns) = ∅)
              (subscriptions testClient6))).
Proof.
  split; [reflexivity|]. split; [discriminate|].
  intros [H _]. destruct (H eq_refl) as [Hp _]. discriminate Hp.
Qed.

End ClientExamples.

(** ** Facts about the cutover *)
Section CutoverFacts.
Import Table Dbconn Repl Cutover.
Context {any : Type}.
Context (QuoteColumns : list string -> string).
Context (pksToRowValueConstructor : list string -> string).

Local Notation subscription := (@subscription any).
Local Notation Client := (@Client any).
Local Notation flush := (@flush any QuoteColumns pksToRowValueConstructor).
Local Notation flushSubscriptions :=
  (@flushSubscriptions any QuoteColumns pksToRowValueConstructor).
Local Notation FlushUnderTableLock :=
  (@FlushUnderTableLock any QuoteColumns pksToRowValueConstructor).
Local Notation algorithmRenameUnderLock :=
  (@algorithmRenameUnderLock any QuoteColumns pksToRowValueConstructor).
Local Notation batchMap := (@batchMap any QuoteColumns pksToRowValueConstructor).
Local Notation stmtOfRun := (@stmtOfRun any QuoteColumns pksToRowValueConstructor).

Lemma prefix_empty (x : string) : String.prefix "" x = true.
Proof. now destruct x. Qed.

Lemma renameStatement_isRename c : isRename (renameStatement c) = true.
Proof. unfold isRename, renameStatement. cbn. apply prefix_empty. Qed.













Lemma Close_trace lock w :
  exists seg, history (fst (Close lock w)) = history w ++ seg /\ closing lock seg.
Proof.
  unfold Close, call. cbn [server history].
  destruct (resp_err _); cbn [fst history].
  - eexists. split; [reflexivity | now left].
  - eexists. reassoc. split; [reflexivity | now right].
Qed.



End CutoverFacts.

(** ** Facts about the cutover and the feed *)
Section CutoverGuardFacts.
Import Table Dbconn Repl Cutover.
Context {any : Type}.
Context (QuoteColumns : list string -> string).
Context (pksToRowValueConstructor : list string -> string).
Context (flushUnderTableLock :
           @Client any -> TableLock -> World -> option (World * @Client any * option error)).
Context (allChangesFlushed : @Client any -> bool).

Local Notation Client := (@Client any).
Local Notation algorithmRenameUnderLockWith :=
  (@algorithmRenameUnderLockWith any flushUnderTableLock allChangesFlushed).


End CutoverGuardFacts.

(** ** Facts about the runner: checkpoints *)
Section CheckpointFacts.
Import Table Dbconn Repl Migration.
Context {any : Type}.

Local Notation Client := (@Client any).
Local Notation Runner := (@Runner any).

Lemma newestRow_app best rs r :
  newestRow best (rs ++ [r]) =
  match newestRow best rs with
  | None => Some r
  | Some b => if idOf b <? idOf r then Some r else Some b
  end.
Proof.
  revert best; induction rs as [|r0 rs IH]; intros best; cbn [List.app newestRow].
  - reflexivity.
  - apply IH.
Qed.

(** The row found by [ORDER BY id DESC LIMIT 1] is one of the rows (or the
    best one so far) and no row has a larger id. *)
Lemma newestRow_max best rs r0 :
  newestRow best rs = Some r0 ->
  (best = Some r0 \/ In r0 rs)
  /\ (forall r, In r rs -> idOf r <= idOf r0)
  /\ (forall b, best = Some b -> idOf b <= idOf r0).
Proof.
  revert best; induction rs as [|r rs IH]; intros best; cbn [newestRow].
  - intros ->. split; [now left|]. split; [intros ? []|]. intros b [= ->]. lia.
  - intros H. apply IH in H as (H1 & H2 & H3).
    destruct best as [b|].
    + destruct (idOf b <? idOf r) eqn:E.
      * apply Z.ltb_lt in E. specialize (H3 r eq_refl).
        split; [destruct H1 as [[= <-]|H1]; right; [now left | now right]|].
        split; [intros x [<-|Hx]; [exact H3 | now apply H2]|].
        intros b' [= <-]. lia.
      * apply Z.ltb_ge in E. specialize (H3 b eq_refl).
        split; [destruct H1 as [H1|H1]; [now left | right; now right]|].
        split; [intros x [<-|Hx]; [lia | now apply H2]|].
        intros b' [= <-]. exact H3.
    + specialize (H3 r eq_refl).
      split; [destruct H1 as [[= <-]|H1]; right; [now left | now right]|].
      split; [intros x [<-|Hx]; [exact H3 | now apply H2]|].
      discriminate.
Qed.

Lemma newestRow_below best rs n r0 :
  Forall (fun r => idOf r < n) rs ->
  (forall b, best = Some b -> idOf b < n) ->
  newestRow best rs = Some r0 -> idOf r0 < n.
Proof.
  intros Hrs Hb H. apply newestRow_max in H as ([->|Hin] & _ & _).
  - now apply Hb.
  - rewrite List.Forall_forall in Hrs. now apply Hrs.
Qed.

(** The row an INSERT adds to a well-formed checkpoint table is the newest
    one. *)
Lemma newestRow_insert (t : tableData) (r : row) :
  Forall (fun x : row => idOf x < autoIncrement t) (rows t) ->
  idOf r = autoIncrement t ->
  newestRow None (rows t ++ [r]) = Some r.
Proof.
  intros Hw Hid. rewrite newestRow_app.
  destruct (newestRow None (rows t)) as [b|] eqn:E; [|reflexivity].
  apply (newestRow_below None (rows t) (autoIncrement t)) in E; [|exact Hw|discriminate].
  assert (Hlt : (idOf b <? idOf r) = true) by (apply Z.ltb_lt; lia).
  now rewrite Hlt.
Qed.

(** C5 (as amended): the row that [dumpCheckpoint] appends to a checkpoint
    table created by [createCheckpointTable] has the columns [id,
    low_watermark, binlog_name, binlog_pos, rows_copied,
    rows_copied_logical, alter_statement], its id is larger than that of
    every row before it, and what [resumeFromCheckpoint] reads next is this
    row: the copier's low watermark, the flushed binlog position, the two
    row counts and the ALTER statement as given.  In any checkpoint table
    the row that is read back is one whose id no other row exceeds. *)
Theorem C5_checkpoint_row_roundtrip
    (faults : Faults) (r r' : Runner) (t : tableData) :
  chkpnt (db r) = Some t ->
  columns t = checkpointColumns ->
  wellFormed t ->
  dumpCheckpoint faults r = Some (r', None) ->
  (exists c cp lw t' newRow,
      replClient r = Some c /\ copier r = Some cp /\ lowWatermarkNow cp = Some lw
      /\ chkpnt (db r') = Some t'
      /\ columns t' = checkpointColumns /\ wellFormed t'
      /\ rows t' = rows t ++ [newRow]
      /\ List.map fst newRow = checkpointColumns
      /\ Forall (fun old : row => idOf old < idOf newRow) (rows t)
      /\ readCheckpoint (db r')
         = Some {| lowWatermark := lw;
                   binlogName := Name (flushedPos c);
                   binlogPos := Pos (flushedPos c);
                   rowsCopied := CopyRowsCount cp;
                   rowsCopiedLogical := CopyRowsLogicalCount cp;
                   alterStatement := Alter (migration r) |})
  /\ (forall (d : DB) (t0 : tableData) (vs : list value),
         chkpnt d = Some t0 ->
         selectNewest checkpointFields t0 = Some vs ->
         exists r0,
           In r0 (rows t0)
           /\ vs = List.map (fun col => lookupColumn col r0) checkpointFields
           /\ forall other, In other (rows t0) -> idOf other <= idOf r0).
Proof.
  intros Ht Hcols Hwf Hdump. split.
  - unfold dumpCheckpoint in Hdump.
    destruct (replClient r) as [c|] eqn:Hc; [|discriminate].
    destruct (copier r) as [cp|] eqn:Hcp; [|discriminate].
    destruct (checkpointTable r) as [ct|]; [|discriminate].
    destruct (lowWatermarkNow cp) as [lw|] eqn:Hlw; [|discriminate].
    unfold attempt in Hdump. cbn [db migration] in Hdump.
    destruct (faults InsertCheckpoint); [discriminate|].
    rewrite Ht in Hdump. injection Hdump as <-.
    set (newRow := List.map
                     (fun col => (col, if String.eqb col "id" then VInt (autoIncrement t)
                                       else lookupColumn col
                                              (List.combine checkpointFields
                                                 [VText lw; VText (Name (GetBinlogApplyPosition c));
                                                  VInt (Pos (GetBinlogApplyPosition c));
                                                  VInt (CopyRowsCount cp);
                                                  VInt (CopyRowsLogicalCount cp);
                                                  VText (Alter (migration r))])))
                     (columns t)).
    assert (Hid : idOf newRow = autoIncrement t).
    { unfold newRow. rewrite Hcols. reflexivity. }
    assert (Hold : Forall (fun old : row => idOf old < autoIncrement t) (rows t)).
    { eapply List.Forall_impl; [|exact Hwf]. now intros ? [_ ?]. }
    exists c, cp, lw, (insertRow checkpointFields
                         [VText lw; VText (Name (GetBinlogApplyPosition c));
                          VInt (Pos (GetBinlogApplyPosition c));
                          VInt (CopyRowsCount cp); VInt (CopyRowsLogicalCount cp);
                          VText (Alter (migration r))] t), newRow.
    unfold setDB. cbn [db chkpnt insertRow columns rows autoIncrement].
    repeat split; auto.
    + unfold wellFormed. cbn [rows columns autoIncrement insertRow].
      apply List.Forall_app. split.
      * eapply List.Forall_impl; [|exact Hwf]. intros x [? ?]. split; [assumption | lia].
      * constructor; [|constructor]. split; [|fold newRow; lia].
        rewrite List.map_map. cbn [fst]. now rewrite List.map_id.
    + unfold newRow. rewrite List.map_map. cbn [fst]. now rewrite List.map_id.
    + rewrite Hid. exact Hold.
    + unfold readCheckpoint, selectNewest, setDB. cbn [db chkpnt rows insertRow].
      fold newRow. pose proof (newestRow_insert t newRow Hold Hid) as Hn.
      unfold row in *. rewrite Hn.
      unfold newRow. rewrite Hcols. reflexivity.
  - intros d t0 vs _ Hsel. unfold selectNewest in Hsel.
    destruct (newestRow None (rows t0)) as [r0|] eqn:E; [|discriminate].
    injection Hsel as <-.
    apply newestRow_max in E as ([[=]|Hin] & Hmax & _).
    exists r0. repeat split; auto.
Qed.

End CheckpointFacts.

(** ** Facts about the runner: resuming *)
(** Projections of a runner that went through setters and calls are
    reduced step by step; unfolding everything at once would copy the
    runner into every field. *)
Ltac runner_simpl :=
  cbn [Migration.attempt Migration.setDB Migration.setNewTable
       Migration.setCheckpointTable Migration.setCopier Migration.setReplClient
       Migration.setMigration Migration.setUsedResume Migration.setState
       fst snd Migration.migration Migration.table Migration.newTable
       Migration.checkpointTable Migration.currentState Migration.replClient
       Migration.copier Migration.usedResumeFromCheckpoint Migration.db
       Migration.calls Migration.newTableExists Migration.chkpnt].


Section ResumeFacts.
Import Table Dbconn Repl Migration.
Context {any : Type}.
Context (NewClient : TableInfo -> TableInfo -> @Client any).
Context (SetPos : Position -> @Client any -> @Client any).
Context (KeyAboveHighWatermark : Copier -> any -> bool).

Local Notation Client := (@Client any).
Local Notation Runner := (@Runner any).
Local Notation resumeFromCheckpoint := (@resumeFromCheckpoint any NewClient SetPos).
Local Notation newMigration := (@newMigration any NewClient).
Local Notation setup := (@setup any NewClient SetPos KeyAboveHighWatermark).

(** With a checkpoint for another ALTER, resuming stops at the
    comparison, before anything on the server or in the runner is
    changed. *)
Lemma resume_mismatch (faults : Faults) (r : Runner) (cp : checkpoint) :
  faults ReadNewTable = None ->
  newTableExists (db r) = true ->
  faults ReadCheckpoint = None ->
  readCheckpoint (db r) = Some cp ->
  alterStatement cp <> Alter (migration r) ->
  resumeFromCheckpoint faults r
  = (fst (attempt faults ReadCheckpoint (fst (attempt faults ReadNewTable r))),
     Some errAlterMismatch).
Proof.
  intros H1 H2 H3 H4 H5. unfold Migration.resumeFromCheckpoint.
  runner_simpl. rewrite H1, H2. cbn [negb]. rewrite H3, H4.
  assert (E : String.eqb (Alter (migration r)) (alterStatement cp) = false).
  { apply String.eqb_neq. congruence. }
  rewrite E. reflexivity.
Qed.

(** C3 (as amended): when the DDL stored in the newest checkpoint differs
    from the current [--alter], [resumeFromCheckpoint] returns an error
    (one error value, whatever [--strict] says) without touching any
    table, and [setup] carries on with the initial steps: it recreates the
    new table and an empty checkpoint table and builds a copier that
    starts from the beginning; when none of these steps fails, [setup]
    returns no error. *)
Theorem C3_mismatched_alter_starts_afresh
    (faults : Faults) (r : Runner) (cp : checkpoint) :
  newTableExists (db r) = true ->
  readCheckpoint (db r) = Some cp ->
  alterStatement cp <> Alter (migration r) ->
  (forall site, faults site = None) ->
  (String.length (newName r) <= 64)%nat ->
  (exists r0,
      resumeFromCheckpoint faults r = (r0, Some errAlterMismatch)
      /\ db r0 = db r /\ migration r0 = migration r)
  /\ exists r' more,
      setup faults r = Some (r', None)
      /\ usedResumeFromCheckpoint r' = usedResumeFromCheckpoint r
      /\ Checksum (migration r') = Checksum (migration r)
      /\ chkpnt (db r') = Some emptyCheckpointTable
      /\ (exists fresh, copier r' = Some fresh /\ resumedFrom fresh = None)
      /\ calls r'
         = calls r
           ++ [DropOldTable; ReadNewTable; ReadCheckpoint;
               DropNewTable; CreateNewTable; SetInfoNewTable_create;
               AlterNewTable; SetInfoNewTable_alter;
               DropCheckpointTable; CreateCheckpointTable;
               NewCopier; ReplClientRun_fresh]
           ++ more.
Proof.
  intros Hnew Hcp Hneq Hok Hlen. split.
  - eexists. split; [apply (resume_mismatch faults r cp); auto|]. split; reflexivity.
  - unfold Migration.setup.
    runner_simpl. rewrite (Hok DropOldTable).
    rewrite (resume_mismatch faults _ cp); auto.
    assert (Hl : (64 <? String.length (newName r))%nat = false) by (apply Nat.ltb_ge; exact Hlen).
    unfold newName in Hl.
    unfold Migration.newMigration, createNewTable, alterNewTable, createCheckpointTable.
    unfold newName, cpName. runner_simpl. rewrite Hl.
    repeat (rewrite Hok; runner_simpl).
    destruct (String.eqb (ReplicaDSN (migration r)) "").
    + eexists. exists []. runner_simpl.
      split; [reflexivity|]. runner_simpl. repeat split; eauto.
      reassoc. cbn [List.app]. reflexivity.
    + repeat (rewrite Hok; runner_simpl).
      unfold attempt. rewrite Hok. runner_simpl.
      eexists. exists [NewReplica; NewReplicationThrottler; ThrottlerOpen].
      split; [reflexivity|]. runner_simpl.
      repeat split; eauto.
      reassoc. cbn [List.app]. reflexivity.
Qed.









End ResumeFacts.

(** ** Facts about the high-watermark optimization *)
Section WatermarkFacts.
Import Table Dbconn Repl Migration.
Context {any : Type} (Sprintf_v : any -> string).

Local Notation subscription := (@subscription any).
Local Notation Client := (@Client any).
Local Notation Runner := (@Runner any).
Local Notation keyHasChanged := (@keyHasChanged any Sprintf_v).

(** With the optimization switched off every event is buffered. *)
Lemma keyHasChanged_disabled (s : subscription) k deleted :
  enableKeyAboveWatermark s = false ->
  keyHasChanged s k deleted = Some (buffered Sprintf_v s k deleted).
Proof.
  intros H. unfold Repl.keyHasChanged, keyIsAboveWatermark, keyAboveWatermarkEnabled, buffered.
  rewrite H. cbn [andb]. now destruct (disableDeltaMap s).
Qed.

(** C7: while the optimization is enabled, a row event (an upsert as well
    as a delete) whose key the callback reports as above the copier's high
    watermark is dropped, the delta store staying as it was, and an event
    whose key is not above is buffered; once the runner sets a state past
    [copyRows] the optimization is off in every subscription of its
    client, and from then on every event is buffered whatever the callback
    says; setting a state up to [copyRows] does not touch the client. *)
Theorem C7_key_above_watermark (s : subscription) (callback : any -> bool) :
  enableKeyAboveWatermark s = true ->
  keyAboveCopierCallback s = Some callback ->
  (forall k0 k deleted,
      callback k0 = true -> keyHasChanged s (k0 :: k) deleted = Some s)
  /\ (forall k0 k deleted,
        callback k0 = false ->
        keyHasChanged s (k0 :: k) deleted = Some (buffered Sprintf_v s (k0 :: k) deleted))
  /\ (forall (r : Runner) (c : Client) (st : migrationState),
        replClient r = Some c ->
        (stateValue stateCopyRows < stateValue st ->
         exists c',
           replClient (setCurrentState st r) = Some c'
           /\ List.map fst (subscriptions c') = List.map fst (subscriptions c)
           /\ Forall (fun ns : string * subscription =>
                        forall k deleted,
                          keyHasChanged (snd ns) k deleted
                          = Some (buffered Sprintf_v (snd ns) k deleted))
                (subscriptions c'))
        /\ (stateValue st <= stateValue stateCopyRows ->
            replClient (setCurrentState st r) = Some c)).
Proof.
  intros Hen Hcb.
  assert (Hon : keyAboveWatermarkEnabled s = true).
  { unfold keyAboveWatermarkEnabled. now rewrite Hen, Hcb. }
  split; [|split].
  - intros k0 k deleted Habove.
    unfold Repl.keyHasChanged, keyIsAboveWatermark. now rewrite Hon, Hcb, Habove.
  - intros k0 k deleted Hbelow.
    unfold Repl.keyHasChanged, keyIsAboveWatermark, buffered.
    rewrite Hon, Hcb, Hbelow. now destruct (disableDeltaMap s).
  - intros r c st Hc. split.
    + intros Hpast. unfold setCurrentState.
      apply Z.ltb_lt in Hpast. rewrite Hpast.
      cbn [replClient setState]. rewrite Hc. cbn [replClient setReplClient].
      eexists. split; [reflexivity|].
      unfold SetKeyAboveWatermarkOptimization. cbn [subscriptions setSubscriptions].
      split.
      * rewrite List.map_map. cbn [fst]. reflexivity.
      * apply List.Forall_map. apply List.Forall_forall. intros ns _ k deleted.
        cbn [snd]. now apply keyHasChanged_disabled.
    + intros Hnot. unfold setCurrentState.
      apply Z.ltb_ge in Hnot. rewrite Hnot. exact Hc.
Qed.

End WatermarkFacts.

(** ** The runner and the cutover at concrete inputs *)
Section RunnerExamples.
Import Dbconn Repl Cutover Migration Fixtures.

(** One attempt of the cutover with one change still buffered. *)
Example algorithmRenameUnderLock_trace :
  option_map (fun x => (history (fst (fst x)), snd x))
    (algorithmRenameUnderLock quoteColumns rowValues cut0 feed0 (world0 okServer))
  = Some
      ([BeginTx; TxExec 0 "SET time_zone='+00:00'" [];
        TxExec 0 "SET sql_mode=''" []; TxExec 0 "SET NAMES 'binary'" [];
        TxExec 0 "SET innodb_lock_wait_timeout=?" [3];
        TxExec 0 "SET lock_wait_timeout=?" [30];
        TxQuery 0 "SELECT CONNECTION_ID()";
        TxExec 0 "LOCK TABLES `test`.`t1` WRITE, `test`.`_t1_new` WRITE" [];
        TxExec 0
          "REPLACE INTO `test`.`_t1_new` (`id`, `name`) SELECT `id`, `name` FROM `test`.`t1` FORCE INDEX (PRIMARY) WHERE (`id`) IN ('7')"
          [];
        TxExec 0
          "RENAME TABLE `test`.`t1` TO `test`.`_t1_old`, `test`.`_t1_new` TO `test`.`t1`"
          [];
        TxExec 0 "UNLOCK TABLES" []; TxRollback 0],
       None).
Proof. vm_compute. reflexivity. Qed.

(** A change that arrives while the flush under the lock is running makes
    the attempt fail: the lock is released and no table is renamed. *)
Example algorithmRenameUnderLock_late_change :
  option_map (fun x => (history (fst (fst x)), GetDeltaLen (snd (fst x)), snd x))
    (algorithmRenameUnderLockWith arrivingFlush AllChangesFlushed cut0 feed0 (world0 okServer))
  = Some
      ([BeginTx; TxExec 0 "SET time_zone='+00:00'" [];
        TxExec 0 "SET sql_mode=''" []; TxExec 0 "SET NAMES 'binary'" [];
        TxExec 0 "SET innodb_lock_wait_timeout=?" [3];
        TxExec 0 "SET lock_wait_timeout=?" [30];
        TxQuery 0 "SELECT CONNECTION_ID()";
        TxExec 0 "LOCK TABLES `test`.`t1` WRITE, `test`.`_t1_new` WRITE" [];
        TxExec 0
          "REPLACE INTO `test`.`_t1_new` (`id`, `name`) SELECT `id`, `name` FROM `test`.`t1` FORCE INDEX (PRIMARY) WHERE (`id`) IN ('7')"
          [];
        TxExec 0 "UNLOCK TABLES" []; TxRollback 0],
       1, Some errNotFlushed).
Proof. vm_compute. reflexivity. Qed.


Lemma C3_mismatched_alter_starts_afresh_witness :
  exists r',
    setup newClient0 setPos0 keyAbove0 noFaults (runner0 (mig "ADD COLUMN d INT" true false))
    = Some (r', None)
    /\ chkpnt (db r') = Some emptyCheckpointTable.
Proof.
  destruct (C3_mismatched_alter_starts_afresh newClient0 setPos0 keyAbove0 noFaults
              (runner0 (mig "ADD COLUMN d INT" true false)) storedCheckpoint
              eq_refl eq_refl ltac:(discriminate) (fun _ => eq_refl)
              ltac:(cbn; lia))
    as (_ & r' & more & H1 & _ & _ & H2 & _).
  exists r'. split; assumption.
Defined.

(** C3 (as stated) fails: with [--strict] and a checkpoint for another
    ALTER, [setup] returns no error; it discards the checkpoint and starts
    afresh, as it does without [--strict]. *)
Lemma C3_counterexample :
  Strict (mig "ADD COLUMN d INT" true true) = true
  /\ readCheckpoint (db (runner0 (mig "ADD COLUMN d INT" true true))) = Some storedCheckpoint
  /\ exists r',
      setup newClient0 setPos0 keyAbove0 noFaults (runner0 (mig "ADD COLUMN d INT" true true))
      = Some (r', None)
      /\ usedResumeFromCheckpoint r' = false
      /\ chkpnt (db r') = Some emptyCheckpointTable.
Proof.
  split; [reflexivity|]. split; [reflexivity|].
  eexists. split; [vm_compute; reflexivity|]. split; reflexivity.
Qed.


Lemma C5_checkpoint_row_roundtrip_witness :
  readCheckpoint (db runnerDumped)
  = Some {| lowWatermark := "{watermark at 2000}";
            binlogName := "binlog.000001"; binlogPos := 8000;
            rowsCopied := 2000; rowsCopiedLogical := 1990;
            alterStatement := "ADD COLUMN c INT" |}.
Proof.
  assert (Hd : dumpCheckpoint noFaults runnerCopying = Some (runnerDumped, None))
    by (vm_compute; reflexivity).
  assert (Hw : wellFormed storedCheckpoints).
  { constructor; [|constructor]. split; [reflexivity | vm_compute; reflexivity]. }
  destruct (C5_checkpoint_row_roundtrip noFaults runnerCopying runnerDumped storedCheckpoints
              eq_refl eq_refl Hw Hd)
    as ((c & cp & lw & t' & newRow & Hc & Hcp & Hlw & _ & _ & _ & _ & _ & _ & Hread) & _).
  injection Hc as <-. injection Hcp as <-. injection Hlw as <-. exact Hread.
Defined.

(** C5 (as stated) fails: the row a checkpoint persists has no column for a
    checksum watermark, and it has two columns, the row counts, that the
    claim does not list. *)
Lemma C5_counterexample :
  exists t' newRow,
    chkpnt (db runnerDumped) = Some t'
    /\ List.last (rows t') [] = newRow
    /\ List.map fst newRow
       = ["id"; "low_watermark"; "binlog_name"; "binlog_pos"; "rows_copied";
          "rows_copied_logical"; "alter_statement"]
    /\ List.map fst newRow <> checkpointColumns_spec
    /\ ~ In "checksum_watermark" (List.map fst newRow)
    /\ In "rows_copied" (List.map fst newRow)
    /\ In "rows_copied_logical" (List.map fst newRow).
Proof.
  eexists. eexists. split; [reflexivity|]. split; [reflexivity|].
  split; [reflexivity|]. split; [discriminate|].
  split; [|split; cbn; tauto].
  cbn. intros H. repeat destruct H as [H|H]; try discriminate H; exact H.
Qed.

Lemma C7_key_above_watermark_witness :
  keyHasChanged (fun k : string => k) watermarkSub ["7000"] false = Some watermarkSub
  /\ keyHasChanged (fun k : string => k) watermarkSub ["7000"] true = Some watermarkSub.
Proof.
  pose proof (proj1 (C7_key_above_watermark (fun k : string => k) watermarkSub
                       (fun k => String.leb "5000" k) eq_refl eq_refl)) as H.
  split; apply H; reflexivity.
Defined.

End RunnerExamples.

(** ** More facts about [pkg/utils] *)
Section UtilsMore.
Import GoStrings Utils Table Repl.
Context {any : Type} (Sprintf_v : any -> string).

(** X1: [HashKey] does not make two keys collide: two non-empty keys whose
    printed values differ and can be told apart from the separator (no
    ["-#-"] inside, no ["-#"] at the end of a value but the last) have
    different hashes, so they take different entries of a delta map. *)
Theorem X1_HashKey_no_collision (key1 key2 : list any) :
  key1 <> [] -> key2 <> [] ->
  allSeparable (List.map Sprintf_v key1) = true ->
  allSeparable (List.map Sprintf_v key2) = true ->
  List.map Sprintf_v key1 <> List.map Sprintf_v key2 ->
  HashKey Sprintf_v key1 <> HashKey Sprintf_v key2.
Proof.
  intros N1 N2 S1 S2 Hne Heq. apply Hne.
  unfold HashKey, PrimaryKeySeparator in Heq.
  rewrite <- (Split_Join_separable (List.map Sprintf_v key1)), <- (Split_Join_separable (List.map Sprintf_v key2)); auto.
  - now rewrite Heq.
  - destruct key2; [congruence | discriminate].
  - destruct key1; [congruence | discriminate].
Qed.

End UtilsMore.

Section IntersectFacts.
Import GoStrings Table Repl.

Lemma flat_map_single_NoDup (col : string) (cols2 : list string) :
  List.NoDup cols2 ->
  List.flat_map (fun col2 => if String.eqb col col2 then ["`" +:+ col +:+ "`"] else []) cols2
  = if List.existsb (String.eqb col) cols2 then ["`" +:+ col +:+ "`"] else [].
Proof.
  induction 1 as [|c cols2 Hnotin Hnd IH]; [reflexivity|].
  cbn [List.flat_map List.existsb]. rewrite IH.
  destruct (String.eqb_spec col c) as [->|Hne]; cbn [orb List.app]; [|reflexivity].
  destruct (List.existsb (String.eqb c) cols2) eqn:E; [|reflexivity].
  exfalso. apply List.existsb_exists in E as (x & Hx & Ex).
  apply String.eqb_eq in Ex. subst x. contradiction.
Qed.

Lemma flat_map_filter_map {A B} (p : A -> bool) (f : A -> B) (l : list A) :
  List.flat_map (fun a => if p a then [f a] else []) l = List.map f (List.filter p l).
Proof.
  induction l as [|a l IH]; [reflexivity|].
  cbn [List.flat_map List.filter]. rewrite IH. now destruct (p a).
Qed.

(** X2: when the second table names no column twice,
    [IntersectNonGeneratedColumns] is the list of the first table's
    columns that the second table has as well, in the first table's
    order, each in backquotes, joined by [", "]. *)
Theorem X2_IntersectNonGeneratedColumns_filter (t1 t2 : TableInfo) :
  List.NoDup (NonGeneratedColumns t2) ->
  IntersectNonGeneratedColumns t1 t2
  = Join (List.map (fun col => "`" +:+ col +:+ "`")
            (List.filter (fun col => List.existsb (String.eqb col) (NonGeneratedColumns t2))
               (NonGeneratedColumns t1)))
      ", ".
Proof.
  intros Hnd. unfold IntersectNonGeneratedColumns. f_equal.
  rewrite <- flat_map_filter_map.
  induction (NonGeneratedColumns t1) as [|c l IH]; [reflexivity|].
  cbn [List.flat_map]. rewrite IH. f_equal. now apply flat_map_single_NoDup.
Qed.

End IntersectFacts.

Section StripPortFacts.
Import GoStrings Utils.

Lemma Contains_cons_false c s sub :
  Contains (String c s) sub = false ->
  String.prefix sub (String c s) = false /\ Contains s sub = false.
Proof. cbn [Contains]. intros H. now apply orb_false_elim in H. Qed.

Lemma Split_aux_colon (host cur rest : string) :
  Contains host ":" = false ->
  Split_aux ":" O cur (host +:+ ":" +:+ rest) = (cur +:+ host) :: Split_aux ":" O EmptyString rest.
Proof.
  revert cur; induction host as [|c host IH]; intros cur H.
  - cbn [append Split_aux String.prefix String.length Nat.pred].
    destruct (ascii_dec ":" ":") as [_|N]; [|congruence].
    rewrite prefix_empty, append_nil_r. reflexivity.
  - apply Contains_cons_false in H as [Hp Hc].
    change (String c host +:+ ":" +:+ rest) with (String c (host +:+ ":" +:+ rest)).
    cbn [Split_aux].
    assert (Hp' : String.prefix ":" (String c (host +:+ ":" +:+ rest)) = false).
    { cbn [String.prefix] in *. destruct (ascii_dec ":" c); [|reflexivity].
      now rewrite prefix_empty in Hp. }
    rewrite Hp', IH by exact Hc. now rewrite append_assoc_s.
Qed.

Lemma Contains_colon_app (host rest : string) :
  Contains (host +:+ ":" +:+ rest) ":" = true.
Proof.
  induction host as [|c host IH].
  - cbn [append Contains String.prefix].
    destruct (ascii_dec ":" ":") as [_|N]; [|congruence].
    now rewrite prefix_empty.
  - change (String c host +:+ ":" +:+ rest) with (String c (host +:+ ":" +:+ rest)).
    cbn [Contains]. rewrite IH. apply orb_true_r.
Qed.

(** X3: [StripPort] returns a host name without a colon as it is, and
    cuts a host name at its first colon: whatever follows the colon, more
    colons included, is dropped. *)
Theorem X3_StripPort_first_colon (host rest : string) :
  Contains host ":" = false ->
  StripPort host = Some host
  /\ StripPort (host +:+ ":" +:+ rest) = Some host.
Proof.
  intros H. unfold StripPort. rewrite H, Contains_colon_app. split; [reflexivity|].
  unfold Split. rewrite Split_aux_colon by exact H. reflexivity.
Qed.

(** The repository's own test [TestStripPort]. *)
Lemma X3_StripPort_first_colon_witness :
  StripPort "hostname.com" = Some "hostname.com"
  /\ StripPort "hostname.com:3306" = Some "hostname.com".
Proof.
  apply (X3_StripPort_first_colon "hostname.com" "3306").
  reflexivity.
Defined.

End StripPortFacts.

(** ** More facts about [pkg/dbconn] *)
Section RetryFacts.
Import Table Dbconn.

Lemma execAll_onTx tx stmts w :
  exists body,
    history (fst (execAll tx stmts w)) = history w ++ body /\ Forall (onTx tx) body.
Proof.
  revert w; induction stmts as [|[q a] stmts IH]; intros w; cbn [execAll].
  - exists []. cbn. split; [now rewrite List.app_nil_r | constructor].
  - unfold call. destruct (resp_err _).
    + exists [TxExec tx q a]. cbn. split; [reflexivity | repeat constructor].
    + destruct (IH {| server := server w; history := history w ++ [TxExec tx q a] |})
        as (body & E & F).
      exists (TxExec tx q a :: body). rewrite E. cbn [history]. reassoc.
      split; [reflexivity | constructor; [reflexivity | exact F]].
Qed.

(** The statement loop sends requests on its transaction only; when it
    does not go through, the last thing it does is roll back. *)
Lemma execStmts_onTx tx ig stmts ra w :
  exists body,
    Forall (onTx tx) body
    /\ history (fst (fst (execStmts tx ig stmts ra w)))
       = history w ++ body
         ++ match snd (execStmts tx ig stmts ra w) with
            | Done => []
            | _ => [TxRollback tx]
            end.
Proof.
  revert ra w; induction stmts as [|q stmts IH]; intros ra w; cbn [execStmts].
  - exists []. cbn. split; [constructor | now rewrite List.app_nil_r].
  - destruct (String.eqb q ""); [apply IH|].
    unfold call, rollback, call. cbn [server history fst snd].
    destruct (resp_err (server w (history w) (TxExec tx q []))) as [e|].
    { exists [TxExec tx q []]. split; [repeat constructor|].
      destruct (canRetryError e); cbn [fst snd history]; now reassoc. }
    destruct (resp_err (server w (history w ++ [TxExec tx q []]) (TxQuery tx "SHOW WARNINGS"))).
    { exists [TxExec tx q []; TxQuery tx "SHOW WARNINGS"]. split; [repeat constructor|].
      cbn [fst snd history]. now reassoc. }
    destruct (checkWarnings _ _ _).
    { exists [TxExec tx q []; TxQuery tx "SHOW WARNINGS"]. split; [repeat constructor|].
      cbn [fst snd history]. now reassoc. }
    match goal with |- context [execStmts tx ig stmts ?r ?x] =>
      destruct (IH r x) as (body & F & E) end.
    exists (TxExec tx q [] :: TxQuery tx "SHOW WARNINGS" :: body).
    split; [repeat constructor; exact F|].
    rewrite E. cbn [history]. now reassoc.
Qed.

Lemma retryLoop_attempts n ig config stmts ra err w :
  exists segs,
    history (fst (fst (retryLoop n ig config stmts ra err w))) = history w ++ List.concat segs
    /\ attemptsOf (server w) (history w) segs
    /\ (List.length segs <= n)%nat.
Proof.
  revert ra err w; induction n as [|n IH]; intros ra err w; cbn [retryLoop].
  - exists []. cbn. split; [now rewrite List.app_nil_r | split; [exact I | lia]].
  - (* what the rest of the loop adds to an attempt that is over *)
    assert (Hnext : forall seg ra1 e w1,
               server w1 = server w -> history w1 = history w ++ seg ->
               attemptOf (server w) (history w) seg ->
               exists segs,
                 history (fst (fst (retryLoop n ig config stmts ra1 e w1)))
                 = history w ++ List.concat segs
                 /\ attemptsOf (server w) (history w) segs
                 /\ (List.length segs <= S n)%nat).
    { intros seg ra1 e w1 Hs Hh Ha.
      destruct (IH ra1 e w1) as (segs & E & A & L).
      exists (seg :: segs). cbn [List.concat List.length].
      rewrite E, Hh, Hs in *. reassoc.
      split; [reflexivity|]. split; [now split | lia]. }
    unfold beginTx, call. cbn [server history].
    destruct (resp_err (server w (history w) BeginTx)) eqn:Hb.
    { apply (Hnext [BeginTx]); [reflexivity | reflexivity|].
      left. split; [reflexivity | congruence]. }
    unfold standardizeTrx.
    match goal with |- context [execAll ?t ?s ?x] =>
      destruct (execAll_onTx t s x) as (body1 & E1 & F1);
      pose proof (execAll_extends t s x) as [S1 _];
      destruct (execAll t s x) as [w2 [e|]] end; cbn [fst history server] in E1, S1.
    { apply (Hnext (BeginTx :: body1 ++ [TxRollback (List.length (history w))])).
      - unfold rollback, call. cbn [fst server]. exact S1.
      - unfold rollback, call. cbn [fst history]. rewrite E1. now reassoc.
      - right. exists body1, [TxRollback (List.length (history w))]. auto. }
    match goal with |- context [execStmts ?t ?i ?s ?r ?x] =>
      destruct (execStmts_onTx t i s r x) as (body2 & F2 & E2);
      pose proof (execStmts_extends t i s r x) as [S2 _];
      destruct (execStmts t i s r x) as [[w3 rows] out] end;
      cbn [fst snd] in E2, S2.
    assert (F12 : Forall (onTx (List.length (history w))) (body1 ++ body2))
      by (apply List.Forall_app; now split).
    destruct out as [|e|e].
    + unfold call. cbn [server history].
      destruct (resp_err (server w3 (history w3) (TxCommit _))).
      * apply (Hnext (BeginTx :: (body1 ++ body2)
                        ++ [TxCommit (List.length (history w));
                            TxRollback (List.length (history w))])).
        -- unfold rollback, call. cbn [fst server]. congruence.
        -- unfold rollback, call. cbn [fst history]. rewrite E2, E1. reassoc.
           cbn [List.app]. now reassoc.
        -- right. exists (body1 ++ body2). eexists. split; [reflexivity|]. auto.
      * exists [BeginTx :: (body1 ++ body2) ++ [TxCommit (List.length (history w))]].
        cbn [fst history List.concat]. rewrite E2, E1, List.app_nil_r. reassoc.
        cbn [List.app]. reassoc.
        split; [reflexivity|]. split; [|cbn; lia].
        split; [|exact I]. right. exists (body1 ++ body2). eexists.
        split; [now reassoc|]. auto.
    + apply (Hnext (BeginTx :: (body1 ++ body2) ++ [TxRollback (List.length (history w))])).
      * congruence.
      * rewrite E2, E1. reassoc. reflexivity.
      * right. exists (body1 ++ body2). eexists. split; [reflexivity|]. auto.
    + exists [BeginTx :: (body1 ++ body2) ++ [TxRollback (List.length (history w))]].
      cbn [fst history List.concat]. rewrite E2, E1, List.app_nil_r. reassoc.
      split; [reflexivity|]. split; [|cbn; lia].
      split; [|exact I]. right. exists (body1 ++ body2). eexists.
      split; [now reassoc|]. auto.
Qed.

(** X4: whatever the server answers, what [RetryableTransaction] sends is
    a sequence of at most [MaxRetries] attempts; each attempt is a
    [BeginTx] that failed, or a [BeginTx] followed by statements and
    queries on that transaction only and ended by a rollback, by a commit,
    or by a failed commit and a rollback.  With [MaxRetries <= 0] nothing
    is sent and the result is zero rows and no error. *)
Theorem X4_RetryableTransaction_attempts ig config stmts w :
  (exists segs,
      history (fst (fst (RetryableTransaction ig config stmts w)))
      = history w ++ List.concat segs
      /\ attemptsOf (server w) (history w) segs
      /\ Z.of_nat (List.length segs) <= Z.max 0 (MaxRetries config))
  /\ (MaxRetries config <= 0 -> RetryableTransaction ig config stmts w = (w, 0, None)).
Proof.
  unfold RetryableTransaction. split.
  - destruct (retryLoop_attempts (Z.to_nat (MaxRetries config)) ig config stmts 0 None w)
      as (segs & E & A & L).
    exists segs. split; [exact E|]. split; [exact A | lia].
  - intros H. replace (Z.to_nat (MaxRetries config)) with O by lia. reflexivity.
Qed.

End RetryFacts.

Section RetryMore.
Import Table Dbconn.

Lemma quiet_app srv ig h seg1 seg2 :
  quiet srv ig h (seg1 ++ seg2) <-> quiet srv ig h seg1 /\ quiet srv ig (h ++ seg1) seg2.
Proof.
  revert h; induction seg1 as [|r seg1 IH]; intros h; cbn [List.app quiet].
  - rewrite List.app_nil_r. tauto.
  - rewrite IH, <- List.app_assoc. cbn [List.app]. tauto.
Qed.

Lemma execAll_quiet tx stmts ig w :
  quiet (server w) ig (history w) (List.map (fun qa => TxExec tx (fst qa) (snd qa)) stmts) ->
  exists w',
    execAll tx stmts w = (w', None)
    /\ server w' = server w
    /\ history w' = history w ++ List.map (fun qa => TxExec tx (fst qa) (snd qa)) stmts.
Proof.
  revert w; induction stmts as [|[q a] stmts IH]; intros w; cbn [execAll List.map quiet fst snd].
  - intros _. exists w. now rewrite List.app_nil_r.
  - intros (He & _ & Hq). unfold call. rewrite He.
    destruct (IH {| server := server w; history := history w ++ [TxExec tx q a] |} Hq)
      as (w' & E & S' & H').
    exists w'. cbn [server history] in *. rewrite H'. reassoc. auto.
Qed.

Lemma execStmts_nonEmpty tx ig stmts ra w :
  execStmts tx ig stmts ra w = execStmts tx ig (nonEmpty stmts) ra w.
Proof.
  revert ra w; induction stmts as [|q stmts IH]; intros ra w; [reflexivity|].
  cbn [nonEmpty List.filter execStmts].
  destruct (String.eqb q "") eqn:Hq; cbn [negb]; [apply IH|].
  cbn [execStmts]. rewrite Hq.
  destruct (call _ w) as [w1 res]. destruct (resp_err res); [reflexivity|].
  destruct (call _ w1) as [w2 wres]. destruct (resp_err wres); [reflexivity|].
  destruct (checkWarnings _ _ _); [reflexivity|]. apply IH.
Qed.

Lemma retryLoop_nonEmpty n ig config stmts ra err w :
  retryLoop n ig config stmts ra err w = retryLoop n ig config (nonEmpty stmts) ra err w.
Proof.
  revert ra err w; induction n as [|n IH]; intros ra err w; [reflexivity|].
  cbn [retryLoop].
  destruct (beginTx w) as [w1 [tx|e]]; [|apply IH].
  destruct (standardizeTrx tx config w1) as [w2 [e|]]; [apply IH|].
  rewrite <- execStmts_nonEmpty.
  destruct (execStmts tx ig stmts ra w2) as [[w3 rows] [|e|e]]; [|apply IH|reflexivity].
  destruct (call (TxCommit tx) w3) as [w4 r]. destruct (resp_err r); [apply IH | reflexivity].
Qed.

(** X6: empty statements are skipped: [RetryableTransaction] and
    [ExecUnderLock] behave on a list of statements as on the list without
    its empty strings. *)
Theorem X6_empty_statements_skipped ig config (l : TableLock) stmts w :
  RetryableTransaction ig config stmts w = RetryableTransaction ig config (nonEmpty stmts) w
  /\ ExecUnderLock l stmts w = ExecUnderLock l (nonEmpty stmts) w.
Proof.
  split; [apply retryLoop_nonEmpty|].
  revert w; induction stmts as [|q stmts IH]; intros w; [reflexivity|].
  cbn [nonEmpty List.filter ExecUnderLock].
  destruct (String.eqb q "") eqn:Hq; cbn [negb]; [apply IH|].
  cbn [ExecUnderLock]. rewrite Hq.
  destruct (call _ w) as [w1 r]. destruct (resp_err r); [reflexivity | apply IH].
Qed.

(** X7: when a statement of an attempt fails, the transaction is rolled
    back right after it and no later statement is sent in that attempt.
    An error that can be retried starts the next attempt, which the rows
    counted so far are carried into; any other error ends the loop at
    once and is returned with the rows counted so far. *)
Theorem X7_statement_error
    (n : nat) (ig : bool) (config : DBConfig) (done : list string) (stmt : string)
    (rest : list string) (ra0 : Z) (err0 : option error) (w : World) :
  stmt <> "" ->
  forall tx w1 w2 w3 ra e,
    beginTx w = (w1, inl tx) ->
    standardizeTrx tx config w1 = (w2, None) ->
    execStmts tx ig done ra0 w2 = (w3, ra, Done) ->
    resp_err (snd (call (TxExec tx stmt []) w3)) = Some e ->
    let w4 := rollback tx (fst (call (TxExec tx stmt []) w3)) in
    history w4 = history w3 ++ [TxExec tx stmt []; TxRollback tx]
    /\ retryLoop (S n) ig config (done ++ stmt :: rest) ra0 err0 w
       = if canRetryError e
         then retryLoop n ig config (done ++ stmt :: rest) ra (Some e) w4
         else (w4, ra, Some e).
Proof.
  intros Hne tx w1 w2 w3 ra e Hb Hs Hd He w4.
  assert (Hq : String.eqb stmt "" = false) by (now apply String.eqb_neq).
  split.
  - unfold w4, rollback. rewrite !call_history. now reassoc.
  - cbn [retryLoop]. rewrite Hb, Hs, execStmts_app, Hd. cbn [execStmts]. rewrite Hq.
    fold w4. destruct (call (TxExec tx stmt []) w3) as [w3' res] eqn:Ec.
    cbn [snd fst] in *. rewrite He. subst w4.
    destruct (canRetryError e); reflexivity.
Qed.

Lemma execStmts_quiet_rows tx ig stmts ra w :
  quiet (server w) ig (history w)
    (List.flat_map (fun q => [TxExec tx q []; TxQuery tx "SHOW WARNINGS"]) (nonEmpty stmts)) ->
  exists w',
    execStmts tx ig stmts ra w
    = (w', ra + reportedRows (server w) tx (history w) stmts, Done)
    /\ server w' = server w
    /\ history w' = history w
         ++ List.flat_map (fun q => [TxExec tx q []; TxQuery tx "SHOW WARNINGS"]) (nonEmpty stmts).
Proof.
  revert ra w; induction stmts as [|q stmts IH]; intros ra w;
    cbn [execStmts nonEmpty List.filter reportedRows].
  - intros _. exists w. cbn. rewrite List.app_nil_r, Z.add_0_r. auto.
  - destruct (String.eqb q "") eqn:Hq; cbn [negb]; [apply IH|].
    cbn [List.flat_map List.app quiet].
    intros (He & _ & Hw & Hrows & Hrest).
    unfold call. cbn [server history]. rewrite He, Hw.
    apply checkWarnings_None with (stmt := q) in Hrows. rewrite Hrows.
    match goal with |- context [execStmts tx ig stmts ?r ?x] =>
      destruct (IH r x) as (w' & E & S' & H') end.
    { cbn [server history]. now reassoc. }
    exists w'. cbn [server history] in *. rewrite E, H'. reassoc. cbn [List.app].
    split; [|auto]. f_equal. f_equal.
    destruct (resp_rowsAffected _); lia.
Qed.

(** X5: with [MaxRetries] positive, on a server that answers the
    requests of the first attempt without error and with tolerated
    warnings only, [RetryableTransaction] sends exactly that attempt
    (begin, the session settings, each non-empty statement followed by
    [SHOW WARNINGS], commit), returns no error, and returns as rows
    affected the sum of the counts the server reported for the
    statements. *)
Theorem X5_RetryableTransaction_first_attempt ig config stmts w :
  0 < MaxRetries config ->
  let tx := List.length (history w) in
  quiet (server w) ig (history w) (committedAttempt tx config stmts) ->
  exists w',
    RetryableTransaction ig config stmts w
    = (w',
       reportedRows (server w) tx
         (history w ++ BeginTx
            :: List.map (fun qa => TxExec tx (fst qa) (snd qa)) (standardizeStmts config))
         stmts,
       None)
    /\ history w' = history w ++ committedAttempt tx config stmts.
Proof.
  intros Hpos tx Hq. unfold RetryableTransaction.
  destruct (Z.to_nat (MaxRetries config)) as [|n] eqn:En; [lia|].
  unfold committedAttempt in *. cbn [quiet] in Hq. destruct Hq as (Hb & _ & Hq).
  apply quiet_app in Hq as [Hs Hq]. apply quiet_app in Hq as [Hx Hc].
  cbn [quiet] in Hc. destruct Hc as (Hc & _).
  cbn [retryLoop]. unfold beginTx, call. cbn [server history]. rewrite Hb.
  unfold standardizeTrx. fold tx.
  destruct (execAll_quiet tx (standardizeStmts config) ig
              {| server := server w; history := history w ++ [BeginTx] |} Hs)
    as (w2 & E2 & S2 & H2).
  rewrite E2. cbn [server history] in S2, H2.
  destruct (execStmts_quiet_rows tx ig stmts 0 w2) as (w3 & E3 & S3 & H3).
  { rewrite S2, H2. exact Hx. }
  rewrite E3. unfold call. rewrite S3, S2, H3, H2. reassoc. cbn [List.app] in *.
  reassoc. rewrite Hc.
  eexists. split; [reflexivity|]. cbn [history]. now reassoc.
Qed.

(** X8: [DBExec] and [BeginStandardTrx] never end the transaction they
    begin: whatever the server answers, also on their error paths, they
    send no commit and no rollback. *)
Theorem X8_transaction_left_open config query w :
  (exists seg,
      history (fst (DBExec config query w)) = history w ++ seg /\ ended seg = [])
  /\ (exists seg,
        history (fst (BeginStandardTrx config w)) = history w ++ seg /\ ended seg = []).
Proof.
  assert (Hb : forall tx body, Forall (onTx tx) body -> ended body = []).
  { intros tx body F. induction F as [|r body Hr _ IH]; [reflexivity|].
    unfold ended in *. cbn [List.flat_map]. rewrite IH.
    destruct r; cbn in Hr; try contradiction; reflexivity. }
  split.
  - unfold DBExec, beginTx, call. cbn [server history].
    destruct (resp_err (server w (history w) BeginTx)).
    { exists [BeginTx]. split; reflexivity. }
    unfold standardizeTrx.
    match goal with |- context [execAll ?t ?s ?x] =>
      destruct (execAll_onTx t s x) as (body & E & F);
      destruct (execAll t s x) as [w2 r2] end.
    cbn [fst history] in E. apply Hb in F.
    destruct r2 as [e|].
    + exists (BeginTx :: body). cbn [fst]. rewrite E. reassoc.
      split; [reflexivity | exact F].
    + exists (BeginTx :: body ++ [TxExec (List.length (history w)) query []]).
      cbn [fst history]. rewrite E. reassoc. split; [reflexivity|].
      unfold ended in *. cbn [List.flat_map List.app]. rewrite List.flat_map_app, F. reflexivity.
  - unfold BeginStandardTrx, beginTx, call. cbn [server history].
    destruct (resp_err (server w (history w) BeginTx)).
    { exists [BeginTx]. split; reflexivity. }
    unfold standardizeTrx.
    match goal with |- context [execAll ?t ?s ?x] =>
      destruct (execAll_onTx t s x) as (body & E & F);
      destruct (execAll t s x) as [w2 r2] end.
    cbn [fst history] in E. apply Hb in F.
    destruct r2 as [e|].
    + exists (BeginTx :: body). cbn [fst]. rewrite E. reassoc.
      split; [reflexivity | exact F].
    + exists (BeginTx :: body ++ [TxQuery (List.length (history w)) "SELECT CONNECTION_ID()"]).
      split.
      * destruct (resp_err _); cbn [fst history]; rewrite E; now reassoc.
      * unfold ended in *. cbn [List.flat_map List.app]. rewrite List.flat_map_app, F.
        reflexivity.
Qed.

(** X9: [ExecUnderLock] stops at the first statement that fails: when it
    returns an error, the non-empty statements before the failing one were
    sent on the lock's transaction and answered without error, the
    failing one was sent last, its error is the one returned, and nothing
    after it was sent. *)
Theorem X9_ExecUnderLock_stops_at_first_error (l : TableLock) stmts w w' e :
  ExecUnderLock l stmts w = (w', Some e) ->
  exists sent q more,
    nonEmpty stmts = sent ++ q :: more
    /\ history w' = history w ++ List.map (fun q => TxExec (lockTxn l) q []) (sent ++ [q])
    /\ allOk (server w) (history w) (List.map (fun q => TxExec (lockTxn l) q []) sent)
    /\ resp_err (server w (history w ++ List.map (fun q => TxExec (lockTxn l) q []) sent)
                   (TxExec (lockTxn l) q []))
       = Some e.
Proof.
  revert w; induction stmts as [|q stmts IH]; intros w; cbn [ExecUnderLock nonEmpty List.filter].
  - discriminate.
  - destruct (String.eqb q "") eqn:Hq; cbn [negb]; [apply IH|].
    unfold call. destruct (resp_err (server w (history w) (TxExec (lockTxn l) q []))) as [e0|] eqn:He.
    + intros [= <- <-]. exists [], q, (nonEmpty stmts). cbn [List.app List.map allOk history].
      rewrite List.app_nil_r. auto.
    + intros H. apply IH in H as (sent & q' & more & E1 & E2 & A & R).
      cbn [server history] in *.
      exists (q :: sent), q', more. cbn [List.app List.map allOk].
      unfold nonEmpty in E1. rewrite E1, E2. reassoc. cbn [List.app] in *. auto.
Qed.

End RetryMore.

(** ** Facts about [pkg/repl]: the order of the delta queue *)
Section QueueOrderFacts.
Import Table Dbconn Repl.
Context {any : Type} (Sprintf_v : any -> string).
Context (QuoteColumns : list string -> string).
Context (pksToRowValueConstructor : list string -> string).

Local Notation subscription := (@subscription any).
Local Notation flushDeltaQueue := (@flushDeltaQueue any QuoteColumns pksToRowValueConstructor).
Local Notation stmtOfRun := (@stmtOfRun any QuoteColumns pksToRowValueConstructor).
Local Notation runText := (@runText any QuoteColumns pksToRowValueConstructor).
Local Notation keyHasChanged := (@keyHasChanged any Sprintf_v).
Local Notation keysHaveChanged := (@keysHaveChanged any Sprintf_v).
Local Notation intentOf := (@intentOf any Sprintf_v).

(** Events handed over in the order of the log end up in the queue in
    that order, behind what the queue held; the events above the watermark
    are the only ones left out. *)
Lemma keysHaveChanged_queue (s : subscription) events :
  disableDeltaMap s = true ->
  Forall (fun e => keyIsAboveWatermark s (fst e) <> None) events ->
  exists s',
    keysHaveChanged s events = Some s'
    /\ s' = setDeltaQueue
              (deltaQueue s ++ List.map intentOf (List.filter (belowWatermark s) events)) s.
Proof.
  intros Hmode. revert s Hmode.
  induction events as [|[k deleted] events IH]; intros s Hmode Hev;
    cbn [Repl.keysHaveChanged List.filter List.map].
  - exists s. split; [reflexivity|]. rewrite List.app_nil_r. now destruct s.
  - inversion Hev as [|e evs Hk Hrest]; subst. cbn [fst] in Hk.
    unfold Repl.keyHasChanged, belowWatermark at 1. cbn [fst].
    destruct (keyIsAboveWatermark s k) as [[|]|] eqn:Ek; [| |congruence].
    + apply IH; assumption.
    + rewrite Hmode.
      set (s1 := setDeltaQueue _ s).
      destruct (IH s1) as (s' & E & Hs'); [exact Hmode | exact Hrest |].
      exists s'. split; [exact E|]. rewrite Hs'.
      rewrite (List.filter_ext (belowWatermark s1) (belowWatermark s)) by reflexivity.
      unfold s1, setDeltaQueue.
      cbn [deltaQueue table newTable disableDeltaMap deltaMap
           enableKeyAboveWatermark keyAboveCopierCallback List.map].
      now rewrite <- List.app_assoc.
Qed.

(** A run that holds a key gives a statement that is not empty, with the
    text of its kind. *)
Lemma stmtOfRun_text (s : subscription) (run : bool * list string) :
  (0 < List.length (snd run))%nat ->
  stmt (stmtOfRun s run) = runText s run
  /\ String.eqb (stmt (stmtOfRun s run)) "" = false.
Proof.
  destruct run as [[|] [|k keys]]; cbn [snd List.length]; intros H; try lia;
    split; reflexivity.
Qed.

Lemma extractStmt_text (s : subscription) (runs : list (bool * list string)) :
  Forall (fun r => (0 < List.length (snd r))%nat) runs ->
  extractStmt (List.map (stmtOfRun s) runs) = List.map (runText s) runs
  /\ nonEmpty (extractStmt (List.map (stmtOfRun s) runs))
     = extractStmt (List.map (stmtOfRun s) runs).
Proof.
  induction 1 as [|r runs Hr _ [IH1 IH2]]; [split; reflexivity|].
  destruct (stmtOfRun_text s r Hr) as [E1 E2].
  unfold extractStmt, nonEmpty in *. cbn [List.map List.filter].
  rewrite E2. cbn [negb]. rewrite IH2, <- IH1, E1. split; reflexivity.
Qed.

(** What [ExecUnderLock] has done when it returns: it sent a prefix of the
    non-empty statements, in order, on the lock's connection; without an
    error that prefix is all of them and each was answered without error;
    with an error the last statement sent is the one that failed. *)
Lemma ExecUnderLock_result (l : TableLock) stmts w w' r :
  ExecUnderLock l stmts w = (w', r) ->
  exists sent more,
    nonEmpty stmts = sent ++ more
    /\ history w' = history w ++ List.map (fun q => TxExec (lockTxn l) q []) sent
    /\ match r with
       | None =>
           more = []
           /\ allOk (server w) (history w) (List.map (fun q => TxExec (lockTxn l) q []) sent)
       | Some e =>
           exists sent0 q,
             sent = sent0 ++ [q]
             /\ allOk (server w) (history w)
                  (List.map (fun q => TxExec (lockTxn l) q []) sent0)
             /\ resp_err (server w
                            (history w ++ List.map (fun q => TxExec (lockTxn l) q []) sent0)
                            (TxExec (lockTxn l) q []))
                = Some e
       end.
Proof.
  revert w; induction stmts as [|q stmts IH]; intros w; cbn [ExecUnderLock nonEmpty List.filter].
  - intros [= <- <-]. exists [], []. cbn. rewrite List.app_nil_r. auto.
  - destruct (String.eqb q "") eqn:Hq; cbn [negb]; [apply IH|].
    unfold call.
    destruct (resp_err (server w (history w) (TxExec (lockTxn l) q []))) as [e0|] eqn:He.
    + intros [= <- <-]. exists [q], (nonEmpty stmts). cbn [List.app List.map history].
      repeat split. exists [], q. cbn [List.app List.map allOk].
      rewrite List.app_nil_r. auto.
    + intros H. apply IH in H as (sent & more & E1 & E2 & R). cbn [server history] in *.
      exists (q :: sent), more. unfold nonEmpty in E1. rewrite E1, E2.
      cbn [List.app List.map]. reassoc. cbn [List.app].
      split; [reflexivity|]. split; [reflexivity|].
      destruct r as [e|].
      * destruct R as (sent0 & q' & -> & A & Rq). exists (q :: sent0), q'.
        cbn [List.app List.map allOk]. reassoc. cbn [List.app] in *. auto.
      * destruct R as [-> A]. cbn [allOk]. auto.
Qed.

(** On a server that answers the requests of the first attempt without
    error and with tolerated warnings only, [RetryableTransaction] sends
    that attempt and nothing else, and returns no error. *)
Lemma RetryableTransaction_quiet ig config stmts w :
  0 < MaxRetries config ->
  quiet (server w) ig (history w) (committedAttempt (List.length (history w)) config stmts) ->
  exists w' ra,
    RetryableTransaction ig config stmts w = (w', ra, None)
    /\ history w' = history w ++ committedAttempt (List.length (history w)) config stmts.
Proof.
  intros Hpos Hq. unfold RetryableTransaction.
  destruct (Z.to_nat (MaxRetries config)) as [|n] eqn:En; [lia|].
  unfold committedAttempt in *. cbn [quiet] in Hq. destruct Hq as (Hb & _ & Hq).
  apply quiet_app in Hq as [Hs Hq]. apply quiet_app in Hq as [Hx Hc].
  cbn [quiet] in Hc. destruct Hc as (Hc & _).
  cbn [retryLoop]. unfold beginTx, call. cbn [server history]. rewrite Hb.
  unfold standardizeTrx.
  destruct (execAll_quiet (List.length (history w)) (standardizeStmts config) ig
              {| server := server w; history := history w ++ [BeginTx] |} Hs)
    as (w2 & E2 & S2 & H2).
  rewrite E2. cbn [server history] in S2, H2.
  destruct (execStmts_quiet_rows (List.length (history w)) ig stmts 0 w2) as (w3 & E3 & S3 & H3).
  { rewrite S2, H2. exact Hx. }
  rewrite E3. unfold call. rewrite S3, S2, H3, H2. reassoc. cbn [List.app] in *.
  reassoc. rewrite Hc.
  eexists. eexists. split; [reflexivity|]. cbn [history]. now reassoc.
Qed.

(** C8: in queue mode the row events handed to [keyHasChanged] in the
    order of the binary log are appended to the queue in that order (an
    event above the watermark is the only one left out).  At flush time
    the queue is cut into runs that, spelled out, are the queue itself;
    runs that follow each other differ in kind unless the first had grown
    beyond the target, so a run holds between one and [target + 1] keys.
    Each run gives one statement, none of them empty: a DELETE for a run
    of deletes and a REPLACE otherwise, over the keys of the run.  Under
    the lock these statements are sent one after the other on the lock's
    connection, in the order of the runs, up to the first one that fails:
    without an error all of them were sent and the queue is emptied, with
    an error the last one sent is the one that failed and the queue is
    kept.  Without the lock everything is sent in attempts that follow
    each other, each on one transaction of its own; a flush that succeeds
    ends with one committed transaction that holds all the statements in
    order, and on a server that answers the first attempt without error
    the flush is that one transaction. *)
Theorem C8_queue_flush_order
    (target : Z) (dbConfig : DBConfig) (s : subscription) (lock : TableLock) (w : World) :
  disableDeltaMap s = true ->
  0 <= target ->
  0 < MaxRetries dbConfig ->
  let runs := queueRuns target (deltaQueue s) in
  let stmts := extractStmt (List.map (stmtOfRun s) runs) in
  let onLock := List.map (fun q => TxExec (lockTxn lock) q []) in
  (forall events,
      Forall (fun e => keyIsAboveWatermark s (fst e) <> None) events ->
      exists s',
        keysHaveChanged s events = Some s'
        /\ s' = setDeltaQueue
                  (deltaQueue s ++ List.map intentOf (List.filter (belowWatermark s) events)) s)
  /\ List.flat_map expandRun runs = deltaQueue s
  /\ chained target runs
  /\ Forall (fun r => 0 < Z.of_nat (List.length (snd r)) <= target + 1) runs
  /\ stmts = List.map (runText s) runs
  /\ nonEmpty stmts = stmts
  /\ (deltaQueue s <> [] ->
      (forall w' s' r,
          flushDeltaQueue target dbConfig s true lock w = (w', s', r) ->
          exists sent more,
            stmts = sent ++ more
            /\ history w' = history w ++ onLock sent
            /\ match r with
               | None =>
                   more = [] /\ allOk (server w) (history w) (onLock sent)
                   /\ s' = setDeltaQueue [] s
               | Some e =>
                   s' = s
                   /\ exists sent0 q,
                        sent = sent0 ++ [q]
                        /\ allOk (server w) (history w) (onLock sent0)
                        /\ resp_err (server w (history w ++ onLock sent0)
                                       (TxExec (lockTxn lock) q []))
                           = Some e
               end)
      /\ (forall w' s' r,
            flushDeltaQueue target dbConfig s false lock w = (w', s', r) ->
            (exists segs,
                history w' = history w ++ List.concat segs
                /\ attemptsOf (server w) (history w) segs
                /\ Z.of_nat (List.length segs) <= MaxRetries dbConfig)
            /\ match r with
               | None =>
                   s' = setDeltaQueue [] s
                   /\ ranInTransaction (server w) dbConfig stmts (history w) (history w')
               | Some _ => s' = s
               end
            /\ (quiet (server w) true (history w)
                  (committedAttempt (List.length (history w)) dbConfig stmts) ->
                r = None
                /\ history w'
                   = history w ++ committedAttempt (List.length (history w)) dbConfig stmts))).
Proof.
  intros Hmode Ht Hpos runs stmts onLock.
  assert (Hsizes : Forall (fun r => 0 < Z.of_nat (List.length (snd r)) <= target + 1) runs)
    by now apply queueRuns_sizes.
  assert (Htext : stmts = List.map (runText s) runs /\ nonEmpty stmts = stmts).
  { apply extractStmt_text. eapply List.Forall_impl; [|exact Hsizes]. cbn. intros; lia. }
  destruct Htext as [Htext Hfull].
  split; [|split; [|split; [|split; [|split; [|split]]]]];
    [intros events Hev; now apply keysHaveChanged_queue | apply queueRuns_expand | apply queueRuns_chained
    | exact Hsizes | exact Htext | exact Hfull |].
  intros Hne. split.
  - intros w' s' r. unfold Repl.flushDeltaQueue.
    destruct (deltaQueue s) as [|c q] eqn:Hq; [congruence|].
    fold runs. fold stmts.
    pose proof (ExecUnderLock_result lock stmts w) as Hres.
    destruct (ExecUnderLock lock stmts w) as [w1 r1].
    destruct (Hres w1 r1 eq_refl) as (sent & more & E1 & E2 & R). rewrite Hfull in E1.
    destruct r1 as [e|]; intros [= <- <- <-]; exists sent, more;
      (split; [exact E1|]); (split; [exact E2|]).
    + split; [reflexivity | exact R].
    + destruct R as [-> A]. auto.
  - intros w' s' r. unfold Repl.flushDeltaQueue.
    destruct (deltaQueue s) as [|c q] eqn:Hq; [congruence|].
    fold runs. fold stmts.
    pose proof (retryLoop_attempts (Z.to_nat (MaxRetries dbConfig)) true dbConfig stmts 0 None w)
      as (segs & Eh & A & L).
    pose proof (RetryableTransaction_ok true dbConfig stmts w) as Hok.
    pose proof (RetryableTransaction_quiet true dbConfig stmts w Hpos) as Hquiet.
    unfold RetryableTransaction in *.
    destruct (retryLoop _ true dbConfig stmts 0 None w) as [[w1 ra] r1].
    cbn [fst] in Eh.
    assert (Hsegs : exists segs0,
               history w1 = history w ++ List.concat segs0
               /\ attemptsOf (server w) (history w) segs0
               /\ Z.of_nat (List.length segs0) <= MaxRetries dbConfig).
    { exists segs. split; [exact Eh|]. split; [exact A | lia]. }
    assert (Hq' : quiet (server w) true (history w)
                    (committedAttempt (List.length (history w)) dbConfig stmts) ->
                  r1 = None
                  /\ history w1
                     = history w ++ committedAttempt (List.length (history w)) dbConfig stmts).
    { intros Q. destruct (Hquiet Q) as (w2 & ra2 & [= -> -> ->] & H2). auto. }
    destruct r1 as [e|]; intros [= <- <- <-].
    + split; [exact Hsegs|]. split; [reflexivity | exact Hq'].
    + split; [exact Hsegs|]. split; [|exact Hq'].
      split; [reflexivity|]. now apply (Hok w1 ra).
Qed.

End QueueOrderFacts.

Section QueueOrderExamples.
Import Table Dbconn Repl Fixtures.

Lemma C8_queue_flush_order_witness :
  (exists s',
      keysHaveChanged id (queueSub [])
        [(["1"], false); (["2"], false); (["3"], true); (["4"], false)]
      = Some s'
      /\ deltaQueue s' = [ups "1"; ups "2"; del "3"; ups "4"])
  /\ (exists w',
        flushDeltaQueue quoteColumns rowValues 2 NewDBConfig
          (queueSub [ups "1"; ups "2"; del "3"; ups "4"]) true lock0 (world0 okServer)
        = (w', queueSub [], None)
        /\ history w'
           = [TxExec 0 "REPLACE INTO `test`.`_t1_new` (`id`, `name`) SELECT `id`, `name` FROM `test`.`t1` FORCE INDEX (PRIMARY) WHERE (`id`) IN ('1','2')" [];
              TxExec 0 "DELETE FROM `test`.`_t1_new` WHERE (`id`) IN ('3')" [];
              TxExec 0 "REPLACE INTO `test`.`_t1_new` (`id`, `name`) SELECT `id`, `name` FROM `test`.`t1` FORCE INDEX (PRIMARY) WHERE (`id`) IN ('4')" []]).
Proof.
  assert (Ht : 0 <= 2) by discriminate.
  assert (Hpos : 0 < MaxRetries NewDBConfig) by reflexivity.
  split.
  - destruct (proj1 (C8_queue_flush_order id quoteColumns rowValues 2 NewDBConfig
                       (queueSub []) lock0 (world0 okServer) eq_refl Ht Hpos)
                [(["1"], false); (["2"], false); (["3"], true); (["4"], false)])
      as (s' & E & Hs').
    + repeat constructor; discriminate.
    + exists s'. split; [exact E|]. rewrite Hs'. reflexivity.
  - pose (s := queueSub [ups "1"; ups "2"; del "3"; ups "4"]).
    pose (res := flushDeltaQueue quoteColumns rowValues 2 NewDBConfig s true lock0
                   (world0 okServer)).
    assert (Hne : deltaQueue s <> []) by discriminate.
    destruct (proj1 (proj2 (proj2 (proj2 (proj2 (proj2 (proj2
                (C8_queue_flush_order id quoteColumns rowValues 2 NewDBConfig s lock0
                   (world0 okServer) eq_refl Ht Hpos)))))) Hne)
                (fst (fst res)) (snd (fst res)) None eq_refl)
      as (sent & more & E1 & E2 & -> & _ & Hs).
    exists (fst (fst res)). split.
    + rewrite (surjective_pairing res), (surjective_pairing (fst res)). now rewrite Hs.
    + rewrite List.app_nil_r in E1. rewrite E2, <- E1. reflexivity.
Defined.

End QueueOrderExamples.

(** ** More facts about the subscriptions of [pkg/repl] *)
Section DeltaFacts.
Import Table Dbconn Repl.
Context {any : Type} (Sprintf_v : any -> string).
Context (QuoteColumns : list string -> string).
Context (pksToRowValueConstructor : list string -> string).

Local Notation subscription := (@subscription any).
Local Notation keyHasChanged := (@keyHasChanged any Sprintf_v).
Local Notation batchMap := (@batchMap any QuoteColumns pksToRowValueConstructor).
Local Notation flushDeltaMap := (@flushDeltaMap any QuoteColumns pksToRowValueConstructor).
Local Notation flush := (@flush any QuoteColumns pksToRowValueConstructor).
Local Notation createDeleteStmt := (@createDeleteStmt any QuoteColumns pksToRowValueConstructor).
Local Notation createReplaceStmt := (@createReplaceStmt any QuoteColumns pksToRowValueConstructor).

(** X10: a change whose key is not above the watermark is always
    buffered, and the length of the delta grows by one, except in map mode
    when the key is in the map already, where it stays as it is. *)
Theorem X10_keyHasChanged_delta_len (s : subscription) (k : list any) (deleted : bool) :
  keyIsAboveWatermark s k = Some false ->
  exists s',
    keyHasChanged s k deleted = Some s'
    /\ getDeltaLen s'
       = getDeltaLen s
         + (if disableDeltaMap s then 1
            else match deltaMap s !! Utils.HashKey Sprintf_v k with
                 | Some _ => 0
                 | None => 1
                 end).
Proof.
  intros H. unfold Repl.keyHasChanged. rewrite H.
  unfold getDeltaLen. destruct (disableDeltaMap s) eqn:Hm.
  - eexists. split; [reflexivity|]. cbn [disableDeltaMap setDeltaQueue deltaQueue].
    rewrite Hm, List.length_app. cbn [List.length]. lia.
  - eexists. split; [reflexivity|]. cbn [disableDeltaMap setDeltaMap deltaMap]. rewrite Hm.
    destruct (deltaMap s !! Utils.HashKey Sprintf_v k) as [d|] eqn:E.
    + rewrite <- (insert_delete_id (deltaMap s) _ _ E) at 2.
      rewrite <- insert_delete_eq.
      rewrite !map_size_insert_None by apply lookup_delete_eq. lia.
    + rewrite map_size_insert_None by exact E. lia.
Qed.

(** X11: in map mode (optimization off) the last change of a key wins: a
    second change of the same key has the effect of that change alone,
    and changes of keys with different hashes can be swapped. *)
Theorem X11_keyHasChanged_map_overwrites (s : subscription) (k1 k2 : list any) (d1 d2 : bool) :
  disableDeltaMap s = false ->
  enableKeyAboveWatermark s = false ->
  exists s1 s2,
    keyHasChanged s k1 d1 = Some s1
    /\ keyHasChanged s1 k2 d2 = Some s2
    /\ deltaMap s2 !! Utils.HashKey Sprintf_v k2 = Some d2
    /\ (Utils.HashKey Sprintf_v k1 = Utils.HashKey Sprintf_v k2 ->
        keyHasChanged s k2 d2 = Some s2)
    /\ (Utils.HashKey Sprintf_v k1 <> Utils.HashKey Sprintf_v k2 ->
        deltaMap s2 !! Utils.HashKey Sprintf_v k1 = Some d1
        /\ exists s1',
            keyHasChanged s k2 d2 = Some s1' /\ keyHasChanged s1' k1 d1 = Some s2).
Proof.
  intros Hm Hoff.
  assert (Hoff' : forall (x : subscription) m,
             enableKeyAboveWatermark (setDeltaMap m x) = enableKeyAboveWatermark x) by reflexivity.
  rewrite !keyHasChanged_disabled by assumption.
  eexists. eexists. split; [reflexivity|].
  rewrite !keyHasChanged_disabled
    by (unfold buffered; rewrite ?Hm; cbn [enableKeyAboveWatermark setDeltaMap]; assumption).
  split; [reflexivity|].
  unfold buffered. rewrite Hm. cbn [disableDeltaMap setDeltaMap deltaMap]. rewrite Hm.
  cbn [setDeltaMap deltaMap table newTable disableDeltaMap deltaQueue
       enableKeyAboveWatermark keyAboveCopierCallback].
  split; [apply lookup_insert_eq|]. split.
  - intros ->. now rewrite insert_insert_eq.
  - intros Hne. split.
    + rewrite lookup_insert_ne by congruence. apply lookup_insert_eq.
    + eexists. split; [reflexivity|].
      rewrite keyHasChanged_disabled by assumption.
      unfold buffered. cbn [disableDeltaMap setDeltaMap deltaMap]. rewrite Hm.
      cbn [setDeltaMap deltaMap table newTable disableDeltaMap deltaQueue
           enableKeyAboveWatermark keyAboveCopierCallback].
      now rewrite insert_insert_ne by congruence.
Qed.

End DeltaFacts.

Section BatchFacts.
Import Table Dbconn Repl.
Context {any : Type}.
Context (QuoteColumns : list string -> string).
Context (pksToRowValueConstructor : list string -> string).

Local Notation subscription := (@subscription any).
Local Notation batchMap := (@batchMap any QuoteColumns pksToRowValueConstructor).
Local Notation flushDeltaMap := (@flushDeltaMap any QuoteColumns pksToRowValueConstructor).
Local Notation flushDeltaMapIn := (@flushDeltaMapIn any QuoteColumns pksToRowValueConstructor).
Local Notation flush := (@flush any QuoteColumns pksToRowValueConstructor).
Local Notation createDeleteStmt := (@createDeleteStmt any QuoteColumns pksToRowValueConstructor).
Local Notation createReplaceStmt := (@createReplaceStmt any QuoteColumns pksToRowValueConstructor).

Lemma rem_succ i target :
  0 < target -> 0 <= i ->
  Z.rem (i + 1) target = (if Z.rem i target + 1 =? target then 0 else Z.rem i target + 1).
Proof.
  intros Ht Hi. rewrite !Z.rem_mod_nonneg by lia.
  pose proof (Z.mod_pos_bound i target Ht) as B.
  rewrite <- Z.add_mod_idemp_l by lia.
  destruct (Z.eqb_spec (i mod target + 1) target) as [E|N].
  - rewrite E. apply Z.mod_same. lia.
  - apply Z.mod_small. lia.
Qed.

Lemma rem_succ_zero i target c :
  0 < target -> 0 <= i -> c = Z.rem i target -> Z.rem (i + 1) target = 0 -> c + 1 = target.
Proof.
  intros Ht Hi -> H. rewrite rem_succ in H by assumption.
  destruct (Z.eqb_spec (Z.rem i target + 1) target) as [E|N]; [exact E|].
  pose proof (Z.rem_nonneg i target ltac:(lia) Hi). lia.
Qed.

Lemma rem_succ_nonzero i target c :
  0 < target -> 0 <= i -> c = Z.rem i target -> Z.rem (i + 1) target <> 0 ->
  c + 1 = Z.rem (i + 1) target.
Proof.
  intros Ht Hi -> H. rewrite rem_succ in * by assumption.
  destruct (Z.eqb_spec (Z.rem i target + 1) target) as [E|N]; [congruence | reflexivity].
Qed.

(** The batches of the loop: every batch but the last one is cut when it
    holds [target] keys, and the keys come out in the order of the
    iteration, split by kind. *)
Lemma batchMap_groups (s : subscription) target entries i dk rk :
  0 < target -> 0 <= i ->
  Z.of_nat (List.length dk + List.length rk) = Z.rem i target ->
  exists full last,
    batchMap s target entries i dk rk
    = Some (List.flat_map (fun g => [createDeleteStmt s (fst g); createReplaceStmt s (snd g)])
              (full ++ [last]))
    /\ List.concat (List.map fst (full ++ [last]))
       = dk ++ List.map fst (List.filter snd entries)
    /\ List.concat (List.map snd (full ++ [last]))
       = rk ++ List.map fst (List.filter (fun e => negb (snd e)) entries)
    /\ Forall (fun g => Z.of_nat (List.length (fst g) + List.length (snd g)) = target) full
    /\ Z.of_nat (List.length (fst last) + List.length (snd last)) < target.
Proof.
  intros Ht. revert i dk rk; induction entries as [|[k d] entries IH]; intros i dk rk Hi Hc;
    cbn [Repl.batchMap].
  - exists [], (dk, rk). cbn [List.app List.flat_map List.map List.concat List.filter fst snd].
    rewrite !List.app_nil_r. repeat split; auto.
    rewrite Hc. rewrite Z.rem_mod_nonneg by lia. apply Z.mod_pos_bound. lia.
  - assert (Hz : (target =? 0) = false) by (apply Z.eqb_neq; lia). rewrite Hz.
    set (dk' := if d then dk ++ [k] else dk).
    set (rk' := if d then rk else rk ++ [k]).
    assert (Hsz : Z.of_nat (List.length dk' + List.length rk')
                  = Z.of_nat (List.length dk + List.length rk) + 1).
    { unfold dk', rk'. destruct d; rewrite List.length_app; cbn [List.length]; lia. }
    destruct (Z.rem (i + 1) target =? 0) eqn:Hr.
    + apply Z.eqb_eq in Hr.
      destruct (IH (i + 1) [] []) as (full & last & E & D & R & F & L);
        [lia | now rewrite Hr |].
      exists ((dk', rk') :: full), last. rewrite E.
      cbn [option_map List.app List.flat_map List.map List.concat fst snd List.filter].
      rewrite D, R. cbn [List.app]. unfold dk', rk'.
      split; [reflexivity|]. split; [destruct d; cbn [negb List.map fst]; now reassoc|].
      split; [destruct d; cbn [negb List.map fst List.app]; now reassoc|].
      split; [|exact L]. constructor; [|exact F]. cbn [fst snd].
      fold dk' rk'. rewrite Hsz. eapply rem_succ_zero; eauto.
    + apply Z.eqb_neq in Hr.
      destruct (IH (i + 1) dk' rk') as (full & last & E & D & R & F & L); [lia| |].
      { rewrite Hsz. eapply rem_succ_nonzero; eauto. }
      exists full, last. rewrite E, D, R. unfold dk', rk'.
      cbn [List.filter snd].
      split; [reflexivity|]. split; [destruct d; cbn [negb List.map fst List.app]; now reassoc|].
      split; [destruct d; cbn [negb List.map fst List.app]; now reassoc|].
      split; assumption.
Qed.

Lemma In_keys_of_kind (m : gmap string bool) (d : bool) (k : string) :
  In k (List.map fst (List.filter (fun e => Bool.eqb (snd e) d) (map_to_list m)))
  <-> m !! k = Some d.
Proof.
  rewrite List.in_map_iff. split.
  - intros ([k' v] & <- & Hin). apply List.filter_In in Hin as [Hin Hv].
    cbn [fst snd] in *. apply Bool.eqb_prop in Hv. subst v.
    apply list_elem_of_In in Hin. now apply elem_of_map_to_list in Hin.
  - intros H. exists (k, d). split; [reflexivity|]. apply List.filter_In. split.
    + apply list_elem_of_In. now apply elem_of_map_to_list.
    + apply Bool.eqb_reflx.
Qed.

Lemma List_filter_sublist {A} (p : A -> bool) (l : list A) :
  sublist (List.filter p l) l.
Proof.
  induction l as [|a l IH]; cbn [List.filter]; [constructor|].
  destruct (p a); now constructor.
Qed.

Lemma NoDup_keys_filter (m : gmap string bool) (p : string * bool -> bool) :
  List.NoDup (List.map fst (List.filter p (map_to_list m))).
Proof.
  apply NoDup_ListNoDup.
  eapply sublist_NoDup; [apply (NoDup_fst_map_to_list m)|].
  apply (fmap_sublist fst). apply List_filter_sublist.
Qed.

(** X12: with a positive target batch size the statements of
    [flushDeltaMap] come in groups of one DELETE and one REPLACE; every
    group but the last holds exactly [target] keys, the last one fewer;
    the deleted keys of all groups are the keys the map marks as deleted,
    the replaced ones are the others, and no key is taken twice. *)
Theorem X12_flushDeltaMap_batches (s : subscription) (target : Z) (underLock : bool)
    (lock : TableLock) (w : World) :
  0 < target ->
  exists full last,
    let groups := full ++ [last] in
    let stmts :=
      List.flat_map (fun g => [createDeleteStmt s (fst g); createReplaceStmt s (snd g)])
        groups in
    flushDeltaMap target s underLock lock w
    = (let '(w1, err) :=
         if underLock then ExecUnderLock lock (extractStmt stmts) w else execGroup stmts w in
       match err with
       | Some e => Some (w1, s, Some e)
       | None => Some (w1, setDeltaMap ∅ s, None)
       end)
    /\ (forall k, In k (List.concat (List.map fst groups)) <-> deltaMap s !! k = Some true)
    /\ (forall k, In k (List.concat (List.map snd groups)) <-> deltaMap s !! k = Some false)
    /\ List.NoDup (List.concat (List.map fst groups))
    /\ List.NoDup (List.concat (List.map snd groups))
    /\ Forall (fun g => Z.of_nat (List.length (fst g) + List.length (snd g)) = target) full
    /\ Z.of_nat (List.length (fst last) + List.length (snd last)) < target.
Proof.
  intros Ht.
  destruct (batchMap_groups s target (map_to_list (deltaMap s)) 0 [] [] Ht)
    as (full & last & E & D & R & F & L); [lia | reflexivity |].
  exists full, last. cbv zeta. cbn [List.app] in D, R.
  assert (Ef : forall l : list (string * bool),
             List.filter snd l = List.filter (fun e => Bool.eqb (snd e) true) l).
  { intros l. apply List.filter_ext. intros [? []]; reflexivity. }
  assert (Eg : forall l : list (string * bool),
             List.filter (fun e => negb (snd e)) l
             = List.filter (fun e => Bool.eqb (snd e) false) l).
  { intros l. apply List.filter_ext. intros [? []]; reflexivity. }
  unfold Repl.flushDeltaMap, Repl.flushDeltaMapIn.
  rewrite E, D, R. split; [reflexivity|].
  split; [intros k; rewrite Ef; apply In_keys_of_kind|].
  split; [intros k; rewrite Eg; apply In_keys_of_kind|].
  split; [apply NoDup_keys_filter|]. split; [apply NoDup_keys_filter|].
  split; assumption.
Qed.

Lemma batchMap_None (s : subscription) target entries i dk rk :
  batchMap s target entries i dk rk = None <-> target = 0 /\ entries <> [].
Proof.
  revert i dk rk; induction entries as [|[k d] entries IH]; intros i dk rk; cbn [Repl.batchMap].
  - split; [discriminate | intros [_ H]; congruence].
  - destruct (Z.eqb_spec target 0) as [->|Hne].
    + split; [intros _; split; [reflexivity | discriminate] | reflexivity].
    + destruct (Z.rem (i + 1) target =? 0).
      * destruct (batchMap s target entries (i + 1) [] []) eqn:E.
        -- cbn [option_map]. split; [discriminate | intros [? _]; contradiction].
        -- apply IH in E as [? _]. contradiction.
      * rewrite IH. split; intros [? _]; contradiction.
Qed.

(** X13: [flushDeltaMap] fails with a run-time panic (the remainder of a
    division by zero) exactly when the target batch size is zero and the
    delta map is not empty. *)
Theorem X13_flushDeltaMap_panics_iff (target : Z) (s : subscription) (underLock : bool)
    (lock : TableLock) (w : World) :
  flushDeltaMap target s underLock lock w = None <-> target = 0 /\ deltaMap s <> ∅.
Proof.
  unfold Repl.flushDeltaMap, Repl.flushDeltaMapIn.
  rewrite <- (map_to_list_empty_iff (deltaMap s)).
  destruct (batchMap s target (map_to_list (deltaMap s)) 0 [] []) as [stmts|] eqn:E.
  - assert (N : ~ (target = 0 /\ map_to_list (deltaMap s) <> []))
      by (intros H; apply (batchMap_None s target _ 0 [] []) in H; congruence).
    destruct underLock.
    + destruct (ExecUnderLock lock (extractStmt stmts) w) as [w1 [e|]];
        (split; [discriminate | intros H; contradiction]).
    + destruct (execGroup stmts w) as [w1 [e|]];
        (split; [discriminate | intros H; contradiction]).
  - apply batchMap_None in E. tauto.
Qed.

(** X14: a flush with nothing pending, in queue mode or under the table
    lock, sends nothing to the server, leaves the subscription as it is
    and returns no error. *)
Theorem X14_flush_nothing_pending (target : Z) (config : DBConfig) (s : subscription)
    (underLock : bool) (lock : TableLock) (w : World) :
  getDeltaLen s = 0 ->
  underLock = true \/ disableDeltaMap s = true ->
  flush target config s underLock lock w = Some (w, s, None).
Proof.
  intros H Hor. apply getDeltaLen_zero in H.
  unfold Repl.flush, Repl.flushDeltaQueue, Repl.flushDeltaMap, Repl.flushDeltaMapIn.
  destruct (disableDeltaMap s) eqn:Hm.
  - now rewrite H.
  - destruct Hor as [->|?]; [|discriminate].
    rewrite H, map_to_list_empty. cbn [Repl.batchMap extractStmt List.map stmt
      Repl.createDeleteStmt Repl.createReplaceStmt ExecUnderLock String.eqb].
    do 3 f_equal. destruct s; cbn in *; now subst.
Qed.

End BatchFacts.

(** ** Facts about the buffered map *)
Section BufferedMapFacts.
Import GoStrings Table Dbconn BufferedMap.
Context {any : Type} (Sprintf_v : any -> string).

Local Notation bufferedMap := (@bufferedMap any).
Local Notation HasChanged := (@HasChanged any Sprintf_v).

(** X15: with the optimization off, [HasChanged] of the buffered map
    stores the event under the hashed key (a delete as a deleted row
    without image, anything else as the row image given), leaves every
    other key alone, and [Length] grows by one exactly when the key was
    not buffered before. *)
Theorem X15_HasChanged_buffers (s : bufferedMap) (key : list any) (row : list (option any))
    (deleted : bool) :
  keyAboveWatermarkEnabled s = false ->
  exists s',
    HasChanged s key row deleted = Some s'
    /\ changes s' !! Utils.HashKey Sprintf_v key
       = Some (if deleted then {| isDeleted := true; rowImage := [] |}
               else {| isDeleted := false; rowImage := row |})
    /\ (forall other, other <> Utils.HashKey Sprintf_v key ->
          changes s' !! other = changes s !! other)
    /\ Length s'
       = Length s + match changes s !! Utils.HashKey Sprintf_v key with
                    | Some _ => 0
                    | None => 1
                    end.
Proof.
  intros Hoff. unfold BufferedMap.HasChanged. rewrite Hoff.
  set (h := Utils.HashKey Sprintf_v key).
  set (lr := if deleted then {| isDeleted := true; rowImage := [] |}
             else {| isDeleted := false; rowImage := row |}).
  exists (setChanges (<[h := lr]> (changes s)) s).
  split; [unfold lr; now destruct deleted|].
  cbn [setChanges changes]. split; [apply lookup_insert_eq|].
  split; [intros other Hne; now apply lookup_insert_ne|].
  unfold Length. cbn [setChanges changes].
  destruct (changes s !! h) as [d|] eqn:E.
  - rewrite <- (insert_delete_id (changes s) _ _ E) at 2.
    rewrite <- insert_delete_eq.
    rewrite !map_size_insert_None by apply lookup_delete_eq. lia.
  - rewrite map_size_insert_None by exact E. lia.
Qed.

Lemma hasColumn_existsb cols name :
  hasColumn cols name = List.existsb (String.eqb name) cols.
Proof.
  induction cols as [|c cols IH]; [reflexivity|].
  cbn [hasColumn List.existsb]. rewrite IH, (String.eqb_sym name c).
  now destruct (String.eqb c name).
Qed.

Lemma hasColumn_In cols name : hasColumn cols name = true <-> In name cols.
Proof.
  rewrite hasColumn_existsb, List.existsb_exists. split.
  - intros (x & Hx & E). apply String.eqb_eq in E. now subst.
  - intros H. exists name. split; [exact H | apply String.eqb_refl].
Qed.

(** The indices found from position [length pre] on pick, in order, the
    columns of [rest] that the destination has as well. *)
Lemma intersectedFrom_columns (pre rest dest : list string) :
  List.map (fun j => List.nth j (pre ++ rest) "")
    (intersectedFrom (List.length pre) rest dest)
  = List.filter (hasColumn dest) rest.
Proof.
  revert pre; induction rest as [|c rest IH]; intros pre; [reflexivity|].
  cbn [intersectedFrom List.filter]. rewrite List.map_app.
  specialize (IH (pre ++ [c])). rewrite List.length_app, Nat.add_1_r in IH.
  rewrite <- List.app_assoc in IH. cbn [List.app] in IH. rewrite IH.
  destruct (hasColumn dest c); cbn [List.map List.app]; [|reflexivity].
  now rewrite List.nth_middle.
Qed.

Lemma intersectedFrom_bounds i source dest :
  Forall (fun j => (i <= j < i + List.length source)%nat) (intersectedFrom i source dest).
Proof.
  revert i; induction source as [|c source IH]; intros i; cbn [intersectedFrom]; [constructor|].
  apply List.Forall_app. split.
  - destruct (hasColumn dest c); constructor; [cbn [List.length]; lia | constructor].
  - eapply List.Forall_impl; [|apply IH]. cbn [List.length]. intros; lia.
Qed.

Lemma intersectedFrom_sorted i source dest :
  StronglySorted lt (intersectedFrom i source dest).
Proof.
  revert i; induction source as [|c source IH]; intros i; cbn [intersectedFrom]; [constructor|].
  destruct (hasColumn dest c); cbn [List.app]; [|apply IH].
  constructor; [apply IH|].
  eapply List.Forall_impl; [|apply intersectedFrom_bounds]. cbn. intros; lia.
Qed.

(** X17: [getIntersectedColumns] returns strictly increasing positions
    within the source table's column list, and the columns at these
    positions are the source columns that the destination table has as
    well, in the source's order. *)
Theorem X17_getIntersectedColumns_picks_common (s : bufferedMap) :
  let source := NonGeneratedColumns (table s) in
  let dest := NonGeneratedColumns (newTable s) in
  StronglySorted lt (getIntersectedColumns s)
  /\ Forall (fun i => (i < List.length source)%nat) (getIntersectedColumns s)
  /\ List.map (fun i => List.nth i source "") (getIntersectedColumns s)
     = List.filter (fun col => List.existsb (String.eqb col) dest) source.
Proof.
  cbv zeta. unfold getIntersectedColumns.
  split; [apply intersectedFrom_sorted|]. split.
  - eapply List.Forall_impl; [|apply intersectedFrom_bounds]. cbn. intros; lia.
  - pose proof (intersectedFrom_columns [] (NonGeneratedColumns (table s))
                  (NonGeneratedColumns (newTable s))) as H.
    cbn [List.app List.length] in H. rewrite H. apply List.filter_ext.
    intros col. apply hasColumn_existsb.
Qed.

(** X18: the column list of the upsert statement and the positions its
    values are taken from agree: when the new table names no column twice,
    [IntersectNonGeneratedColumns] lists, in order, the source columns at
    the positions of [getIntersectedColumns]. *)
Theorem X18_upsert_columns_align (s : bufferedMap) :
  List.NoDup (NonGeneratedColumns (newTable s)) ->
  Repl.IntersectNonGeneratedColumns (table s) (newTable s)
  = Join (List.map (fun i => "`" +:+ List.nth i (NonGeneratedColumns (table s)) "" +:+ "`")
            (getIntersectedColumns s))
      ", ".
Proof.
  intros Hnd. unfold Repl.IntersectNonGeneratedColumns, getIntersectedColumns. f_equal.
  rewrite <- (List.map_map (fun i => List.nth i (NonGeneratedColumns (table s)) "")
                (fun col => "`" +:+ col +:+ "`")).
  pose proof (intersectedFrom_columns [] (NonGeneratedColumns (table s))
                (NonGeneratedColumns (newTable s))) as H.
  cbn [List.app List.length] in H. rewrite H, <- flat_map_filter_map. clear H.
  induction (NonGeneratedColumns (table s)) as [|c l IH]; [reflexivity|].
  cbn [List.flat_map]. rewrite IH. f_equal.
  rewrite flat_map_single_NoDup by exact Hnd. now rewrite hasColumn_existsb.
Qed.

Lemma columnExistsInBothTables_In (s : bufferedMap) (columnName : string) :
  columnExistsInBothTables s columnName = true
  <-> In columnName (NonGeneratedColumns (table s))
      /\ In columnName (NonGeneratedColumns (newTable s)).
Proof.
  unfold columnExistsInBothTables. cbv zeta.
  now rewrite andb_true_iff, !hasColumn_In.
Qed.

(** X19: the ON DUPLICATE KEY UPDATE clause of the upsert assigns
    exactly the columns of the new table that the source table has as
    well and that are no key columns of the new table. *)
Theorem X19_updateClauses_common_non_key (s : bufferedMap) (clause : string) :
  In clause (updateClauses s)
  <-> exists col,
        clause = "`" +:+ col +:+ "` = new.`" +:+ col +:+ "`"
        /\ In col (NonGeneratedColumns (newTable s))
        /\ In col (NonGeneratedColumns (table s))
        /\ ~ In col (KeyColumns (newTable s)).
Proof.
  unfold updateClauses. rewrite List.in_flat_map. cbv zeta. split.
  - intros (col & Hin & Hc).
    destruct (hasColumn (KeyColumns (newTable s)) col) eqn:Hk; [destruct Hc|].
    cbn [negb] in Hc.
    destruct (columnExistsInBothTables s col) eqn:Hb; [|destruct Hc].
    destruct Hc as [<-|[]]. apply columnExistsInBothTables_In in Hb as [Hs _].
    exists col. repeat split; auto.
    intros Hkey. apply hasColumn_In in Hkey. congruence.
  - intros (col & -> & Hd & Hs & Hk). exists col. split; [exact Hd|].
    destruct (hasColumn (KeyColumns (newTable s)) col) eqn:Hkey.
    { apply hasColumn_In in Hkey. contradiction. }
    cbn [negb].
    assert (Hb : columnExistsInBothTables s col = true)
      by (apply columnExistsInBothTables_In; now split).
    rewrite Hb. now left.
Qed.

(** X16: with the optimization on and a callback installed, [HasChanged]
    of the buffered map drops an event whose first key column is above
    the watermark, and panics on an empty key; once the optimization is
    switched off every event is buffered. *)
Theorem X16_HasChanged_above_watermark (s : bufferedMap) (callback : any -> bool) :
  enableKeyAboveWatermark s = true ->
  keyAboveCopierCallback s = Some callback ->
  (forall k0 k row deleted,
      callback k0 = true -> HasChanged s (k0 :: k) row deleted = Some s)
  /\ (forall row deleted, HasChanged s [] row deleted = None)
  /\ (forall key row deleted,
        exists s',
          HasChanged (SetKeyAboveWatermarkOptimization false s) key row deleted = Some s'
          /\ changes s' !! Utils.HashKey Sprintf_v key
             = Some (if deleted then {| isDeleted := true; rowImage := [] |}
                     else {| isDeleted := false; rowImage := row |})).
Proof.
  intros Hen Hcb.
  assert (Hon : keyAboveWatermarkEnabled s = true).
  { unfold keyAboveWatermarkEnabled. now rewrite Hen, Hcb. }
  split; [|split].
  - intros k0 k row deleted Habove. unfold BufferedMap.HasChanged.
    now rewrite Hon, Hcb, Habove.
  - intros row deleted. unfold BufferedMap.HasChanged. now rewrite Hon, Hcb.
  - intros key row deleted. unfold BufferedMap.HasChanged.
    unfold keyAboveWatermarkEnabled at 1.
    cbn [SetKeyAboveWatermarkOptimization enableKeyAboveWatermark andb].
    destruct deleted; eexists; (split; [reflexivity|]);
      cbn [setChanges changes]; apply lookup_insert_eq.
Qed.

End BufferedMapFacts.

(** ** Facts about the cutover's [Run] *)
Section CutoverRunFacts.
Import Table Dbconn Repl Cutover.
Context {any : Type}.
Context (QuoteColumns : list string -> string).
Context (pksToRowValueConstructor : list string -> string).

Local Notation subscription := (@subscription any).
Local Notation Client := (@Client any).
Local Notation flush := (@flush any QuoteColumns pksToRowValueConstructor).
Local Notation flushSubscriptions :=
  (@flushSubscriptions any QuoteColumns pksToRowValueConstructor).
Local Notation clientFlush := (@clientFlush any QuoteColumns pksToRowValueConstructor).
Local Notation FlushUnderTableLock :=
  (@FlushUnderTableLock any QuoteColumns pksToRowValueConstructor).
Local Notation algorithmRenameUnderLock :=
  (@algorithmRenameUnderLock any QuoteColumns pksToRowValueConstructor).
Local Notation runLoop := (@runLoop any QuoteColumns pksToRowValueConstructor).
Local Notation Run := (@Run any QuoteColumns pksToRowValueConstructor).

Lemma flush_extends target config (s : subscription) underLock lock w w' s' r :
  flush target config s underLock lock w = Some (w', s', r) -> extends w w'.
Proof.
  unfold Repl.flush, Repl.flushDeltaQueue, Repl.flushDeltaMap, Repl.flushDeltaMapIn.
  destruct (disableDeltaMap s).
  - destruct (deltaQueue s) as [|c q].
    + intros [= <- _ _]. apply extends_refl.
    + set (stmts := extractStmt _). destruct underLock.
      * pose proof (ExecUnderLock_extends lock stmts w) as H.
        destruct (ExecUnderLock lock stmts w) as [w1 [e|]]; intros [= <- _ _]; exact H.
      * pose proof (RetryableTransaction_extends true config stmts w) as H.
        destruct (RetryableTransaction true config stmts w) as [[w1 ra] [e|]];
          intros [= <- _ _]; exact H.
  - destruct (batchMap _ _ _ _ _ _ _ _) as [stmts|]; [|discriminate].
    destruct underLock.
    + pose proof (ExecUnderLock_extends lock (extractStmt stmts) w) as H.
      destruct (ExecUnderLock lock (extractStmt stmts) w) as [w1 [e|]];
        intros [= <- _ _]; exact H.
    + pose proof (execGroup_extends stmts w) as H.
      destruct (execGroup stmts w) as [w1 [e|]]; intros [= <- _ _]; exact H.
Qed.

Lemma flushSubscriptions_extends target config subs underLock lock w w' subs' r :
  flushSubscriptions target config subs underLock lock w = Some (w', subs', r) ->
  extends w w'.
Proof.
  revert w subs' r; induction subs as [|[name s] subs IH]; intros w subs' r;
    cbn [Repl.flushSubscriptions].
  - intros [= <- _ _]. apply extends_refl.
  - destruct (flush target config s underLock lock w) as [[[w1 s1] r1]|] eqn:E; [|discriminate].
    apply flush_extends in E. destruct r1 as [e|].
    + now intros [= <- _ _].
    + destruct (flushSubscriptions target config subs underLock lock w1)
        as [[[w2 rest'] r2]|] eqn:E2; [|discriminate].
      intros [= <- _ _]. apply IH in E2. eapply extends_trans; eassumption.
Qed.

Lemma clientFlush_extends (c : Client) underLock lock w w' c' r :
  clientFlush c underLock lock w = Some (w', c', r) -> extends w w'.
Proof.
  unfold Repl.clientFlush.
  destruct (flushSubscriptions _ _ _ underLock lock w) as [[[w1 subs] r1]|] eqn:E;
    [|discriminate].
  apply flushSubscriptions_extends in E. destruct r1; now intros [= <- _ _].
Qed.

Lemma NewTableLock_extends tbls config w : extends w (fst (NewTableLock tbls config w)).
Proof.
  unfold NewTableLock, BeginStandardTrx, beginTx.
  pose proof (call_extends BeginTx w) as Hb.
  destruct (call BeginTx w) as [w1 r1]. cbn [fst] in Hb.
  destruct (resp_err r1); [exact Hb|].
  unfold standardizeTrx.
  match goal with |- context [execAll ?t ?s ?x] =>
    pose proof (execAll_extends t s x) as Hs; destruct (execAll t s x) as [w2 [e|]] end;
    cbn [fst] in Hs.
  { eapply extends_trans; eassumption. }
  match goal with |- context [call ?q w2] =>
    pose proof (call_extends q w2) as Hc; destruct (call q w2) as [w3 r3] end.
  cbn [fst] in Hc.
  assert (H3 : extends w w3) by (repeat (eapply extends_trans; [eassumption|]); apply extends_refl).
  destruct (resp_err r3); [exact H3|].
  match goal with |- context [call ?q w3] =>
    pose proof (call_extends q w3) as Hl; destruct (call q w3) as [w4 r4] end.
  cbn [fst] in Hl.
  assert (H4 : extends w w4) by (eapply extends_trans; eassumption).
  destruct (resp_err r4); cbn [fst]; [|exact H4].
  eapply extends_trans; [exact H4 | apply rollback_extends].
Qed.

(** An attempt of the cutover that returns no error has flushed every
    change and has sent the RENAME TABLE statement, which the server
    answered without error, followed by nothing but the release of the
    lock. *)
Lemma algorithmRenameUnderLock_ok (c : CutOver) (feed : Client) w w' feed' :
  algorithmRenameUnderLock c feed w = Some (w', feed', None) ->
  AllChangesFlushed feed' = true
  /\ exists before lock after,
       history w' = history w ++ before
                    ++ [TxExec (lockTxn lock) (renameStatement c) []] ++ after
       /\ resp_err (server w (history w ++ before)
                      (TxExec (lockTxn lock) (renameStatement c) [])) = None
       /\ closing lock after.
Proof.
  unfold Cutover.algorithmRenameUnderLock, algorithmRenameUnderLockWith, underTableLockWith.
  pose proof (NewTableLock_extends [table c; newTable c] (dbConfig c) w) as H1.
  destruct (NewTableLock [table c; newTable c] (dbConfig c) w) as [w1 [lock|e]];
    [|discriminate].
  cbn [fst] in H1.
  destruct (FlushUnderTableLock feed lock w1) as [[[w2 feed2] r2]|] eqn:EF; [|discriminate].
  apply clientFlush_extends in EF.
  destruct r2 as [e|]; [discriminate|].
  destruct (AllChangesFlushed feed2) eqn:EA; cbn [negb]; [|discriminate].
  cbn [ExecUnderLock].
  assert (Hne : String.eqb (renameStatement c) "" = false) by reflexivity.
  rewrite Hne. unfold call. cbn [server history].
  destruct (resp_err (server w2 (history w2) (TxExec (lockTxn lock) (renameStatement c) [])))
    eqn:Hr; [discriminate|].
  intros [= <- <-]. split; [exact EA|].
  assert (H2 : extends w w2) by (eapply extends_trans; eassumption).
  destruct H2 as [Hs [before Hh]].
  match goal with |- context [Close lock ?x] =>
    destruct (Close_trace lock x) as (after & E3 & C3) end.
  cbn [history] in E3.
  exists before, lock, after. rewrite E3, Hh. reassoc.
  split; [reflexivity|]. split; [|exact C3].
  rewrite <- Hs, <- Hh. exact Hr.
Qed.

Lemma algorithmRenameUnderLock_extends (c : CutOver) (feed : Client) w w' feed' r :
  algorithmRenameUnderLock c feed w = Some (w', feed', r) -> extends w w'.
Proof.
  unfold Cutover.algorithmRenameUnderLock, algorithmRenameUnderLockWith, underTableLockWith.
  pose proof (NewTableLock_extends [table c; newTable c] (dbConfig c) w) as H1.
  destruct (NewTableLock [table c; newTable c] (dbConfig c) w) as [w1 [lock|e]];
    cbn [fst] in H1; [|now intros [= <- _ _]].
  assert (Hclose : forall x, extends w x -> extends w (fst (Close lock x))).
  { intros x Hx. eapply extends_trans; [exact Hx|].
    destruct (Close_trace lock x) as (cl & E & _).
    split; [|eauto]. unfold Close, call. cbn [server history].
    destruct (resp_err _); reflexivity. }
  destruct (FlushUnderTableLock feed lock w1) as [[[w2 feed2] r2]|] eqn:EF; [|discriminate].
  apply clientFlush_extends in EF.
  assert (H2 : extends w w2) by (eapply extends_trans; eassumption).
  destruct r2 as [e|]; [intros [= <- _ _]; now apply Hclose|].
  destruct (negb (AllChangesFlushed feed2)); [intros [= <- _ _]; now apply Hclose|].
  pose proof (ExecUnderLock_extends lock [renameStatement c] w2) as H3.
  destruct (ExecUnderLock lock [renameStatement c] w2) as [w3 r3]. cbn [fst] in H3.
  intros [= <- _ _]. apply Hclose. eapply extends_trans; eassumption.
Qed.

Lemma runLoop_ok n (c : CutOver) (feed : Client) err w w' feed' :
  runLoop n c feed err w = Some (w', feed', None) ->
  (n = O /\ err = None /\ w' = w /\ feed' = feed)
  \/ (AllChangesFlushed feed' = true
      /\ exists before lock after,
           history w' = history w ++ before
                        ++ [TxExec (lockTxn lock) (renameStatement c) []] ++ after
           /\ resp_err (server w (history w ++ before)
                          (TxExec (lockTxn lock) (renameStatement c) [])) = None
           /\ closing lock after).
Proof.
  revert feed err w; induction n as [|n IH]; intros feed err w; cbn [Cutover.runLoop].
  - intros [= <- <- ->]. now left.
  - intros H. right.
    destruct (Repl.clientFlush _ _ feed false _ w) as [[[w1 feed1] r1]|] eqn:E1; [|discriminate].
    apply clientFlush_extends in E1 as [S1 [pre1 H1]].
    destruct r1 as [e|]; [discriminate|].
    destruct (algorithmRenameUnderLock c feed1 w1) as [[[w2 feed2] r2]|] eqn:E2; [|discriminate].
    destruct r2 as [e|].
    + apply algorithmRenameUnderLock_extends in E2 as [S2 [pre2 H2]].
      apply IH in H as [(_ & [=] & _)|(HA & before & lock & after & Hh & Hr & Hc)].
      split; [exact HA|].
      exists (pre1 ++ pre2 ++ before), lock, after.
      rewrite Hh, H2, H1 in *. rewrite S2, S1 in Hr. reassoc.
      split; [reflexivity|]. split; [exact Hr | exact Hc].
    + injection H as <- <-.
      apply algorithmRenameUnderLock_ok in E2 as (HA & before & lock & after & Hh & Hr & Hc).
      split; [exact HA|].
      exists (pre1 ++ before), lock, after.
      rewrite Hh, H1 in *. rewrite S1 in Hr. reassoc.
      split; [reflexivity|]. split; [exact Hr | exact Hc].
Qed.

(** X20: with [MaxRetries <= 0] the cutover's [Run] returns success
    without sending anything, so no table was renamed.  With [MaxRetries]
    positive a [Run] that returns no error has flushed every change and
    has sent the RENAME TABLE statement on the connection of a table lock,
    the server answered it without error, and after it only the release
    of that lock was sent. *)
Theorem X20_cutover_Run_success (c : CutOver) (feed : Client) (w : World) :
  (MaxRetries (dbConfig c) <= 0 -> Run c feed w = Some (w, feed, None))
  /\ (0 < MaxRetries (dbConfig c) ->
      forall w' feed',
        Run c feed w = Some (w', feed', None) ->
        AllChangesFlushed feed' = true
        /\ exists before lock after,
             history w' = history w ++ before
                          ++ [TxExec (lockTxn lock) (renameStatement c) []] ++ after
             /\ resp_err (server w (history w ++ before)
                            (TxExec (lockTxn lock) (renameStatement c) [])) = None
             /\ closing lock after).
Proof.
  unfold Cutover.Run. split.
  - intros H. replace (Z.to_nat (MaxRetries (dbConfig c))) with O by lia. reflexivity.
  - intros Hpos w' feed' H. apply runLoop_ok in H as [(Hn & _)|H]; [lia | exact H].
Qed.

End CutoverRunFacts.

(** ** Facts about [setup] and [NewRunner] *)
Section SetupFacts.
Import Table Dbconn Repl Migration.
Context {any : Type}.
Context (NewClient : TableInfo -> TableInfo -> @Client any).
Context (SetPos : Position -> @Client any -> @Client any).
Context (KeyAboveHighWatermark : Copier -> any -> bool).

Local Notation Client := (@Client any).
Local Notation Runner := (@Runner any).
Local Notation resumeFromCheckpoint := (@resumeFromCheckpoint any NewClient SetPos).
Local Notation newMigration := (@newMigration any NewClient).
Local Notation setup := (@setup any NewClient SetPos KeyAboveHighWatermark).

Lemma length_append_s (a b : string) :
  String.length (a +:+ b) = (String.length a + String.length b)%nat.
Proof. induction a as [|c a IH]; cbn [append String.length]; [reflexivity | now rewrite IH]. Qed.

(** X21: [createNewTable] refuses a table whose name is longer than 59
    bytes before it touches the database, and otherwise starts by
    dropping the new table; the name of the checkpoint table, which is
    not checked, exceeds 64 bytes from a table name of 57 bytes on. *)
Theorem X21_createNewTable_name_bound (faults : Faults) (r : Runner) :
  let n := String.length (TableName (table r)) in
  ((59 < n)%nat ->
   createNewTable faults r = (r, Some (errNameTooLong (TableName (table r)))))
  /\ ((n <= 59)%nat ->
      exists made, calls (fst (createNewTable faults r)) = calls r ++ DropNewTable :: made)
  /\ ((56 < n)%nat -> (64 < String.length (cpName r))%nat).
Proof.
  cbv zeta.
  assert (Hlen : String.length (newName r) = (String.length (TableName (table r)) + 5)%nat).
  { unfold newName. cbn [append String.length]. rewrite length_append_s. cbn [String.length]. lia. }
  split; [|split].
  - intros H. unfold createNewTable.
    assert (E : (64 <? String.length (newName r))%nat = true) by (apply Nat.ltb_lt; lia).
    now rewrite E.
  - intros H. unfold createNewTable.
    assert (E : (64 <? String.length (newName r))%nat = false) by (apply Nat.ltb_ge; lia).
    rewrite E. unfold newName. runner_simpl.
    destruct (faults DropNewTable); runner_simpl; [exists []; reflexivity|].
    destruct (faults CreateNewTable); runner_simpl; [exists [CreateNewTable]; now reassoc|].
    exists [CreateNewTable; SetInfoNewTable_create]. now reassoc.
  - intros H. unfold cpName. cbn [append String.length]. rewrite length_append_s.
    cbn [String.length]. lia.
Qed.

(** A resume that succeeds has built the client, the copier and the
    checkpoint table's handle. *)
Lemma resume_sets (faults : Faults) (r r1 : Runner) :
  resumeFromCheckpoint faults r = (r1, None) ->
  replClient r1 <> None /\ copier r1 <> None /\ checkpointTable r1 <> None.
Proof.
  unfold Migration.resumeFromCheckpoint. runner_simpl.
  destruct (faults ReadNewTable); cbn [negb]; [discriminate|].
  destruct (negb (newTableExists (db r))); [discriminate|].
  destruct (faults ReadCheckpoint); [discriminate|].
  destruct (readCheckpoint (db r)) as [cp|]; [|discriminate].
  destruct (negb (String.eqb (Alter (migration r)) (alterStatement cp))); [discriminate|].
  destruct (faults SetInfoNewTable_resume); runner_simpl; [discriminate|].
  destruct (faults NewCopierFromCheckpoint); runner_simpl; [discriminate|].
  destruct (faults ReplClientRun_resume); [discriminate|].
  intros [= <-]. repeat split; discriminate.
Qed.

(** So has a fresh start that succeeds. *)
Lemma newMigration_sets (faults : Faults) (r r1 : Runner) :
  newMigration faults r = (r1, None) ->
  replClient r1 <> None /\ copier r1 <> None /\ checkpointTable r1 <> None.
Proof.
  unfold Migration.newMigration, createNewTable, alterNewTable, createCheckpointTable.
  unfold newName, cpName. runner_simpl.
  destruct (64 <? _)%nat; [discriminate|].
  repeat (match goal with |- context [faults ?x] => destruct (faults x) end;
          runner_simpl; try discriminate).
  intros [= <-]. repeat split; discriminate.
Qed.

(** With client, copier and checkpoint table in place [dumpCheckpoint]
    dereferences no nil pointer. *)
Lemma dumpCheckpoint_total (faults : Faults) (r : Runner) :
  replClient r <> None -> copier r <> None -> checkpointTable r <> None ->
  dumpCheckpoint faults r <> None.
Proof.
  unfold dumpCheckpoint.
  destruct (replClient r); [|congruence]. destruct (copier r) as [cp|]; [|congruence].
  destruct (checkpointTable r); [|congruence]. intros _ _ _.
  destruct (lowWatermarkNow cp); [|discriminate].
  destruct (attempt faults InsertCheckpoint r) as [r1 [e|]]; [discriminate|].
  destruct (chkpnt (db r1)); discriminate.
Qed.

(** The end of [setup], from the replica throttler on. *)
Lemma setup_tail (faults : Faults) (ra : Runner) :
  replClient ra <> None -> copier ra <> None -> checkpointTable ra <> None ->
  exists r' e,
    (let '(r, err) :=
       if String.eqb (ReplicaDSN (migration ra)) "" then (ra, None)
       else
         let '(r, err) := attempt faults NewReplica ra in
         match err with
         | Some e => (r, Some e)
         | None =>
             let '(r, err) := attempt faults NewReplicationThrottler r in
             match err with
             | Some e => (r, Some e)
             | None => attempt faults ThrottlerOpen r
             end
         end in
     match err with
     | Some e => Some (r, Some e)
     | None =>
         match replClient r, copier r with
         | Some c, Some cp =>
             Some (setReplClient (Some (withCopierCallback KeyAboveHighWatermark cp c)) r, None)
         | _, _ => None
         end
     end) = Some (r', e)
    /\ (e = None ->
        exists c cp t,
          replClient r' = Some c /\ copier r' = Some cp /\ checkpointTable r' = Some t
          /\ Forall (fun ns : string * @subscription any =>
                       keyAboveCopierCallback (snd ns) = Some (KeyAboveHighWatermark cp))
               (subscriptions c)).
Proof.
  intros Hc Hcp Ht.
  destruct (replClient ra) as [c|] eqn:Ec; [|congruence].
  destruct (copier ra) as [cp|] eqn:Ecp; [|congruence].
  destruct (checkpointTable ra) as [t|] eqn:Et; [|congruence].
  assert (Hinst : Forall (fun ns : string * @subscription any =>
                            keyAboveCopierCallback (snd ns) = Some (KeyAboveHighWatermark cp))
                    (subscriptions (withCopierCallback KeyAboveHighWatermark cp c))).
  { unfold withCopierCallback. cbn [subscriptions setSubscriptions].
    apply List.Forall_map. apply List.Forall_forall. now intros ns _. }
  destruct (String.eqb (ReplicaDSN (migration ra)) "").
  - rewrite Ec, Ecp. eexists. eexists. split; [reflexivity|]. intros _.
    runner_simpl. rewrite ?Ecp, ?Et. eauto 10.
  - runner_simpl.
    destruct (faults NewReplica); runner_simpl;
      [eexists; eexists; split; [reflexivity | discriminate]|].
    destruct (faults NewReplicationThrottler); runner_simpl;
      [eexists; eexists; split; [reflexivity | discriminate]|].
    destruct (faults ThrottlerOpen); runner_simpl;
      [eexists; eexists; split; [reflexivity | discriminate]|].
    rewrite Ec, Ecp. eexists. eexists. split; [reflexivity|]. intros _.
    runner_simpl. rewrite ?Ecp, ?Et. eauto 10.
Qed.

(** X22: [setup] dereferences no nil pointer, whatever fails; when it
    returns no error the replication client, the copier and the
    checkpoint table are set, every subscription of the client holds the
    copier's watermark callback, and a later [dumpCheckpoint]
    dereferences no nil pointer either. *)
Theorem X22_setup_nil_safe (faults : Faults) (r : Runner) :
  exists r' e,
    setup faults r = Some (r', e)
    /\ (e = None ->
        exists c cp t,
          replClient r' = Some c /\ copier r' = Some cp /\ checkpointTable r' = Some t
          /\ Forall (fun ns : string * @subscription any =>
                       keyAboveCopierCallback (snd ns) = Some (KeyAboveHighWatermark cp))
               (subscriptions c)
          /\ forall faults', dumpCheckpoint faults' r' <> None).
Proof.
  assert (Hend : forall ra : Runner,
             replClient ra <> None -> copier ra <> None -> checkpointTable ra <> None ->
             forall x,
               x = (let '(r, err) :=
                      if String.eqb (ReplicaDSN (migration ra)) "" then (ra, None)
                      else
                        let '(r, err) := attempt faults NewReplica ra in
                        match err with
                        | Some e => (r, Some e)
                        | None =>
                            let '(r, err) := attempt faults NewReplicationThrottler r in
                            match err with
                            | Some e => (r, Some e)
                            | None => attempt faults ThrottlerOpen r
                            end
                        end in
                    match err with
                    | Some e => Some (r, Some e)
                    | None =>
                        match replClient r, copier r with
                        | Some c, Some cp =>
                            Some (setReplClient
                                    (Some (withCopierCallback KeyAboveHighWatermark cp c)) r, None)
                        | _, _ => None
                        end
                    end) ->
               exists r' e,
                 x = Some (r', e)
                 /\ (e = None ->
                     exists c cp t,
                       replClient r' = Some c /\ copier r' = Some cp
                       /\ checkpointTable r' = Some t
                       /\ Forall (fun ns : string * @subscription any =>
                                    keyAboveCopierCallback (snd ns)
                                    = Some (KeyAboveHighWatermark cp))
                            (subscriptions c)
                       /\ forall faults', dumpCheckpoint faults' r' <> None)).
  { intros ra Hc Hcp Ht x ->.
    destruct (setup_tail faults ra Hc Hcp Ht) as (r' & e & E & H).
    exists r', e. split; [exact E|]. intros He.
    destruct (H He) as (c & cp & t & H1 & H2 & H3 & H4).
    exists c, cp, t. repeat split; auto.
    intros faults'. apply dumpCheckpoint_total; congruence. }
  unfold Migration.setup.
  destruct (attempt faults DropOldTable r) as [r0 [e0|]].
  { eexists. eexists. split; [reflexivity | discriminate]. }
  destruct (resumeFromCheckpoint faults r0) as [rb [e|]] eqn:ER.
  - destruct (newMigration faults rb) as [ra [e1|]] eqn:EN.
    { eexists. eexists. split; [reflexivity | discriminate]. }
    apply newMigration_sets in EN as (H1 & H2 & H3).
    apply (Hend ra H1 H2 H3). reflexivity.
  - apply resume_sets in ER as (H1 & H2 & H3).
    apply (Hend rb H1 H2 H3). reflexivity.
Qed.

End SetupFacts.

Section NewRunnerFacts.
Import GoStrings Utils Table Dbconn Repl Migration.

(** X23: [NewRunner] returns no error exactly when host, schema name,
    table name and alter statement are all given.  Whatever it returns,
    threads, target chunk time and replica lag are not zero afterwards;
    a host that is given ends up with a port (3306 when it had none), and
    its name without the port is unchanged. *)
Theorem X23_NewRunner_validates (m : MigrationArgs) :
  let m' := fst (NewRunner m) in
  (snd (NewRunner m) = None
   <-> Host m <> "" /\ Database (runnerFields m) <> "" /\ Table (runnerFields m) <> ""
       /\ Alter (runnerFields m) <> "")
  /\ Threads (runnerFields m') <> 0 /\ TargetChunkTime m' <> 0 /\ ReplicaMaxLag m' <> 0
  /\ (Host m <> "" ->
      Contains (Host m') ":" = true
      /\ StripPort (Host m') = StripPort (Host m)).
Proof.
  cbv zeta. unfold NewRunner. cbv zeta. cbn [Host runnerFields TargetChunkTime ReplicaMaxLag].
  set (th := if Threads (runnerFields m) =? 0 then 4 else Threads (runnerFields m)).
  set (tc := if TargetChunkTime m =? 0 then ChunkerDefaultTarget else TargetChunkTime m).
  set (rl := if ReplicaMaxLag m =? 0 then 120 * 1000000000 else ReplicaMaxLag m).
  assert (Hth : th <> 0) by (unfold th; destruct (Z.eqb_spec (Threads (runnerFields m)) 0); lia).
  assert (Htc : tc <> 0)
    by (unfold tc, ChunkerDefaultTarget; destruct (Z.eqb_spec (TargetChunkTime m) 0); lia).
  assert (Hrl : rl <> 0) by (unfold rl; destruct (Z.eqb_spec (ReplicaMaxLag m) 0); lia).
  destruct (String.eqb_spec (Host m) "") as [Eh|Nh].
  { cbn [fst snd runnerFields Host TargetChunkTime ReplicaMaxLag setThreads Threads].
    split; [split; [discriminate | intros [? _]; contradiction]|].
    repeat split; auto. all: contradiction. }
  destruct (Contains (Host m) ":") eqn:Ec; cbn [negb].
  - cbn [runnerFields Host setThreads Database Table Alter].
    destruct (String.eqb_spec (Database (runnerFields m)) "") as [Ed|Nd];
      [|destruct (String.eqb_spec (Table (runnerFields m)) "") as [Et|Nt];
        [|destruct (String.eqb_spec (Alter (runnerFields m)) "") as [Ea|Na]]];
      cbn [fst snd runnerFields Host TargetChunkTime ReplicaMaxLag setThreads Threads];
      (split; [split; [try discriminate; auto | try (intros (? & ? & ? & ?); contradiction); auto]|]);
      repeat split; auto.
  - cbn [runnerFields Host setThreads Database Table Alter].
    assert (Hs : StripPort (Host m +:+ ":" +:+ "3306") = StripPort (Host m)).
    { unfold StripPort. rewrite Ec, Contains_colon_app. unfold Split.
      now rewrite Split_aux_colon by exact Ec. }
    pose proof (Contains_colon_app (Host m) "3306") as Hc.
    destruct (String.eqb_spec (Database (runnerFields m)) "") as [Ed|Nd];
      [|destruct (String.eqb_spec (Table (runnerFields m)) "") as [Et|Nt];
        [|destruct (String.eqb_spec (Alter (runnerFields m)) "") as [Ea|Na]]];
      cbn [fst snd runnerFields Host TargetChunkTime ReplicaMaxLag setThreads Threads];
      (split; [split; [try discriminate; auto | try (intros (? & ? & ? & ?); contradiction); auto]|]);
      repeat split; auto.
Qed.

End NewRunnerFacts.

(** ** The further properties at work *)
Section UtilsExamples.
Import GoStrings Utils Table Repl Fixtures.

Lemma X1_HashKey_no_collision_witness :
  allSeparable ["1234"; "ACDC"] = true
  /\ HashKey id ["1234"; "ACDC"] <> HashKey id ["1234"; "AC"; "DC"].
Proof.
  split; [reflexivity|].
  apply (X1_HashKey_no_collision id ["1234"; "ACDC"] ["1234"; "AC"; "DC"]).
  - discriminate.
  - discriminate.
  - reflexivity.
  - reflexivity.
  - discriminate.
Defined.

(** Without the side condition two keys do collide. *)
Example HashKey_collision :
  HashKey id ["a-#-b"] = HashKey id ["a"; "b"].
Proof. reflexivity. Qed.

(** The third case of the repository's own test [TestIntersectColumns]. *)
Lemma X2_IntersectNonGeneratedColumns_filter_witness :
  IntersectNonGeneratedColumns t2 t2new = "`a`, `c`".
Proof.
  assert (Hnd : List.NoDup (NonGeneratedColumns t2new)).
  { repeat (constructor; [cbn; intuition discriminate|]). constructor. }
  exact (X2_IntersectNonGeneratedColumns_filter t2 t2new Hnd).
Defined.

(** A column that the second table names twice is listed twice. *)
Example IntersectNonGeneratedColumns_repeats :
  IntersectNonGeneratedColumns t2
    {| SchemaName := "test"; TableName := "dup"; QuotedName := "`test`.`dup`";
       KeyColumns := ["a"]; NonGeneratedColumns := ["a"; "a"] |}
  = "`a`, `a`".
Proof. reflexivity. Qed.

End UtilsExamples.

Section RetryExamples.
Import Table Dbconn Fixtures.

Lemma X5_RetryableTransaction_first_attempt_witness :
  exists w',
    RetryableTransaction false NewDBConfig ["INSERT ok"; ""; "DELETE ok"] (world0 okServer)
    = (w', 2, None)
    /\ history w' = committedAttempt 0 NewDBConfig ["INSERT ok"; ""; "DELETE ok"].
Proof.
  assert (Hpos : 0 < MaxRetries NewDBConfig) by reflexivity.
  assert (Hq : quiet okServer false []
                 (committedAttempt 0 NewDBConfig ["INSERT ok"; ""; "DELETE ok"])).
  { cbn. repeat first [split | constructor]. }
  exact (X5_RetryableTransaction_first_attempt false NewDBConfig
           ["INSERT ok"; ""; "DELETE ok"] (world0 okServer) Hpos Hq).
Defined.

Lemma X7_statement_error_witness :
  retryLoop 1 false NewDBConfig ["INSERT ok"; "UPDATE broken"; "never sent"] 0 None brokenWorld
  = ({| server := server brokenWorld;
        history := BeginTx
                   :: List.map (fun qa => TxExec 0 (fst qa) (snd qa)) (standardizeStmts NewDBConfig)
                   ++ [TxExec 0 "INSERT ok" []; TxQuery 0 "SHOW WARNINGS";
                       TxExec 0 "UPDATE broken" []; TxRollback 0] |},
     1, Some errSyntax).
Proof.
  pose (w1 := fst (beginTx brokenWorld)).
  pose (w2 := fst (standardizeTrx 0 NewDBConfig w1)).
  pose (w3 := fst (fst (execStmts 0 false ["INSERT ok"] 0 w2))).
  assert (Hne : "UPDATE broken" <> "") by discriminate.
  assert (H1 : beginTx brokenWorld = (w1, inl 0%nat)) by reflexivity.
  assert (H2 : standardizeTrx 0 NewDBConfig w1 = (w2, None)) by reflexivity.
  assert (H3 : execStmts 0 false ["INSERT ok"] 0 w2 = (w3, 1, Done)) by reflexivity.
  assert (H4 : resp_err (snd (call (TxExec 0 "UPDATE broken" []) w3)) = Some errSyntax)
    by reflexivity.
  exact (proj2 (X7_statement_error 0 false NewDBConfig ["INSERT ok"] "UPDATE broken"
                  ["never sent"] 0 None brokenWorld Hne 0%nat w1 w2 w3 1 errSyntax
                  H1 H2 H3 H4)).
Defined.

Lemma X9_ExecUnderLock_stops_at_first_error_witness :
  exists sent q more,
    nonEmpty ["INSERT ok"; ""; "UPDATE broken"; "never sent"] = sent ++ q :: more
    /\ history (fst (ExecUnderLock lock0 ["INSERT ok"; ""; "UPDATE broken"; "never sent"]
                       brokenWorld))
       = history brokenWorld ++ List.map (fun q => TxExec (lockTxn lock0) q []) (sent ++ [q])
    /\ allOk (server brokenWorld) (history brokenWorld)
         (List.map (fun q => TxExec (lockTxn lock0) q []) sent)
    /\ resp_err (server brokenWorld
                   (history brokenWorld ++ List.map (fun q => TxExec (lockTxn lock0) q []) sent)
                   (TxExec (lockTxn lock0) q []))
       = Some errSyntax.
Proof.
  apply (X9_ExecUnderLock_stops_at_first_error lock0
           ["INSERT ok"; ""; "UPDATE broken"; "never sent"] brokenWorld).
  reflexivity.
Defined.

End RetryExamples.

Section SubscriptionExamples.
Import Table Dbconn Repl Fixtures.

Lemma X10_keyHasChanged_delta_len_witness :
  exists s',
    keyHasChanged id (changed (mapSub ∅) "1") ["2"] true = Some s'
    /\ getDeltaLen s' = 2.
Proof.
  assert (H : keyIsAboveWatermark (changed (mapSub ∅) "1") ["2"] = Some false)
    by reflexivity.
  destruct (X10_keyHasChanged_delta_len id (changed (mapSub ∅) "1") ["2"] true H)
    as (s' & E & L).
  exists s'. split; [exact E|]. rewrite L. reflexivity.
Defined.

Lemma X11_keyHasChanged_map_overwrites_witness :
  exists s1 s2,
    keyHasChanged id (mapSub ∅) ["1"] false = Some s1
    /\ keyHasChanged id s1 ["1"] true = Some s2
    /\ deltaMap s2 !! "1" = Some true
    /\ keyHasChanged id (mapSub ∅) ["1"] true = Some s2.
Proof.
  destruct (X11_keyHasChanged_map_overwrites id (mapSub ∅) ["1"] ["1"] false true
              eq_refl eq_refl)
    as (s1 & s2 & E1 & E2 & L & Same & _).
  exists s1, s2. repeat split; [exact E1 | exact E2 | exact L | exact (Same eq_refl)].
Defined.

Lemma X12_flushDeltaMap_batches_witness :
  exists full last,
    flushDeltaMap quoteColumns rowValues 1 (changed (changed (mapSub ∅) "1") "2") true lock0
      (world0 okServer)
    = (let '(w1, err) :=
         ExecUnderLock lock0
           (extractStmt
              (List.flat_map
                 (fun g => [createDeleteStmt quoteColumns rowValues
                              (changed (changed (mapSub ∅) "1") "2") (fst g);
                            createReplaceStmt quoteColumns rowValues
                              (changed (changed (mapSub ∅) "1") "2") (snd g)])
                 (full ++ [last])))
           (world0 okServer) in
       match err with
       | Some e => Some (w1, changed (changed (mapSub ∅) "1") "2", Some e)
       | None => Some (w1, setDeltaMap ∅ (changed (changed (mapSub ∅) "1") "2"), None)
       end)
    /\ Forall (fun g => Z.of_nat (List.length (fst g) + List.length (snd g)) = 1) full
    /\ Z.of_nat (List.length (fst last) + List.length (snd last)) < 1.
Proof.
  assert (Hpos : 0 < 1) by reflexivity.
  destruct (X12_flushDeltaMap_batches quoteColumns rowValues
              (changed (changed (mapSub ∅) "1") "2") 1 true lock0 (world0 okServer) Hpos)
    as (full & last & E & _ & _ & _ & _ & F & L).
  exists full, last. repeat split; [exact E | exact F | exact L].
Defined.

Lemma X14_flush_nothing_pending_witness :
  flush quoteColumns rowValues 1000 NewDBConfig (mapSub ∅) true lock0 (world0 okServer)
  = Some (world0 okServer, mapSub ∅, None).
Proof.
  apply (X14_flush_nothing_pending quoteColumns rowValues 1000 NewDBConfig (mapSub ∅) true
           lock0 (world0 okServer)).
  - reflexivity.
  - left. reflexivity.
Defined.

End SubscriptionExamples.

Section BufferedMapExamples.
Import Table Dbconn BufferedMap Fixtures.

Lemma X15_HasChanged_buffers_witness :
  exists s',
    HasChanged id bufSub ["7"] [Some "7"; None; Some "seven"] false = Some s'
    /\ changes s' !! "7"
       = Some {| isDeleted := false; rowImage := [Some "7"; None; Some "seven"] |}
    /\ Length s' = 1.
Proof.
  assert (H : keyAboveWatermarkEnabled bufSub = false) by reflexivity.
  destruct (X15_HasChanged_buffers id bufSub ["7"] [Some "7"; None; Some "seven"] false H)
    as (s' & E & L & _ & N).
  exists s'. repeat split; [exact E | exact L | rewrite N; reflexivity].
Defined.

Lemma X16_HasChanged_above_watermark_witness :
  HasChanged id watermarkBuf ["7000"] [Some "7000"; None; Some "late"] false
  = Some watermarkBuf
  /\ HasChanged id watermarkBuf [] [] true = None.
Proof.
  destruct (X16_HasChanged_above_watermark id watermarkBuf (fun k => String.leb "5000" k)
              eq_refl eq_refl)
    as (Above & Empty & _).
  split; [apply Above; reflexivity | apply Empty].
Defined.

Lemma X18_upsert_columns_align_witness :
  getIntersectedColumns bufSub = [0; 2]%nat
  /\ Repl.IntersectNonGeneratedColumns t2 t2new = "`a`, `c`".
Proof.
  split; [reflexivity|].
  assert (Hnd : List.NoDup (NonGeneratedColumns (newTable bufSub))).
  { repeat (constructor; [cbn; intuition discriminate|]). constructor. }
  exact (X18_upsert_columns_align bufSub Hnd).
Defined.

End BufferedMapExamples.
